(** * LIS NetCDF to Zarr: the coordinate reconstruction and the conversion driver

    A shallow embedding of [LIS_NetCDF_to_Zarr/lis_netcdf_to_zarr.py].

    The script has two parts.  [add_latlon_coords] (lines 87-138) rebuilds the
    latitude and longitude axes of an xarray Dataset from four scalars of its
    grid description; the module body (lines 28-83 and 151-200) globs the input
    files, builds a Pangeo Forge recipe and drives it through prepare, store
    and finalize.

    The embedding follows the script line by line.  What the script calls but
    does not define is modelled beside it:
    - Python's [float] and [round], and numpy's [linspace], over IEEE 754
      binary64 and binary32 numbers ([Module IEEE], [Module Py]);
    - xarray's [Dataset]: item and attribute access, [rename], [assign_coords]
      and the [attrs] setter, over a store of Variable objects
      ([Module Xr]);
    - the recipe engine and the S3 listing, as calls whose outcome is a
      parameter ([Module Driver]). *)

From Stdlib Require Import ZArith QArith Qround Qabs Qpower Lqa Lia.
From Stdlib Require SpecFloat.
From stdpp Require Import gmap strings list fin_maps.
From Equations Require Import Equations.

Open Scope Z_scope.

(** ** IEEE 754 binary floating point *)

Module IEEE.

(** A floating-point datum: NaN, an infinity, a signed zero, or a finite
    non-zero number, kept as the rational it denotes in lowest terms.  The
    binary64 and binary32 numbers are the values [round_to] returns. *)
Inductive float :=
  | Fnan
  | Finf (s : bool)
  | Fzero (s : bool)
  | Ffin (q : Q).

(** [prec]: bits of the significand; [emin]: exponent of the least positive
    (subnormal) number; [emax]: exponent of the first power of two that
    overflows. *)
Record format := { prec : Z; emin : Z; emax : Z }.

Definition binary64 : format := {| prec := 53; emin := -1074; emax := 1024 |}.
Definition binary32 : format := {| prec := 24; emin := -149; emax := 128 |}.

Definition pow2 (e : Z) : Q :=
  match e with
  | Z0 => 1%Q
  | Zpos p => inject_Z (Z.pow_pos 2 p)
  | Zneg p => (1 # Pos.pow 2 p)%Q
  end.

(** Nearest integer, ties to even. *)
Definition rne (q : Q) : Z :=
  let f := Qfloor q in
  match (q - inject_Z f ?= 1 # 2)%Q with
  | Lt => f
  | Gt => f + 1
  | Eq => if Z.even f then f else f + 1
  end.

(** [ilog2 q] is the integer [k] with [2^k <= q < 2^(k+1)], for [q > 0]. *)
Definition ilog2 (q : Q) : Z :=
  let k := Z.log2 (Qnum q) - Z.log2 (Zpos (Qden q)) in
  if Qle_bool (pow2 k) q then k else k - 1.

Definition Qneg (q : Q) : bool := negb (Qle_bool 0 q).

(** Round to nearest, ties to even, in format [f]: the significand is an
    integer multiple of [2^e] where [e] leaves [prec f] bits above it, and
    never goes below [emin f] (gradual underflow); a result of magnitude
    [2^emax f] or more is an infinity. *)
Definition round_to (f : format) (q : Q) : float :=
  let e := Z.max (emin f) (ilog2 (Qabs q) - prec f + 1) in
  let m := rne (q / pow2 e) in
  let r := (inject_Z m * pow2 e)%Q in
  if m =? 0 then Fzero (Qneg q)
  else if Qle_bool (pow2 (emax f)) (Qabs r) then Finf (Qneg q)
  else Ffin (Qred r).

Definition round64 : Q -> float := round_to binary64.
Definition round32 : Q -> float := round_to binary32.

Definition fsign (x : float) : bool :=
  match x with
  | Fnan => false
  | Finf s | Fzero s => s
  | Ffin q => Qneg q
  end.

(** The binary64 operations: the exact result, rounded once. *)
Definition fadd (x y : float) : float :=
  match x, y with
  | Fnan, _ | _, Fnan => Fnan
  | Finf a, Finf b => if eqb a b then x else Fnan
  | Finf _, _ => x
  | _, Finf _ => y
  | Fzero a, Fzero b => Fzero (a && b)
  | Fzero _, _ => y
  | _, Fzero _ => x
  | Ffin a, Ffin b => round64 (a + b)
  end.

Definition fopp (x : float) : float :=
  match x with
  | Fnan => Fnan
  | Finf s => Finf (negb s)
  | Fzero s => Fzero (negb s)
  | Ffin q => Ffin (- q)
  end.

Definition fsub (x y : float) : float := fadd x (fopp y).

Definition fmul (x y : float) : float :=
  match x, y with
  | Fnan, _ | _, Fnan => Fnan
  | Finf _, Fzero _ | Fzero _, Finf _ => Fnan
  | Finf _, _ | _, Finf _ => Finf (xorb (fsign x) (fsign y))
  | Fzero _, _ | _, Fzero _ => Fzero (xorb (fsign x) (fsign y))
  | Ffin a, Ffin b => round64 (a * b)
  end.

Definition fdiv (x y : float) : float :=
  match x, y with
  | Fnan, _ | _, Fnan => Fnan
  | Finf _, Finf _ | Fzero _, Fzero _ => Fnan
  | Finf _, _ | _, Fzero _ => Finf (xorb (fsign x) (fsign y))
  | _, Finf _ | Fzero _, _ => Fzero (xorb (fsign x) (fsign y))
  | Ffin a, Ffin b => round64 (a / b)
  end.

(** [x == 0]. *)
Definition is_zero (x : float) : bool :=
  match x with
  | Fzero _ => true
  | _ => false
  end.

(** An integer as a binary64 number. *)
Definition of_Z (n : Z) : float := round64 (inject_Z n).
Definition of_nat (n : nat) : float := of_Z (Z.of_nat n).

(** Narrowing conversion to binary32 (numpy's [astype(float32)]). *)
Definition to_f32 (x : float) : float :=
  match x with
  | Ffin q => round32 q
  | _ => x
  end.

(** The rational a finite datum denotes. *)
Definition value (x : float) : option Q :=
  match x with
  | Ffin q => Some q
  | Fzero _ => Some 0%Q
  | _ => None
  end.

Definition is_binary64 (x : float) : bool :=
  match x with
  | Ffin q => match round64 q with
              | Ffin r => Qeq_bool q r && (Qnum q =? Qnum r) && (Zpos (Qden q) =? Zpos (Qden r))
              | _ => false
              end
  | _ => true
  end.

End IEEE.
Export IEEE.

(** ** Python and numpy numerics *)

Module Py.

(** [round(x, ndigits)] on a float, for [ndigits >= 0]: the decimal string of
    [x] with [ndigits] digits after the point, correctly rounded (ties to
    even on the exact binary value), read back as the nearest binary64.
    NaN, infinities and zeros round to themselves; beyond 323 digits every
    float does. *)
Definition round (x : float) (ndigits : nat) : float :=
  match x with
  | Ffin q =>
      if (323 <? Z.of_nat ndigits) then x
      else
        let scale := inject_Z (10 ^ Z.of_nat ndigits) in
        let n := rne (q * scale) in
        if n =? 0 then Fzero (Qneg q) else round64 (inject_Z n / scale)
  | _ => x
  end.

(** [numpy.linspace(start, stop, num, dtype=float32, endpoint=False)].
    numpy computes in binary64: [step = (stop - start) / num], then
    [arange(0, num) * step + start], and narrows the result to binary32.
    When [step == 0] it divides the index first: [(arange(0, num) / num) *
    (stop - start) + start]. *)
Definition linspace (start stop : float) (num : nat) : list float :=
  let delta := fsub stop start in
  let div := of_nat num in
  let step := fdiv delta div in
  (fun i : nat =>
     let y := if is_zero step then fmul (fdiv (of_nat i) div) delta
              else fmul (of_nat i) step in
     to_f32 (fadd y start)) <$> seq 0 num.

End Py.

(** ** Exceptions *)

Module Exc.

(** The Python exceptions the script can meet.  [NameError] is for a global
    name that nothing has set; [SystemError] stands for a reference to an
    object that is not in the store, which no Python program can hold;
    [EngineError] for whatever a collaborator (S3, the recipe engine)
    raises. *)
Inductive exn :=
  | KeyError (key : string)
  | ValueError (msg : string)
  | TypeError (msg : string)
  | AttributeError (name : string)
  | NameError (name : string)
  | OverflowError
  | SystemError
  | EngineError (code : nat).

Inductive result (A : Type) :=
  | Ok (a : A)
  | Raise (e : exn).
Arguments Ok {A} a.
Arguments Raise {A} e.

Definition is_ok {A} (r : result A) : bool :=
  match r with
  | Ok _ => true
  | Raise _ => false
  end.

End Exc.
Export Exc.

(** ** Attribute values and Python's [float] *)

(** What Python's [float] makes of a string ([None]: it raises ValueError).
    The script only hands the string over, so the parser is a parameter. *)
Class PyText := float_of_str : string -> option float.

Module Attr.

(** A value of an attribute mapping, as netCDF attributes arrive through
    xarray: a floating or integer scalar, a text, or a numeric array. *)
Inductive attr_value :=
  | AFloat (x : float)
  | AInt (n : Z)
  | AText (s : string)
  | AArray (xs : list float).

(** [float(v)]. *)
Definition float_ `{PyText} (v : attr_value) : result float :=
  match v with
  | AFloat x => Ok x
  | AInt n =>
      match of_Z n with
      | Finf _ => Raise OverflowError
      | x => Ok x
      end
  | AText s =>
      match float_of_str s with
      | Some x => Ok x
      | None => Raise (ValueError "could not convert string to float")
      end
  | AArray [x] => Ok x
  | AArray _ => Raise (TypeError "only size-1 arrays can be converted to Python scalars")
  end.

(** [attrs[key]] on a dict. *)
Definition getitem (attrs : gmap string attr_value) (key : string) : result attr_value :=
  match attrs !! key with
  | Some v => Ok v
  | None => Raise (KeyError key)
  end.

End Attr.
Export Attr.

(** ** The object store and the effect monad *)

Module World.

(** An [xarray.Variable]: dimension names, shape, the data in row-major
    order, and the attribute dict. *)
Record variable := {
  v_dims : list string;
  v_shape : list nat;
  v_data : list float;
  v_attrs : gmap string attr_value
}.

(** A reference to an object: its place in the store. *)
Abbreviation loc := nat (only parsing).

(** A chunk of the recipe: its ordinal, and the input files grouped in it. *)
Record chunk := { chunk_index : nat; chunk_inputs : list string }.

(** The calls the script makes to its collaborators. *)
Inductive call :=
  | S3Glob (url : string)
  | PatternFromFileSequence (file_list : list string) (concat_dim : string) (nitems_per_file : nat)
  | CreateStorageConfig (temp_dir target_url : string)
  | XarrayZarrRecipe (inputs_per_chunk : nat) (cache_inputs : bool) (target_chunks : list (string * nat))
  | IterChunks
  | PrepareTarget
  | StoreChunk (c : chunk)
  | FinalizeTarget.

(** Everything an invocation can read or change: the Variable objects there
    are, the text printed so far, and the calls made so far to S3 and to the
    recipe engine. *)
Record world := {
  heap : list variable;
  stdout : list string;
  calls : list call
}.

Definition M (A : Type) : Type := world -> result A * world.

Definition ret {A} (a : A) : M A := fun w => (Ok a, w).

Definition bind {A B} (c : M A) (k : A -> M B) : M B :=
  fun w =>
    match c w with
    | (Ok a, w') => k a w'
    | (Raise e, w') => (Raise e, w')
    end.

Definition raise {A} (e : exn) : M A := fun w => (Raise e, w).

Definition lift {A} (r : result A) : M A := fun w => (r, w).

Notation "'let*' x := c 'in' k" := (bind c (fun x => k))
  (at level 10, x pattern, c at level 100, k at level 200).

(** A new object: it gets the next free location. *)
Definition alloc (v : variable) : M loc :=
  fun w => (Ok (length (heap w)),
            {| heap := heap w ++ [v]; stdout := stdout w; calls := calls w |}).

Definition deref (l : loc) : M variable :=
  fun w =>
    match heap w !! l with
    | Some v => (Ok v, w)
    | None => (Raise SystemError, w)
    end.

(** [var.attrs = value]: the setter stores a copy of the dict in the object. *)
Definition set_attrs (l : loc) (a : gmap string attr_value) : M unit :=
  fun w =>
    match heap w !! l with
    | Some v =>
        (Ok tt,
         {| heap := <[l := {| v_dims := v_dims v; v_shape := v_shape v;
                              v_data := v_data v; v_attrs := a |}]> (heap w);
            stdout := stdout w; calls := calls w |})
    | None => (Raise SystemError, w)
    end.

Definition print (s : string) : M unit :=
  fun w => (Ok tt, {| heap := heap w; stdout := stdout w ++ [s]; calls := calls w |}).

End World.
Export World.

(** ** xarray's Dataset *)

Module Xr.

(** A Python dict with string keys, in insertion order. *)
Abbreviation dict V := (list (string * V)) (only parsing).

Fixpoint dict_get {V} (k : string) (d : dict V) : option V :=
  match d with
  | [] => None
  | (k', v) :: d' => if String.eqb k k' then Some v else dict_get k d'
  end.

(** [d[k] = v]: an existing key keeps its place, a new one goes last. *)
Fixpoint dict_set {V} (k : string) (v : V) (d : dict V) : dict V :=
  match d with
  | [] => [(k, v)]
  | (k', v') :: d' =>
      if String.eqb k k' then (k, v) :: d' else (k', v') :: dict_set k v d'
  end.

Definition dict_mem {V} (k : string) (d : dict V) : bool :=
  match dict_get k d with
  | Some _ => true
  | None => false
  end.

(** The Dataset object: its variables (data variables and coordinates, each a
    reference to a Variable object), the names that are coordinates, the size
    of every dimension, and the global attributes. *)
Record Dataset := {
  ds_vars : dict loc;
  ds_coord_names : list string;
  ds_dims : dict nat;
  ds_attrs : gmap string attr_value
}.

(** [len(ds[key])].  [ds[key]] is the variable of that name; for a dimension
    that has no variable it is the default index [0 .. size-1].  [len] of an
    array is the length of its first axis. *)
Definition len_getitem (ds : Dataset) (key : string) : M nat :=
  match dict_get key (ds_vars ds) with
  | Some l =>
      let* v := deref l in
      match v_shape v with
      | n :: _ => ret n
      | [] => raise (TypeError "len() of unsized object")
      end
  | None =>
      match dict_get key (ds_dims ds) with
      | Some n => ret n
      | None => raise (KeyError key)
      end
  end.

(** [name_dict.get(k, k)]. *)
Definition renamed (name_dict : dict string) (k : string) : string :=
  match dict_get k name_dict with
  | Some k' => k'
  | None => k
  end.

(** A shallow copy of a Variable with its dimensions renamed: the data and the
    attributes are those of the original. *)
Definition var_rename (name_dict : dict string) (v : variable) : variable :=
  {| v_dims := renamed name_dict <$> v_dims v;
     v_shape := v_shape v;
     v_data := v_data v;
     v_attrs := v_attrs v |}.

(** [Dataset._rename_vars]: every variable is copied (shallow) with its
    dimensions renamed and stored under its new name; a name met twice is an
    error. *)
Fixpoint rename_vars (name_dict : dict string) (vars : dict loc) (acc : dict loc)
  : M (dict loc) :=
  match vars with
  | [] => ret acc
  | (k, l) :: vars' =>
      let* v := deref l in
      let* l' := alloc (var_rename name_dict v) in
      let name := renamed name_dict k in
      if dict_mem name acc then raise (ValueError "the new name conflicts")
      else rename_vars name_dict vars' (acc ++ [(name, l')])
  end.

(** The check [Dataset.rename] makes first: every key to rename is a variable
    or a dimension. *)
Fixpoint rename_check (keys : list string) (ds : Dataset) : M unit :=
  match keys with
  | [] => ret tt
  | k :: keys' =>
      if dict_mem k (ds_vars ds) || dict_mem k (ds_dims ds)
      then rename_check keys' ds
      else raise (ValueError "cannot rename: not a variable or dimension in this dataset")
  end.

(** [Dataset._rename_dims]: a dict comprehension over the dimensions, so the
    last entry of a name stands. *)
Definition rename_dims (name_dict : dict string) (dims : dict nat) : dict nat :=
  fold_left (fun (acc : dict nat) (kn : string * nat) =>
               dict_set (renamed name_dict kn.1) kn.2 acc) dims [].

(** [ds.rename(name_dict)]: a new Dataset; variables, coordinates and
    dimensions are renamed alike. *)
Definition rename (name_dict : dict string) (ds : Dataset) : M Dataset :=
  let* _ := rename_check (fst <$> name_dict) ds in
  let* vars := rename_vars name_dict (ds_vars ds) [] in
  ret {| ds_vars := vars;
         ds_coord_names := renamed name_dict <$> ds_coord_names ds;
         ds_dims := rename_dims name_dict (ds_dims ds);
         ds_attrs := ds_attrs ds |}.

(** [Dataset.copy(deep=False)] on the variables: new Variable objects that
    share the data. *)
Fixpoint copy_vars (vars : dict loc) : M (dict loc) :=
  match vars with
  | [] => ret []
  | (k, l) :: vars' =>
      let* v := deref l in
      let* l' := alloc v in
      let* rest := copy_vars vars' in
      ret ((k, l') :: rest)
  end.

(** One entry of [assign_coords]: a one-dimensional array under the name of
    its own dimension.  Its length must agree with the size the Dataset has
    for that dimension, if it has one. *)
Definition assign_coord (name : string) (arr : list float) (ds : Dataset) : M Dataset :=
  let n := length arr in
  let* dims :=
    match dict_get name (ds_dims ds) with
    | Some n' =>
        if Nat.eqb n n' then ret (ds_dims ds)
        else raise (ValueError "conflicting sizes for dimension")
    | None => ret (dict_set name n (ds_dims ds))
    end in
  let* l := alloc {| v_dims := [name]; v_shape := [n]; v_data := arr; v_attrs := ∅ |} in
  ret {| ds_vars := dict_set name l (ds_vars ds);
         ds_coord_names := if existsb (String.eqb name) (ds_coord_names ds)
                           then ds_coord_names ds
                           else ds_coord_names ds ++ [name];
         ds_dims := dims;
         ds_attrs := ds_attrs ds |}.

Fixpoint assign_each (coords : dict (list float)) (ds : Dataset) : M Dataset :=
  match coords with
  | [] => ret ds
  | (name, arr) :: coords' =>
      let* ds' := assign_coord name arr ds in
      assign_each coords' ds'
  end.

(** [ds.assign_coords(coords)]: a shallow copy of the Dataset with the new
    coordinates added or replaced. *)
Definition assign_coords (coords : dict (list float)) (ds : Dataset) : M Dataset :=
  let* vars := copy_vars (ds_vars ds) in
  assign_each coords {| ds_vars := vars;
                        ds_coord_names := ds_coord_names ds;
                        ds_dims := ds_dims ds;
                        ds_attrs := ds_attrs ds |}.

(** [ds.name], as far as the script uses it: the DataArray of the variable of
    that name, which wraps the very Variable object of the Dataset; for a
    dimension without variable, a default index made on the spot. *)
Definition getattr (ds : Dataset) (name : string) : M loc :=
  match dict_get name (ds_vars ds) with
  | Some l => ret l
  | None =>
      match dict_get name (ds_dims ds) with
      | Some n => alloc {| v_dims := [name]; v_shape := [n];
                           v_data := of_nat <$> seq 0 n; v_attrs := ∅ |}
      | None => raise (AttributeError name)
      end
  end.

(** [.attrs] of a DataArray. *)
Definition get_attrs (l : loc) : M (gmap string attr_value) :=
  let* v := deref l in ret (v_attrs v).

End Xr.
Export Xr.

(** ** The script: the coordinate reconstruction *)

Module Lis.

Section Reconstruct.
Context `{PyText}.

(** Lines 87-138. *)
Definition add_latlon_coords (ds : Dataset) : M Dataset :=
  (* get attributes from dataset *)
  let attrs := ds_attrs ds in
  (* get x and y resolution from metadata *)
  let* a := lift (getitem attrs "DX") in
  let* x := lift (float_ a) in
  let dx := Py.round x 3 in
  let* a := lift (getitem attrs "DY") in
  let* x := lift (float_ a) in
  let dy := Py.round x 3 in
  (* get number of grid cells in x, y dimensions from metadata *)
  let* ew_len := len_getitem ds "east_west" in
  let* ns_len := len_getitem ds "north_south" in
  (* get lower-left lat and lon from metadata *)
  let* a := lift (getitem attrs "SOUTH_WEST_CORNER_LAT") in
  let* x := lift (float_ a) in
  let ll_lat := Py.round x 3 in
  let* a := lift (getitem attrs "SOUTH_WEST_CORNER_LON") in
  let* x := lift (float_ a) in
  let ll_lon := Py.round x 3 in
  (* calculate upper-right lat and lon *)
  let ur_lat := fadd ll_lat (fmul dy (of_nat ns_len)) in
  let ur_lon := fadd ll_lon (fmul dx (of_nat ew_len)) in
  (* define the new coordinates *)
  let coords := [ ("lat"%string, Py.linspace ll_lat ur_lat ns_len);
                  ("lon"%string, Py.linspace ll_lon ur_lon ew_len) ] in
  (* rename the original lat and lon variables to preserve them *)
  let* ds := rename [("lon", "orig_lon"); ("lat", "orig_lat")]%string ds in
  (* rename the grid dimensions to lat and lon *)
  let* ds := rename [("north_south", "lat"); ("east_west", "lon")]%string ds in
  (* assign the coords above as coordinates and add original metadata *)
  let* ds := assign_coords coords ds in
  let* src := getattr ds "orig_lon" in
  let* a := get_attrs src in
  let* dst := getattr ds "lon" in
  let* _ := set_attrs dst a in
  let* src := getattr ds "orig_lat" in
  let* a := get_attrs src in
  let* dst := getattr ds "lat" in
  let* _ := set_attrs dst a in
  ret ds.

(** Lines 141-148. *)
Definition preprocess (ds : Dataset) : M Dataset :=
  let* ds := add_latlon_coords ds in
  ret ds.

End Reconstruct.

End Lis.
Export Lis.

(** ** The chunk planner of the recipe engine *)

Module Planner.

(** Modelled from the spec: [pattern_from_file_sequence] and
    [XarrayZarrRecipe.iter_chunks] belong to pangeo_forge_recipes, which the
    script imports and does not define.  The spec (4.3) has the planner
    partition the ordered input sequence into consecutive groups of
    [inputs_per_chunk] files, the final group possibly shorter.
    [inputs_per_chunk] is positive by contract; for 0 no group is made. *)
Equations? groups {A} (k : nat) (l : list A) : list (list A) by wf (length l) lt :=
  groups 0 _ := [];
  groups (S k) [] := [];
  groups (S k) (x :: l) := (x :: take k l) :: groups (S k) (drop k l).
Proof. rewrite length_drop. simpl. lia. Qed.

(** Modelled from the spec: each group with its ordinal index (4.3). *)
Definition chunk_plan (inputs_per_chunk : nat) (file_list : list string) : list chunk :=
  imap (fun i g => {| chunk_index := i; chunk_inputs := g |})
       (groups inputs_per_chunk file_list).

(** Modelled from the spec: the record offset of a group into the
    concatenated time axis, [ordinal_index * inputs_per_chunk *
    items_per_file] (4.3). *)
Definition chunk_offset (nitems_per_file inputs_per_chunk : nat) (c : chunk) : nat :=
  (chunk_index c * inputs_per_chunk * nitems_per_file)%nat.

(** Modelled from the spec: the records a group holds, [items_per_file] for
    each of its inputs (4.3); one past its last record is
    [chunk_offset + chunk_records]. *)
Definition chunk_records (nitems_per_file : nat) (c : chunk) : nat :=
  (length (chunk_inputs c) * nitems_per_file)%nat.

End Planner.
Export Planner.

(** ** The script: the conversion driver *)

Module Driver.

(** The keys of the YAML configuration, which the script turns into global
    names (line 55). *)
Record Config := {
  bucket : string;
  input_path : string;
  target_path : string;
  temp_dir : string;
  nitems_per_file : nat;
  inputs_per_chunk : nat;
  target_chunks : list (string * nat);
  enable_logging : bool
}.

Definition protocol : string := "s3://".




(** Lines 68-72: [protocol + '/'.join([bucket, path])]. *)
Definition build_url (cfg : Config) (path : string) : string :=
  protocol +:+ bucket cfg +:+ "/" +:+ path.

Section Script.

(** [s3.glob]: the paths the bucket lists for a pattern. *)
Variable s3_glob : string -> list string.

(** The collaborators' behaviour: given the calls made so far, whether a call
    raises ([None]: it returns normally). *)
Variable engine : list call -> call -> option exn.

(** A call to a collaborator: it is recorded, and ends as the collaborator
    decides. *)
Definition invoke (c : call) : M unit :=
  fun w =>
    let w' := {| heap := heap w; stdout := stdout w; calls := calls w ++ [c] |} in
    match engine (calls w) c with
    | Some e => (Raise e, w')
    | None => (Ok tt, w')
    end.

(** [for chunk in chunks: body(chunk)]. *)
Fixpoint for_each {A} (xs : list A) (body : A -> M unit) : M unit :=
  match xs with
  | [] => ret tt
  | x :: xs' => let* _ := body x in for_each xs' body
  end.

(** [recipe.iter_chunks()]: the engine is asked, and yields the plan of the
    chunk planner. *)
Definition iter_chunks (inputs_per_chunk : nat) (file_list : list string) : M (list chunk) :=
  let* _ := invoke IterChunks in
  ret (chunk_plan inputs_per_chunk file_list).

(** Lines 74-83 and 172-200, for a configuration that sets every name of
    [Config] ([run], below, is the module body for any configuration).  The
    logging set-up (lines 57-65) and the progress bar write to the logger and
    to stderr only and are left out; [preprocess] is handed to the engine,
    which applies it to the frames of a chunk inside [prepare_target] and
    [store_chunk]. *)
Definition main (cfg : Config) : M unit :=
  (* create URL to bucket containing input files *)
  let input_url := build_url cfg (input_path cfg) in
  (* create input URLs by globbing input URL pattern *)
  let* _ := invoke (S3Glob input_url) in
  let input_urls := (fun s => protocol +:+ s) <$> s3_glob input_url in
  (* define recipe file pattern *)
  let* _ := invoke (PatternFromFileSequence input_urls "time" (nitems_per_file cfg)) in
  let* _ := print "Creating recipe..." in
  let* _ := invoke (CreateStorageConfig (temp_dir cfg) (build_url cfg (target_path cfg))) in
  let* _ := invoke (XarrayZarrRecipe (inputs_per_chunk cfg) false (target_chunks cfg)) in
  (* get list of all chunks *)
  let* all_chunks := iter_chunks (inputs_per_chunk cfg) input_urls in
  (* prepare the target (create empty Zarr store) *)
  let* _ := print "Preparing target..." in
  let* _ := invoke PrepareTarget in
  (* execute the recipe (conversion) *)
  let* _ := print "Executing recipe..." in
  let* chunks := iter_chunks (inputs_per_chunk cfg) input_urls in
  let* _ := for_each chunks (fun c => invoke (StoreChunk c)) in
  (* consolidate metadata *)
  let* _ := print "Finalizing recipe..." in
  let* _ := invoke FinalizeTarget in
  print "Recipe executed!".

(** A global name is read: [NameError] when nothing has set it. *)
Definition name {A} (n : string) (v : option A) : M A :=
  match v with
  | Some a => ret a
  | None => raise (NameError n)
  end.




End Script.

(** The calls that write to the target store. *)
Definition writes_target (c : call) : bool :=
  match c with
  | PrepareTarget | StoreChunk _ | FinalizeTarget => true
  | _ => false
  end.

End Driver.
Export Driver.

(** * The vocabulary of the statements *)

Module Spec.

(** ** The numbers the data denote *)

Section Numbers.
Local Open Scope Q_scope.

(** The rational a datum denotes (0 for NaN and the infinities), and the data
    that denote one. *)
Definition fval (x : float) : Q :=
  match x with
  | Ffin q => q
  | _ => 0
  end.

Definition finite (x : float) : Prop :=
  match x with
  | Ffin _ | Fzero _ => True
  | _ => False
  end.

(** A grid of geographic size: the corner within 256 of zero, the step at
    least [2^-11] (0.001 and every larger resolution is), at least one cell,
    and the cells spanning at most 512. *)
Definition in_range (corner step : float) (n : nat) : Prop :=
  finite corner /\ Qabs (fval corner) <= 256 /\
  finite step /\ 1 # 2048 <= fval step /\
  (0 < n)%nat /\ fval step * inject_Z (Z.of_nat n) <= 512.

End Numbers.

(** ** The Standard Library's IEEE 754 operations, for comparison *)

(** The datum of this development a [spec_float] stands for. *)
Definition of_SF (x : SpecFloat.spec_float) : float :=
  match x with
  | SpecFloat.S754_zero s => Fzero s
  | SpecFloat.S754_infinity s => Finf s
  | SpecFloat.S754_nan => Fnan
  | SpecFloat.S754_finite s m e =>
      Ffin (Qred (inject_Z (if s then Z.neg m else Z.pos m) * pow2 e)%Q)
  end.

(** The binary64 number nearest to [m * 2^e]. *)
Definition sf64 (m e : Z) : SpecFloat.spec_float :=
  SpecFloat.binary_normalize 53 1024 m e false.

(** Numbers of every kind: small and large, normal and subnormal, exact and
    not, the zeros, the infinities and NaN. *)
Definition samples : list SpecFloat.spec_float :=
  [ sf64 1 0; sf64 (-1439) (-3); sf64 3602879701896397 (-55); sf64 1 (-1074);
    sf64 (2 ^ 53 - 1) 971; sf64 5 (-1); sf64 1 600; sf64 (2 ^ 52 + 1) (-1074);
    SpecFloat.S754_zero true; SpecFloat.S754_infinity false; SpecFloat.S754_nan ].

Definition same_datum (x y : float) : bool :=
  match x, y with
  | Fnan, Fnan => true
  | Finf a, Finf b | Fzero a, Fzero b => eqb a b
  | Ffin a, Ffin b => Z.eqb (Qnum a) (Qnum b) && Pos.eqb (Qden a) (Qden b)
  | _, _ => false
  end.

(** An operation of this development gives, on every pair of [samples], what
    the Standard Library's gives. *)
Definition agree2 (sf : SpecFloat.spec_float -> SpecFloat.spec_float -> SpecFloat.spec_float)
    (f : float -> float -> float) : bool :=
  forallb (fun x =>
    forallb (fun y => same_datum (of_SF (sf x y)) (f (of_SF x) (of_SF y))) samples)
    samples.

(** ** What an invocation leaves alone *)

(** [grows w w']: every object of [w] is in [w'] as it was, and nothing was
    printed or asked of a collaborator; [w'] may hold new objects. *)
Definition grows (w w' : world) : Prop :=
  heap w `prefix_of` heap w' /\ stdout w' = stdout w /\ calls w' = calls w.

(** A computation that, from every world, only [grows] it. *)
Definition allocates_only {A} (c : M A) : Prop := forall w, grows w (c w).2.

(** Every reference of [vars] is to an object made at location [n] or later. *)
Definition fresh_from (n : nat) (vars : dict loc) : Prop :=
  Forall (fun kl => n <= kl.2)%nat vars.

(** The world with another store, and the Variable with other attributes. *)
Definition with_heap (w : world) (h : list variable) : world :=
  {| heap := h; stdout := stdout w; calls := calls w |}.

Definition with_attrs (v : variable) (a : gmap string attr_value) : variable :=
  {| v_dims := v_dims v; v_shape := v_shape v; v_data := v_data v; v_attrs := a |}.

(** ** Datasets in a world *)

(** The Variable object a name of the Dataset refers to. *)
Definition var_of (w : world) (ds : Dataset) (name : string) : option variable :=
  match dict_get name (ds_vars ds) with
  | Some l => heap w !! l
  | None => None
  end.

(** [holds w vars vals]: the variables [vars] refer to are, in order, [vals]. *)
Definition holds (w : world) (vars : dict loc) (vals : list variable) : Prop :=
  Forall2 (fun kl v => heap w !! kl.2 = Some v) vars vals.

(** Every variable of the Dataset is an object of the world. *)
Definition valid (w : world) (ds : Dataset) : Prop :=
  Forall (fun kl : string * nat => is_Some (heap w !! kl.2)) (ds_vars ds).

(** A one-dimensional coordinate: the array [arr] on the dimension [name]. *)
Definition coord_var (name : string) (arr : list float) (a : gmap string attr_value) : variable :=
  {| v_dims := [name]; v_shape := [length arr]; v_data := arr; v_attrs := a |}.

(** What [rename] needs to go through. *)
Definition can_rename (nd : dict string) (ds : Dataset) : Prop :=
  NoDup (renamed nd <$> (ds_vars ds).*1) /\
  Forall (fun k => k ∈ (ds_vars ds).*1 \/ k ∈ (ds_dims ds).*1) nd.*1.

(** What [rename] returns. *)
Definition renamed_to (nd : dict string) (w : world) (ds : Dataset)
    (w' : world) (ds' : Dataset) : Prop :=
  (ds_vars ds').*1 = renamed nd <$> (ds_vars ds).*1 /\
  valid w' ds' /\
  (forall k v, var_of w ds k = Some v ->
               var_of w' ds' (renamed nd k) = Some (var_rename nd v)) /\
  ds_dims ds' = rename_dims nd (ds_dims ds) /\
  ds_attrs ds' = ds_attrs ds /\
  grows w w'.

(** The array fits the dimension of its name, if the Dataset has one. *)
Definition size_ok (dims : list (string * nat)) (name : string) (arr : list float) : Prop :=
  forall n, dict_get name dims = Some n -> length arr = n.

(** No other name of the Dataset refers to the object that [n] refers to. *)
Definition unshared (ds : Dataset) (n : string) : Prop :=
  forall k l, dict_get k (ds_vars ds) = Some l -> dict_get n (ds_vars ds) = Some l -> k = n.

(** What [assign_coords] with two coordinates returns. *)
Definition assigned_to (n1 : string) (a1 : list float) (n2 : string) (a2 : list float)
    (w : world) (ds : Dataset) (w' : world) (ds' : Dataset) : Prop :=
  var_of w' ds' n1 = Some (coord_var n1 a1 ∅) /\
  var_of w' ds' n2 = Some (coord_var n2 a2 ∅) /\
  (forall k, k <> n1 -> k <> n2 -> var_of w' ds' k = var_of w ds k) /\
  unshared ds' n1 /\ unshared ds' n2 /\
  ds_attrs ds' = ds_attrs ds /\
  grows w w'.

(** [d] is a dimension of size [n], and a variable of that name, if there is
    one, has that length. *)
Definition dim_len (w : world) (ds : Dataset) (d : string) (n : nat) : Prop :=
  dict_get d (ds_dims ds) = Some n /\
  forall v, var_of w ds d = Some v -> head (v_shape v) = Some n.

(** ** The grid of a frame *)

(** The two renamings of the script (lines 128 and 131). *)
Definition keep_names : list (string * string) := [("lon", "orig_lon"); ("lat", "orig_lat")]%string.
Definition grid_names : list (string * string) := [("north_south", "lat"); ("east_west", "lon")]%string.

(** The attributes of the grid description. *)
Definition grid_keys : list string :=
  ["DX"; "DY"; "SOUTH_WEST_CORNER_LAT"; "SOUTH_WEST_CORNER_LON"]%string.

(** The axis of lines 117-124: [linspace] from the corner to
    [corner + step * n], the end left out. *)
Definition axis (corner step : float) (n : nat) : list float :=
  Py.linspace corner (fadd corner (fmul step (of_nat n))) n.

(** A frame of LIS output, as xarray reads it: a Dataset whose variables
    exist and have distinct names, with the variables [lat] and [lon], the
    dimensions [north_south] and [east_west], and no variable yet under the
    names the originals are kept under. *)
Record lis_frame (w : world) (ds : Dataset) : Prop := {
  lf_valid : valid w ds;
  lf_names : NoDup (ds_vars ds).*1;
  lf_dims : NoDup (ds_dims ds).*1;
  lf_lat : "lat" ∈ (ds_vars ds).*1;
  lf_lon : "lon" ∈ (ds_vars ds).*1;
  lf_orig_lat : "orig_lat" ∉ (ds_vars ds).*1;
  lf_orig_lon : "orig_lon" ∉ (ds_vars ds).*1;
  lf_ns : exists n, dim_len w ds "north_south" n;
  lf_ew : exists n, dim_len w ds "east_west" n
}.

(** Two frames agree on the grid description and on the two dimension
    lengths, as the reconstruction reads them. *)
Definition same_grid (ds1 : Dataset) (w1 : world) (ds2 : Dataset) (w2 : world) : Prop :=
  Forall (fun key => ds_attrs ds1 !! key = ds_attrs ds2 !! key) grid_keys /\
  (len_getitem ds1 "north_south" w1).1 = (len_getitem ds2 "north_south" w2).1 /\
  (len_getitem ds1 "east_west" w1).1 = (len_getitem ds2 "east_west" w2).1.

Section WithText.
Context `{PyText}.

(** A grid scalar as lines 105-106 and 113-114 read it:
    [round(float(attrs[key]), 3)]. *)
Definition grid_scalar (ds : Dataset) (key : string) : result float :=
  match getitem (ds_attrs ds) key with
  | Ok a =>
      match float_ a with
      | Ok x => Ok (Py.round x 3)
      | Raise e => Raise e
      end
  | Raise e => Raise e
  end.

(** The attribute is there and [float] takes it. *)
Definition supplied (ds : Dataset) (key : string) : Prop :=
  exists a x, ds_attrs ds !! key = Some a /\ float_ a = Ok x.

(** What Python's [float] takes: a floating-point number, an integer that a
    binary64 number can hold, a text that reads as a number, an array of one
    element. *)
Definition numeric (a : attr_value) : Prop :=
  match a with
  | AFloat _ => True
  | AInt n => forall s, of_Z n <> Finf s
  | AText s => is_Some (float_of_str s)
  | AArray xs => length xs = 1%nat
  end.

(** What [float] raises for a value it does not take. *)
Definition float_error (a : attr_value) : exn :=
  match a with
  | AInt _ => OverflowError
  | AText _ => ValueError "could not convert string to float"
  | _ => TypeError "only size-1 arrays can be converted to Python scalars"
  end.

(** The attribute is there and is one [float] takes. *)
Definition accepted (ds : Dataset) (key : string) : Prop :=
  exists a, ds_attrs ds !! key = Some a /\ numeric a.

(** The exception of the first grid scalar, in the order the script reads
    them, that is absent or that [float] does not take: Python's [KeyError]
    for the key, or the [ValueError], [TypeError] or [OverflowError] of
    [float]. *)
Definition read_error (ds : Dataset) (e : exn) : Prop :=
  exists before key after,
    grid_keys = before ++ key :: after /\
    Forall (accepted ds) before /\
    ((ds_attrs ds !! key = None /\ e = KeyError key) \/
     (exists a, ds_attrs ds !! key = Some a /\ ~ numeric a /\ e = float_error a)).

End WithText.

(** ** The coordinates of a result *)

(** The coordinate the reconstruction attaches under [name]: a
    one-dimensional variable on the dimension of its own name, holding the
    axis of the grid. *)
Definition attaches (w : world) (ds : Dataset) (name : string)
    (corner step : float) (n : nat) : Prop :=
  exists v, var_of w ds name = Some v /\
    v_dims v = [name] /\ v_shape v = [n] /\ v_data v = axis corner step n.

(** The data of the coordinate [name] an invocation ends with. *)
Definition axis_data (name : string) (r : result Dataset * world) : option (list float) :=
  match r with
  | (Ok ds, w) => v_data <$> var_of w ds name
  | (Raise _, _) => None
  end.

(** The coordinate [name] an invocation ends with: its dimensions, shape and
    data. *)
Definition coordinate (name : string) (r : result Dataset * world)
  : option (list string * list nat * list float) :=
  match r with
  | (Ok ds, w) => (fun v => (v_dims v, v_shape v, v_data v)) <$> var_of w ds name
  | (Raise _, _) => None
  end.

(** Element [i] is [corner + step * i] within [2^-14], and below the upper
    bound [corner + step * n]. *)
Definition follows (a : list float) (corner step : float) (n : nat) : Prop :=
  forall i, (i < n)%nat ->
    exists z, a !! i = Some z /\ finite z /\
      (Qabs (fval z - (fval corner + fval step * inject_Z (Z.of_nat i))) <= pow2 (-14))%Q /\
      (fval z < fval corner + fval step * inject_Z (Z.of_nat n))%Q.

(** A regular axis: strictly increasing, neighbours [step] apart within
    [2^-13], from the corner (as binary32 holds it) to
    [corner + step * (n - 1)] within [2^-14]. *)
Definition regular (a : list float) (corner step : float) (n : nat) : Prop :=
  length a = n /\
  (forall i j zi zj, (i < j)%nat -> a !! i = Some zi -> a !! j = Some zj ->
     (fval zi < fval zj)%Q) /\
  (forall i zi zj, a !! i = Some zi -> a !! S i = Some zj ->
     (Qabs (fval zj - fval zi - fval step) <= pow2 (-13))%Q) /\
  (exists z, a !! 0%nat = Some z /\ finite z /\ (fval z == fval (to_f32 corner))%Q) /\
  (exists z, a !! (n - 1)%nat = Some z /\ finite z /\
     (Qabs (fval z - (fval corner + fval step * inject_Z (Z.of_nat (n - 1)))) <= pow2 (-14))%Q).

(** ** The axes against the grid description of the file *)

(** A grid description of geographic size, as the file gives it: the corner
    within 255 of zero, the resolution above 0.0005 and at most 255, at least
    one cell, and the cells, each taken 0.001 wider, spanning at most 512. *)
Definition described (c : float) (q : Q) (n : nat) : Prop :=
  finite c /\ (Qabs (fval c) <= 255)%Q /\
  ((1 # 2000) < q)%Q /\ (q <= 255)%Q /\
  (0 < n)%nat /\ ((q + (1 # 1000)) * inject_Z (Z.of_nat n) <= 512)%Q.

(** Element [i] is [c + q * i] within [2^-14 + (0.0005 + 2^-46) * (1 + i)]:
    the rounding of the corner and, [i] times, of the resolution. *)
Definition tracks (a : list float) (c q : Q) (n : nat) : Prop :=
  forall i, (i < n)%nat ->
    exists z, a !! i = Some z /\ finite z /\
      (Qabs (fval z - (c + q * inject_Z (Z.of_nat i))) <=
         pow2 (-14) + ((1 # 2000) + pow2 (-46)) * (1 + inject_Z (Z.of_nat i)))%Q.

(** ** A run without inputs *)

(** The calls of lines 74-83 and 172-198 when the glob lists no file: there
    is no chunk, and so no [store_chunk]. *)
Definition zero_input_calls (cfg : Config) : list call :=
  [ S3Glob (build_url cfg (input_path cfg));
    PatternFromFileSequence [] "time" (nitems_per_file cfg);
    CreateStorageConfig (temp_dir cfg) (build_url cfg (target_path cfg));
    XarrayZarrRecipe (inputs_per_chunk cfg) false (target_chunks cfg);
    IterChunks; PrepareTarget; IterChunks; FinalizeTarget ].

Definition is_store_chunk (c : call) : bool :=
  match c with StoreChunk _ => true | _ => false end.

(** ** The script, step by step *)

(** A step of the script: a call to a collaborator, or a line printed. *)
Inductive step :=
  | Call (c : call)
  | Say (s : string).

(** The steps of lines 74-83 and 172-200, in their order, when the glob
    lists [paths]: one [store_chunk] for every chunk of the recipe. *)
Definition script (cfg : Config) (paths : list string) : list step :=
  let input_urls := (fun s => protocol +:+ s) <$> paths in
  [ Call (S3Glob (build_url cfg (input_path cfg)));
    Call (PatternFromFileSequence input_urls "time" (nitems_per_file cfg));
    Say "Creating recipe...";
    Call (CreateStorageConfig (temp_dir cfg) (build_url cfg (target_path cfg)));
    Call (XarrayZarrRecipe (inputs_per_chunk cfg) false (target_chunks cfg));
    Call IterChunks;
    Say "Preparing target...";
    Call PrepareTarget;
    Say "Executing recipe...";
    Call IterChunks ] ++
  ((fun c => Call (StoreChunk c)) <$> chunk_plan (inputs_per_chunk cfg) input_urls) ++
  [ Say "Finalizing recipe..."; Call FinalizeTarget; Say "Recipe executed!" ].

(** The calls and the lines of a list of steps. *)
Definition calls_of (ss : list step) : list call :=
  omap (fun s => match s with Call c => Some c | Say _ => None end) ss.

Definition lines_of (ss : list step) : list string :=
  omap (fun s => match s with Say l => Some l | Call _ => None end) ss.

(** Steps run one after the other, up to the first call that raises. *)
Fixpoint exec (engine : list call -> call -> option exn) (ss : list step) : M unit :=
  match ss with
  | [] => ret tt
  | Call c :: ss' => let* _ := invoke engine c in exec engine ss'
  | Say l :: ss' => let* _ := print l in exec engine ss'
  end.

(** The URLs of line 78: the paths the glob lists, each with the protocol
    before it. *)
Definition input_urls (s3_glob : string -> list string) (cfg : Config) : list string :=
  (fun s => protocol +:+ s) <$> s3_glob (build_url cfg (input_path cfg)).

(** The calls of a complete run, in their order: the seven of the set-up and
    of [prepare_target], one [store_chunk] for every chunk the recipe yields,
    and [finalize_target]. *)
Definition script_calls (cfg : Config) (urls : list string) : list call :=
  [ S3Glob (build_url cfg (input_path cfg));
    PatternFromFileSequence urls "time" (nitems_per_file cfg);
    CreateStorageConfig (temp_dir cfg) (build_url cfg (target_path cfg));
    XarrayZarrRecipe (inputs_per_chunk cfg) false (target_chunks cfg);
    IterChunks; PrepareTarget; IterChunks ] ++
  (StoreChunk <$> chunk_plan (inputs_per_chunk cfg) urls) ++ [FinalizeTarget].


(** Every call of [cs], made in order after the calls [made], returns
    normally. *)
Definition returns (engine : list call -> call -> option exn) (made cs : list call) : Prop :=
  forall before c after, cs = before ++ c :: after -> engine (made ++ before) c = None.

(** What a run of steps has done: the steps [done] of [ss], ending as [r]. *)
Definition ran (engine : list call -> call -> option exn) (ss : list step)
    (w : world) (r : result unit) (w' : world) (done : list step) : Prop :=
  done `prefix_of` ss /\
  calls w' = calls w ++ calls_of done /\
  stdout w' = stdout w ++ lines_of done /\
  heap w' = heap w /\
  match r with
  | Ok _ => done = ss /\ returns engine (calls w) (calls_of ss)
  | Raise e =>
      exists before c, done = before ++ [Call c] /\
        engine (calls w ++ calls_of before) c = Some e /\
        returns engine (calls w) (calls_of before)
  end.





(** ** Example frames and configurations *)

Section Examples.
Local Open Scope Q_scope.

(** The examples have attributes that are numbers already, so that [float] is
    never handed a text. *)
Definition plain_numbers : PyText := fun _ => None.

Definition grid_attrs (dx dy ll_lat ll_lon : float) : gmap string attr_value :=
  {[ "DX" := AFloat dx; "DY" := AFloat dy;
     "SOUTH_WEST_CORNER_LAT" := AFloat ll_lat;
     "SOUTH_WEST_CORNER_LON" := AFloat ll_lon ]}.

(** A two-dimensional coordinate variable of LIS output, here fully masked:
    every cell holds [fill]. *)
Definition masked (ns ew : nat) (units : string) (fill : float) : variable :=
  {| v_dims := ["north_south"; "east_west"]; v_shape := [ns; ew];
     v_data := replicate (ns * ew) fill;
     v_attrs := {[ "units" := AText units ]} |}.

Definition nodata : float := Ffin (-9999).

(** A frame of [ns] rows and [ew] columns, with its two variables [lat] and
    [lon], and the world that holds them. *)
Definition lis_world (ns ew : nat) (fill : float) : world :=
  {| heap := [masked ns ew "degrees_north" fill; masked ns ew "degrees_east" fill];
     stdout := []; calls := [] |}.

Definition lis_dataset (ns ew : nat) (attrs : gmap string attr_value) : Dataset :=
  {| ds_vars := [("lat", 0%nat); ("lon", 1%nat)];
     ds_coord_names := [];
     ds_dims := [("north_south", ns); ("east_west", ew)];
     ds_attrs := attrs |}.

(** The grid description of the scenario of the spec: a quarter of a degree,
    from -59.875 and -179.875. *)
Definition quarter_degree : gmap string attr_value :=
  grid_attrs (Ffin (1 # 4)) (Ffin (1 # 4)) (Ffin (-479 # 8)) (Ffin (-1439 # 8)).

(** A frame of two rows and three columns on the quarter-degree grid. *)
Definition small : Dataset := lis_dataset 2 3 quarter_degree.

(** The scenario of the spec: 600 rows, 1440 columns. *)
Definition scenario : Dataset := lis_dataset 600 1440 quarter_degree.

(** A grid of resolution 0.0004 (the nearest binary64). *)
Definition fine : Dataset :=
  lis_dataset 2 3 (grid_attrs (round64 (1 # 2500)) (round64 (1 # 2500))
                              (Ffin (-479 # 8)) (Ffin (-1439 # 8))).

(** A grid of unit step whose corner is [2^24]. *)
Definition far : Dataset :=
  lis_dataset 2 3 (grid_attrs (Ffin 1) (Ffin 1) (Ffin 16777216) (Ffin 16777216)).

Definition sample_config : Config :=
  {| bucket := "veda-data-store"; input_path := "LIS/*.nc"; target_path := "LIS/out.zarr";
     temp_dir := "/tmp/lis"; nitems_per_file := 1; inputs_per_chunk := 10;
     target_chunks := [("time", 10%nat)]; enable_logging := false |}.

Definition empty_world : world := {| heap := []; stdout := []; calls := [] |}.

(** A frame with a data variable beside [lat] and [lon], on the dimensions
    [time], [north_south] and [east_west]. *)
Definition soil_moisture : variable :=
  {| v_dims := ["time"; "north_south"; "east_west"]; v_shape := [1; 2; 3]%nat;
     v_data := replicate 6 (Ffin (1 # 4)%Q);
     v_attrs := {[ "units" := AText "m^3 m-3" ]} |}.

Definition soil_world : world :=
  {| heap := [masked 2 3 "degrees_north" nodata; masked 2 3 "degrees_east" nodata;
              soil_moisture];
     stdout := []; calls := [] |}.

Definition soil : Dataset :=
  {| ds_vars := [("lat", 0%nat); ("lon", 1%nat); ("SoilMoist_tavg", 2%nat)];
     ds_coord_names := [];
     ds_dims := [("time", 1%nat); ("north_south", 2%nat); ("east_west", 3%nat)];
     ds_attrs := quarter_degree |}.

(** A frame that has lost its [east_west] dimension, and one without the
    variable [lon]. *)
Definition no_east_west : Dataset :=
  {| ds_vars := [("lat", 0%nat); ("lon", 1%nat)];
     ds_coord_names := [];
     ds_dims := [("north_south", 2%nat)];
     ds_attrs := quarter_degree |}.

Definition no_lon : Dataset :=
  {| ds_vars := [("lat", 0%nat)];
     ds_coord_names := [];
     ds_dims := [("north_south", 2%nat); ("east_west", 3%nat)];
     ds_attrs := quarter_degree |}.

(** A frame that already has a variable [orig_lon]. *)
Definition kept_before : Dataset :=
  {| ds_vars := [("lat", 0%nat); ("lon", 1%nat); ("orig_lon", 1%nat)];
     ds_coord_names := [];
     ds_dims := [("north_south", 2%nat); ("east_west", 3%nat)];
     ds_attrs := quarter_degree |}.

(** The quarter-degree frame without its [DX]. *)
Definition no_dx : Dataset := lis_dataset 2 3 (delete "DX" quarter_degree).

(** A [float] that reads the text [0.25], and the quarter-degree frame with
    that text for [DX]. *)
Definition reads_decimal : PyText :=
  fun s => if String.eqb s "0.25" then Some (Ffin (1 # 4)) else None.

Definition text_dx : Dataset := lis_dataset 2 3 (<["DX" := AText "0.25"]> quarter_degree).

End Examples.

(** ** Example buckets and collaborators *)


(** A collaborator that fails on the first [store_chunk] and on nothing else. *)
Definition failing_store (made : list call) (c : call) : option exn :=
  match c with
  | StoreChunk ch => if Nat.eqb (chunk_index ch) 0 then Some (EngineError 1) else None
  | _ => None
  end.

(** A bucket that lists three files for every pattern. *)
Definition three_files (pattern : string) : list string :=
  ["veda-data-store/LIS/a.nc"; "veda-data-store/LIS/b.nc"; "veda-data-store/LIS/c.nc"]%string.

End Spec.
Export Spec.

(** * The reconstruction on the object store *)

Module Frames.

(** ** Runs of the monad *)

Lemma bind_ok {A B} (c : M A) (k : A -> M B) w a w1 :
  c w = (Ok a, w1) -> bind c k w = k a w1.
Proof. intros E. unfold bind. by rewrite E. Qed.

Lemma bind_raise {A B} (c : M A) (k : A -> M B) w e w1 :
  c w = (Raise e, w1) -> bind c k w = (Raise e, w1).
Proof. intros E. unfold bind. by rewrite E. Qed.

Lemma bind_ok_inv {A B} (c : M A) (k : A -> M B) w b w' :
  bind c k w = (Ok b, w') -> exists a w1, c w = (Ok a, w1) /\ k a w1 = (Ok b, w').
Proof.
  unfold bind. destruct (c w) as [[a|e] w1]; [eauto | discriminate].
Qed.

(** ** What an invocation leaves alone *)

Lemma grows_refl w : grows w w.
Proof. by split. Qed.

Lemma grows_trans w1 w2 w3 : grows w1 w2 -> grows w2 w3 -> grows w1 w3.
Proof.
  intros (P1 & S1 & C1) (P2 & S2 & C2). split; [by etrans | split; congruence].
Qed.

Lemma ret_allocates_only {A} (a : A) : allocates_only (ret a).
Proof. intros w. apply grows_refl. Qed.

Lemma raise_allocates_only {A} e : allocates_only (@raise A e).
Proof. intros w. apply grows_refl. Qed.

Lemma lift_allocates_only {A} (r : result A) : allocates_only (lift r).
Proof. intros w. apply grows_refl. Qed.

Lemma alloc_allocates_only v : allocates_only (alloc v).
Proof. intros w. split; [by apply prefix_app_r | done]. Qed.

Lemma deref_allocates_only l : allocates_only (deref l).
Proof. intros w. unfold deref. destruct (heap w !! l); apply grows_refl. Qed.

Lemma bind_allocates_only {A B} (c : M A) (k : A -> M B) :
  allocates_only c -> (forall a, allocates_only (k a)) -> allocates_only (bind c k).
Proof.
  intros Hc Hk w. unfold bind. specialize (Hc w).
  destruct (c w) as [[a|e] w1]; simpl in *; [|done].
  eapply grows_trans; [exact Hc | apply Hk].
Qed.

Create HintDb alloc_only.
#[export] Hint Resolve ret_allocates_only raise_allocates_only lift_allocates_only
  alloc_allocates_only deref_allocates_only : alloc_only.

Ltac alloc_only :=
  repeat first
    [ apply bind_allocates_only; [| intros ?]
    | progress eauto with alloc_only
    | match goal with
      | |- allocates_only (match ?x with _ => _ end) => destruct x
      | |- allocates_only (if ?b then _ else _) => destruct b
      | |- allocates_only (let _ := _ in _) => cbv zeta
      end ].

Lemma len_getitem_allocates_only ds key : allocates_only (len_getitem ds key).
Proof. unfold len_getitem. alloc_only. Qed.

Lemma rename_vars_allocates_only nd vars acc : allocates_only (rename_vars nd vars acc).
Proof.
  revert acc. induction vars as [|[k l] vars IH]; intros acc; simpl; alloc_only.
Qed.

Lemma rename_check_allocates_only keys ds : allocates_only (rename_check keys ds).
Proof. induction keys as [|k keys IH]; simpl; alloc_only. Qed.

#[export] Hint Resolve len_getitem_allocates_only rename_vars_allocates_only
  rename_check_allocates_only : alloc_only.

Lemma rename_allocates_only nd ds : allocates_only (rename nd ds).
Proof. unfold rename. alloc_only. Qed.

Lemma copy_vars_allocates_only vars : allocates_only (copy_vars vars).
Proof. induction vars as [|[k l] vars IH]; simpl; alloc_only. Qed.

Lemma assign_coord_allocates_only name arr ds : allocates_only (assign_coord name arr ds).
Proof. unfold assign_coord. alloc_only. Qed.

#[export] Hint Resolve rename_allocates_only copy_vars_allocates_only
  assign_coord_allocates_only : alloc_only.

Lemma assign_each_allocates_only coords ds : allocates_only (assign_each coords ds).
Proof.
  revert ds. induction coords as [|[name arr] coords IH]; intros ds; simpl; alloc_only.
Qed.

#[export] Hint Resolve assign_each_allocates_only : alloc_only.

Lemma assign_coords_allocates_only coords ds : allocates_only (assign_coords coords ds).
Proof. unfold assign_coords. alloc_only. Qed.

Lemma getattr_allocates_only ds name : allocates_only (getattr ds name).
Proof. unfold getattr. alloc_only. Qed.

Lemma get_attrs_allocates_only l : allocates_only (get_attrs l).
Proof. unfold get_attrs. alloc_only. Qed.

Lemma lift_ok_inv {A} (r : result A) w a w' :
  lift r w = (Ok a, w') -> r = Ok a /\ w' = w.
Proof. unfold lift. intros [= -> ->]. done. Qed.

Lemma len_getitem_world ds key w : (len_getitem ds key w).2 = w.
Proof.
  unfold len_getitem, bind, deref, ret, raise.
  destruct (dict_get key (ds_vars ds)) as [l|].
  - destruct (heap w !! l) as [v|]; [|done]. by destruct (v_shape v).
  - by destruct (dict_get key (ds_dims ds)).
Qed.

Lemma len_getitem_ok_inv ds key w n w' :
  len_getitem ds key w = (Ok n, w') -> (len_getitem ds key w).1 = Ok n /\ w' = w.
Proof.
  intros E. split; [by rewrite E|]. by rewrite <- (len_getitem_world ds key w), E.
Qed.

(** Dict facts *)
Lemma dict_get_set_eq {V} k (v : V) d : dict_get k (dict_set k v d) = Some v.
Proof.
  induction d as [|[k' v'] d IH]; simpl.
  - by rewrite String.eqb_refl.
  - destruct (String.eqb k k') eqn:E; simpl; rewrite ?String.eqb_refl, ?E; done.
Qed.

Lemma dict_get_set_ne {V} k k' (v : V) d :
  k <> k' -> dict_get k (dict_set k' v d) = dict_get k d.
Proof.
  intros Hne. induction d as [|[k1 v1] d IH]; simpl.
  - destruct (String.eqb_spec k k'); done.
  - destruct (String.eqb_spec k' k1) as [->|]; simpl.
    + destruct (String.eqb_spec k k1); done.
    + destruct (String.eqb_spec k k1); done.
Qed.

Lemma dict_set_Forall {V} (P : string * V -> Prop) k v d :
  P (k, v) -> Forall P d -> Forall P (dict_set k v d).
Proof.
  intros Hk. induction 1 as [|[k' v'] d Hx Hd IH]; simpl.
  - by repeat constructor.
  - destruct (String.eqb k k'); constructor; done.
Qed.

Lemma dict_get_Forall {V} (P : string * V -> Prop) k v d :
  Forall P d -> dict_get k d = Some v -> P (k, v).
Proof.
  induction 1 as [|[k' v'] d Hx Hd IH]; simpl; [done|].
  destruct (String.eqb_spec k k') as [->|]; [by intros [= ->] | done].
Qed.

Lemma grows_length w w' : grows w w' -> (length (heap w) <= length (heap w'))%nat.
Proof. intros (P & _). by apply prefix_length. Qed.

Lemma grows_lookup w w' l v : grows w w' -> heap w !! l = Some v -> heap w' !! l = Some v.
Proof. intros (P & _) E. by eapply prefix_lookup_Some. Qed.

Lemma copy_vars_fresh vars w r w' :
  copy_vars vars w = (Ok r, w') -> fresh_from (length (heap w)) r.
Proof.
  revert w r w'. induction vars as [|[k l] vars IH]; intros w r w'; simpl.
  - intros [= <- <-]. constructor.
  - intros E.
    apply bind_ok_inv in E as (v & w1 & E1 & E).
    apply bind_ok_inv in E as (l' & w2 & E2 & E).
    apply bind_ok_inv in E as (rest & w3 & E3 & E).
    injection E as <- <-.
    pose proof (deref_allocates_only l w) as G1. rewrite E1 in G1.
    injection E2 as <- <-.
    constructor; simpl.
    + by apply grows_length in G1.
    + apply IH in E3. simpl in E3. rewrite length_app in E3. simpl in E3.
      eapply Forall_impl; [exact E3|]. intros [? ?]; simpl.
      apply grows_length in G1. simpl in *. lia.
Qed.

Lemma assign_coord_ok_inv name arr ds w ds' w' :
  assign_coord name arr ds w = (Ok ds', w') ->
  ds_vars ds' = dict_set name (length (heap w)) (ds_vars ds) /\
  heap w' = heap w ++ [coord_var name arr ∅] /\
  stdout w' = stdout w /\ calls w' = calls w.
Proof.
  unfold assign_coord. intros E.
  apply bind_ok_inv in E as (dims & w1 & E1 & E).
  assert (w1 = w) as ->.
  { destruct (dict_get name (ds_dims ds)) as [n'|].
    - destruct (length arr =? n')%nat; [by injection E1 | discriminate].
    - by injection E1. }
  apply bind_ok_inv in E as (l & w2 & E2 & E).
  injection E2 as <- <-. injection E as <- <-. done.
Qed.

Lemma assign_coords_two_inv n1 a1 n2 a2 ds w ds' w' :
  n1 <> n2 ->
  assign_coords [(n1, a1); (n2, a2)] ds w = (Ok ds', w') ->
  exists l1 l2,
    dict_get n1 (ds_vars ds') = Some l1 /\ dict_get n2 (ds_vars ds') = Some l2 /\
    heap w' !! l1 = Some (coord_var n1 a1 ∅) /\
    heap w' !! l2 = Some (coord_var n2 a2 ∅) /\
    l1 <> l2 /\
    fresh_from (length (heap w)) (ds_vars ds') /\
    grows w w'.
Proof.
  intros Hne E.
  pose proof (assign_coords_allocates_only [(n1, a1); (n2, a2)] ds w) as G.
  rewrite E in G. simpl in G.
  unfold assign_coords in E.
  apply bind_ok_inv in E as (vars & w1 & E1 & E).
  pose proof (copy_vars_fresh _ _ _ _ E1) as F1.
  pose proof (copy_vars_allocates_only (ds_vars ds) w) as G1. rewrite E1 in G1. simpl in G1.
  simpl in E.
  apply bind_ok_inv in E as (ds1 & w2 & E2 & E).
  apply bind_ok_inv in E as (ds2 & w3 & E3 & E).
  injection E as <- <-.
  apply assign_coord_ok_inv in E2 as (V2 & H2 & _ & _).
  apply assign_coord_ok_inv in E3 as (V3 & H3 & _ & _).
  simpl in V2.
  exists (length (heap w1)), (length (heap w2)).
  rewrite V3, V2.
  split; [by rewrite dict_get_set_ne, dict_get_set_eq|].
  split; [by rewrite dict_get_set_eq|].
  split.
  { rewrite H3, lookup_app_l by (rewrite H2, length_app; simpl; lia).
    rewrite H2. by apply list_lookup_middle. }
  split.
  { rewrite H3. by apply list_lookup_middle. }
  split.
  { rewrite H2, length_app. simpl. lia. }
  split; [|done].
  apply grows_length in G1.
  apply dict_set_Forall; [simpl; rewrite H2, length_app; simpl; lia|].
  apply dict_set_Forall; [simpl; lia|done].
Qed.

Lemma getattr_var ds name l w :
  dict_get name (ds_vars ds) = Some l -> getattr ds name w = (Ok l, w).
Proof. intros E. unfold getattr. by rewrite E. Qed.

Lemma getattr_fresh n ds name w l w' :
  fresh_from n (ds_vars ds) -> (n <= length (heap w))%nat ->
  getattr ds name w = (Ok l, w') -> (n <= l)%nat.
Proof.
  intros F Hn. unfold getattr.
  destruct (dict_get name (ds_vars ds)) as [l0|] eqn:E.
  - intros [= <- <-]. by apply (dict_get_Forall _ _ _ _ F E).
  - destruct (dict_get name (ds_dims ds)); [|discriminate].
    by intros [= <- <-].
Qed.

Lemma get_attrs_ok_inv l w a w' :
  get_attrs l w = (Ok a, w') ->
  w' = w /\ exists v, heap w !! l = Some v /\ a = v_attrs v.
Proof.
  unfold get_attrs, bind, deref, ret.
  destruct (heap w !! l) as [v|]; [|discriminate].
  intros [= <- <-]. eauto.
Qed.

Lemma set_attrs_ok_inv l a w u w' :
  set_attrs l a w = (Ok u, w') ->
  exists v, heap w !! l = Some v /\
    heap w' = <[l := with_attrs v a]> (heap w) /\
    stdout w' = stdout w /\ calls w' = calls w.
Proof.
  unfold set_attrs. destruct (heap w !! l) as [v|]; [|discriminate].
  intros [= <- <-]. by exists v.
Qed.

Lemma set_attrs_grows w0 l a w :
  grows w0 w -> (length (heap w0) <= l)%nat -> grows w0 (set_attrs l a w).2.
Proof.
  intros (P & S & C) Hl. unfold set_attrs.
  destruct (heap w !! l) as [v|]; simpl; [|by split].
  split; [|by split].
  destruct P as [hs ->]. simpl.
  rewrite insert_app_r_alt by done. by apply prefix_app_r.
Qed.

Lemma bind_grows w0 {A B} (c : M A) (k : A -> M B) w :
  grows w0 w -> allocates_only c ->
  (forall a w1, c w = (Ok a, w1) -> grows w0 w1 -> grows w0 (k a w1).2) ->
  grows w0 (bind c k w).2.
Proof.
  intros G Hc Hk. unfold bind. specialize (Hc w).
  destruct (c w) as [[a|e] w1] eqn:E; simpl in *.
  - apply Hk; [done|]. by eapply grows_trans.
  - by eapply grows_trans.
Qed.

Lemma bind_set_attrs_grows w0 {B} l a (k : unit -> M B) w :
  grows w0 w -> (length (heap w0) <= l)%nat ->
  (forall u w1, grows w0 w1 -> grows w0 (k u w1).2) ->
  grows w0 (bind (set_attrs l a) k w).2.
Proof.
  intros G Hl Hk. unfold bind.
  pose proof (set_attrs_grows w0 l a w G Hl) as G1.
  destruct (set_attrs l a w) as [[u|e] w1]; simpl in *; [by apply Hk | done].
Qed.

Section Reconstruct.
Context `{PyText}.

(** The reconstruction changes no object that existed before it, prints
    nothing and asks nothing of a collaborator, whatever its outcome. *)
Lemma add_latlon_coords_grows ds w : grows w (add_latlon_coords ds w).2.
Proof.
  unfold add_latlon_coords.
  do 4 (apply bind_grows; [apply grows_refl || done | alloc_only | intros ? ? _ ?]).
  do 2 (apply bind_grows; [done | apply len_getitem_allocates_only | intros ? ? _ ?]).
  do 4 (apply bind_grows; [done | alloc_only | intros ? ? _ ?]).
  do 2 (apply bind_grows; [done | apply rename_allocates_only | intros ? ? _ ?]).
  apply bind_grows; [done | apply assign_coords_allocates_only |].
  intros dsC wC EC GC.
  match type of EC with assign_coords _ _ ?w2 = _ => assert (grows w w2) as GB by done end.
  apply assign_coords_two_inv in EC as (l1 & l2 & _ & _ & _ & _ & _ & F & _); [|done].
  assert (fresh_from (length (heap w)) (ds_vars dsC)) as F0.
  { eapply Forall_impl; [exact F|]. intros [? ?]; simpl. apply grows_length in GB. lia. }
  apply bind_grows; [done | apply getattr_allocates_only | intros src wD _ GD].
  apply bind_grows; [done | apply get_attrs_allocates_only | intros atr wE _ GE].
  apply bind_grows; [done | apply getattr_allocates_only | intros dst wF EF GF].
  apply bind_set_attrs_grows; [done | | intros _ wG GG].
  { eapply getattr_fresh; [exact F0 | | exact EF]. by apply grows_length. }
  apply bind_grows; [done | apply getattr_allocates_only | intros src' wH _ GH].
  apply bind_grows; [done | apply get_attrs_allocates_only | intros atr' wI _ GI].
  apply bind_grows; [done | apply getattr_allocates_only | intros dst' wJ EJ GJ].
  apply bind_set_attrs_grows; [done | | intros _ wK GK].
  { eapply getattr_fresh; [exact F0 | | exact EJ]. by apply grows_length. }
  done.
Qed.

End Reconstruct.

Lemma with_attrs_coord_var name arr a b :
  with_attrs (coord_var name arr a) b = coord_var name arr b.
Proof. done. Qed.

(** The copy of the attributes at the end (lines 135-136), on a Dataset that
    holds the two new coordinates. *)
Lemma copy_attrs_inv (ds : Dataset) name_src name_dst l arr a0 w (k : unit -> M Dataset) r w' :
  dict_get name_dst (ds_vars ds) = Some l ->
  heap w !! l = Some (coord_var name_dst arr a0) ->
  (let* src := getattr ds name_src in
   let* a := get_attrs src in
   let* dst := getattr ds name_dst in
   let* u := set_attrs dst a in
   k u) w = (Ok r, w') ->
  exists a w1,
    k tt w1 = (Ok r, w') /\
    heap w1 !! l = Some (coord_var name_dst arr a) /\
    (forall l' v, l' <> l -> heap w !! l' = Some v -> heap w1 !! l' = Some v).
Proof.
  intros Hl Hv E.
  apply bind_ok_inv in E as (src & w1 & E1 & E).
  pose proof (getattr_allocates_only ds name_src w) as G1. rewrite E1 in G1. simpl in G1.
  apply bind_ok_inv in E as (a & w2 & E2 & E).
  apply get_attrs_ok_inv in E2 as (-> & _).
  apply bind_ok_inv in E as (dst & w2 & E2 & E).
  rewrite (getattr_var _ _ _ _ Hl) in E2. injection E2 as <- <-.
  apply bind_ok_inv in E as ([] & w3 & E3 & E).
  apply set_attrs_ok_inv in E3 as (v & Ev & Hh & _).
  rewrite (grows_lookup _ _ _ _ G1 Hv) in Ev. injection Ev as <-.
  exists a, w3. split; [done|]. rewrite Hh. split.
  - rewrite list_lookup_insert_eq; [done|].
    apply lookup_lt_Some with (x := coord_var name_dst arr a0).
    by eapply grows_lookup.
  - intros l' v' Hne Ev'. rewrite list_lookup_insert_ne by done.
    by eapply grows_lookup.
Qed.

Lemma grid_scalar_ok `{PyText} (ds : Dataset) key a x :
  getitem (ds_attrs ds) key = Ok a -> float_ a = Ok x ->
  grid_scalar ds key = Ok (Py.round x 3).
Proof. intros E1 E2. unfold grid_scalar. by rewrite E1, E2. Qed.

Ltac read_scalar E Hx :=
  let a := fresh "a" in
  let x := fresh "x" in
  let w1 := fresh "w" in
  let E1 := fresh "E" in
  let E2 := fresh "E" in
  apply bind_ok_inv in E as (a & w1 & E1 & E);
  apply lift_ok_inv in E1 as (E1 & ->);
  apply bind_ok_inv in E as (x & w1 & E2 & E);
  apply lift_ok_inv in E2 as (E2 & ->);
  pose proof (grid_scalar_ok _ _ _ _ E1 E2) as Hx;
  clear E1 E2.

Section Reconstruct.
Context `{PyText}.

(** What a successful reconstruction has read and made. *)
Lemma add_latlon_coords_ok_inv ds w ds' w' :
  add_latlon_coords ds w = (Ok ds', w') ->
  exists dx dy ll_lat ll_lon ew_len ns_len a_lat a_lon,
    grid_scalar ds "DX" = Ok dx /\
    grid_scalar ds "DY" = Ok dy /\
    (len_getitem ds "east_west" w).1 = Ok ew_len /\
    (len_getitem ds "north_south" w).1 = Ok ns_len /\
    grid_scalar ds "SOUTH_WEST_CORNER_LAT" = Ok ll_lat /\
    grid_scalar ds "SOUTH_WEST_CORNER_LON" = Ok ll_lon /\
    var_of w' ds' "lat" = Some (coord_var "lat" (axis ll_lat dy ns_len) a_lat) /\
    var_of w' ds' "lon" = Some (coord_var "lon" (axis ll_lon dx ew_len) a_lon).
Proof.
  unfold add_latlon_coords. intros E.
  read_scalar E Hdx.
  read_scalar E Hdy.
  apply bind_ok_inv in E as (ew_len & w1 & Hew & E).
  apply len_getitem_ok_inv in Hew as (Hew & ->).
  apply bind_ok_inv in E as (ns_len & w1 & Hns & E).
  apply len_getitem_ok_inv in Hns as (Hns & ->).
  read_scalar E Hlat.
  read_scalar E Hlon.
  apply bind_ok_inv in E as (ds1 & w1 & _ & E).
  apply bind_ok_inv in E as (ds2 & w2 & _ & E).
  apply bind_ok_inv in E as (ds3 & w3 & E3 & E).
  apply assign_coords_two_inv in E3 as (l1 & l2 & Hl1 & Hl2 & Hv1 & Hv2 & Hne & _); [|done].
  eapply copy_attrs_inv in E as (a_lon & w4 & E & Hv2' & Hk); [|exact Hl2|exact Hv2].
  apply Hk in Hv1; [|done].
  eapply copy_attrs_inv in E as (a_lat & w5 & E & Hv1' & Hk'); [|exact Hl1|exact Hv1].
  apply Hk' in Hv2'; [|done].
  injection E as <- <-.
  do 4 eexists. exists ew_len, ns_len, a_lat, a_lon.
  unfold var_of. rewrite Hl1, Hl2.
  repeat split; done.
Qed.

End Reconstruct.

(** ** Dicts: more facts *)

Lemma dict_get_app_l {V} k (v : V) d1 d2 :
  dict_get k d1 = Some v -> dict_get k (d1 ++ d2) = Some v.
Proof.
  induction d1 as [|[k' v'] d1 IH]; simpl; [done|].
  by destruct (String.eqb k k').
Qed.

Lemma dict_get_None {V} k (d : dict V) : dict_get k d = None <-> k ∉ d.*1.
Proof.
  induction d as [|[k' v'] d IH]; simpl.
  - split; [intros _; apply not_elem_of_nil | done].
  - rewrite not_elem_of_cons. destruct (String.eqb_spec k k') as [->|Hne].
    + split; [done | intros [? _]; done].
    + rewrite IH. tauto.
Qed.

Lemma dict_mem_elem_of {V} k (d : dict V) : dict_mem k d = true <-> k ∈ d.*1.
Proof.
  unfold dict_mem. destruct (dict_get k d) eqn:E.
  - split; [intros _|done]. destruct (decide (k ∈ d.*1)) as [|Hn]; [done|].
    apply dict_get_None in Hn. congruence.
  - apply dict_get_None in E. split; [done | intros; done].
Qed.

Lemma dict_get_lookup {V} k (v : V) d :
  dict_get k d = Some v -> exists i, d !! i = Some (k, v).
Proof.
  induction d as [|[k' v'] d IH]; simpl; [done|].
  destruct (String.eqb_spec k k') as [->|Hne].
  - intros [= ->]. by exists 0%nat.
  - intros E. destruct (IH E) as [i Hi]. by exists (S i).
Qed.

Lemma dict_get_NoDup {V} k (v : V) d i :
  NoDup d.*1 -> d !! i = Some (k, v) -> dict_get k d = Some v.
Proof.
  revert i. induction d as [|[k' v'] d IH]; intros i; simpl; [done|].
  rewrite NoDup_cons. intros [Hk Hd]. destruct i as [|i]; simpl.
  - intros [= -> ->]. by rewrite String.eqb_refl.
  - intros Hi. destruct (String.eqb_spec k k') as [->|Hne].
    + exfalso. apply Hk. apply list_elem_of_lookup. exists i.
      by rewrite list_lookup_fmap, Hi.
    + by eapply IH.
Qed.

Lemma dict_set_keys {V} k (v : V) d :
  (dict_set k v d).*1 = if dict_mem k d then d.*1 else d.*1 ++ [k].
Proof.
  unfold dict_mem. induction d as [|[k' v'] d IH]; [done|].
  cbn [dict_set dict_get].
  destruct (String.eqb_spec k k') as [->|Hne]; [done|].
  rewrite !fmap_cons, IH. by destruct (dict_get k d).
Qed.

Lemma dict_set_NoDup {V} k (v : V) d : NoDup d.*1 -> NoDup (dict_set k v d).*1.
Proof.
  intros Hd. rewrite dict_set_keys. destruct (dict_mem k d) eqn:E; [done|].
  apply NoDup_app. split; [done|]. split; [|apply NoDup_singleton].
  intros x Hx Hx'. apply list_elem_of_singleton in Hx' as ->.
  apply dict_mem_elem_of in Hx. congruence.
Qed.

Lemma rename_dims_fold_keys nd dims acc :
  NoDup acc.*1 ->
  let r := fold_left (fun (acc : dict nat) (kn : string * nat) => dict_set (renamed nd kn.1) kn.2 acc) dims acc in
  NoDup r.*1 /\ (forall k, k ∈ r.*1 -> k ∈ acc.*1 \/ k ∈ renamed nd <$> dims.*1).
Proof.
  revert acc. induction dims as [|[k n] dims IH]; intros acc Hacc; simpl.
  - split; [done | auto].
  - destruct (IH (dict_set (renamed nd k) n acc)) as [N S]; [by apply dict_set_NoDup|].
    split; [done|]. intros k' Hk'. apply S in Hk' as [Hk'|Hk'].
    + rewrite dict_set_keys in Hk'. destruct (dict_mem (renamed nd k) acc); [by left|].
      apply elem_of_app in Hk' as [?|Hk']; [by left|].
      apply list_elem_of_singleton in Hk' as ->. right. by left.
    + right. by right.
Qed.

Lemma rename_dims_fold_get nd dims acc s t :
  NoDup dims.*1 ->
  renamed nd s = t ->
  (forall k, k ∈ dims.*1 -> renamed nd k = t -> k = s) ->
  dict_get t (fold_left (fun (acc : dict nat) (kn : string * nat) => dict_set (renamed nd kn.1) kn.2 acc) dims acc) =
    match dict_get s dims with
    | Some n => Some n
    | None => dict_get t acc
    end.
Proof.
  intros Hd Hs. revert acc. induction dims as [|[k n] dims IH]; intros acc Hu; simpl; [done|].
  apply NoDup_cons in Hd as [Hk Hd]. simpl in Hu.
  rewrite IH; [|done|intros; apply Hu; [by right|done]].
  destruct (String.eqb_spec s k) as [->|Hne].
  - apply dict_get_None in Hk. simpl in Hk. rewrite Hk, Hs. apply dict_get_set_eq.
  - destruct (dict_get s dims); [done|].
    apply dict_get_set_ne. intros Ht. apply Hne. symmetry. apply Hu; [by left|by symmetry].
Qed.

Lemma rename_dims_get nd dims s t :
  NoDup dims.*1 -> renamed nd s = t ->
  (forall k, k ∈ dims.*1 -> renamed nd k = t -> k = s) ->
  dict_get t (rename_dims nd dims) = dict_get s dims.
Proof.
  intros. unfold rename_dims. erewrite rename_dims_fold_get by done.
  by destruct (dict_get s dims).
Qed.

Lemma rename_dims_keys nd dims :
  NoDup (rename_dims nd dims).*1 /\
  (forall k, k ∈ (rename_dims nd dims).*1 -> k ∈ renamed nd <$> dims.*1).
Proof.
  destruct (rename_dims_fold_keys nd dims []) as [N S]; [constructor|].
  split; [done|]. intros k Hk. apply S in Hk as [Hk|Hk]; [|done].
  by apply elem_of_nil in Hk.
Qed.

Lemma valid_holds w ds : valid w ds -> exists vals, holds w (ds_vars ds) vals.
Proof.
  unfold valid, holds. induction 1 as [|[k l] vars [v Hv] _ [vals IH]].
  - exists []. constructor.
  - exists (v :: vals). by constructor.
Qed.

Lemma holds_valid w ds vals : holds w (ds_vars ds) vals -> valid w ds.
Proof.
  unfold valid, holds. induction 1; constructor; eauto.
Qed.

Lemma holds_grows w w' vars vals : grows w w' -> holds w vars vals -> holds w' vars vals.
Proof.
  intros G Hh. unfold holds. eapply Forall2_impl; [exact Hh|].
  intros [k l] v. by apply grows_lookup.
Qed.

Lemma holds_zip_seq w h names vs :
  heap w = h ++ vs -> length names = length vs ->
  holds w (zip names (seq (length h) (length vs))) vs.
Proof.
  unfold holds. intros ->. revert h names.
  induction vs as [|v vs IH]; intros h names Hlen; destruct names as [|k names];
    simpl in *; try done.
  constructor; simpl.
  - by apply list_lookup_middle.
  - specialize (IH (h ++ [v]) names). rewrite length_app in IH. simpl in IH.
    rewrite Nat.add_1_r in IH. rewrite <- app_assoc in IH. apply IH. lia.
Qed.

Lemma holds_var_of w vars vals ds k v :
  ds_vars ds = vars -> holds w vars vals ->
  var_of w ds k = Some v ->
  exists i l, vars !! i = Some (k, l) /\ vals !! i = Some v.
Proof.
  intros <- Hh. unfold var_of.
  destruct (dict_get k (ds_vars ds)) as [l|] eqn:E; [|done].
  intros Hv. apply dict_get_lookup in E as [i Hi].
  exists i, l. split; [done|].
  destruct (Forall2_lookup_l _ _ _ _ _ Hh Hi) as (v' & Hv' & Hl). simpl in Hl. congruence.
Qed.

Lemma var_of_zip_seq w ds names n m i k v :
  ds_vars ds = zip names (seq n m) ->
  length names = m ->
  NoDup names ->
  names !! i = Some k -> heap w !! (n + i)%nat = Some v ->
  var_of w ds k = Some v.
Proof.
  intros Hvars Hlen Hnd Hi Hv. unfold var_of. rewrite Hvars.
  assert (zip names (seq n m) !! i = Some (k, (n + i)%nat)) as Hz.
  { apply lookup_zip_with_Some. exists k, (n + i)%nat. split; [done|]. split; [done|].
    apply lookup_seq. split; [done|]. apply lookup_lt_Some in Hi. lia. }
  rewrite (dict_get_NoDup k (n + i)%nat _ i); [done| |done].
  rewrite fst_zip; [done|]. rewrite length_seq. lia.
Qed.

(** ** [rename] *)

Lemma rename_vars_run nd vars vals acc w :
  holds w vars vals ->
  NoDup (acc.*1 ++ (renamed nd <$> vars.*1)) ->
  rename_vars nd vars acc w =
    (Ok (acc ++ zip (renamed nd <$> vars.*1) (seq (length (heap w)) (length vars))),
     with_heap w (heap w ++ (var_rename nd <$> vals))).
Proof.
  revert vals acc w. unfold holds.
  induction vars as [|[k l] vars IH]; intros vals acc w Hh Hnd.
  - apply Forall2_nil_inv_l in Hh as ->. simpl. rewrite !app_nil_r. by destruct w.
  - apply Forall2_cons_inv_l in Hh as (v & vals' & Hv & Hh & ->). simpl in Hv.
    cbn [rename_vars].
    erewrite bind_ok; [|unfold deref; by rewrite Hv].
    erewrite bind_ok; [|reflexivity].
    rewrite fmap_cons in Hnd. simpl in Hnd.
    assert (dict_mem (renamed nd k) acc = false) as ->.
    { apply not_true_is_false. rewrite dict_mem_elem_of. intros Hin.
      apply NoDup_app in Hnd as (_ & Hd & _). apply (Hd _ Hin). by left. }
    rewrite IH with (vals := vals').
    + simpl. rewrite length_app. simpl. rewrite Nat.add_1_r.
      rewrite <- !app_assoc. done.
    + eapply Forall2_impl; [exact Hh|]. intros [k' l'] v' Hl. simpl in *.
      by apply lookup_app_l_Some.
    + rewrite fmap_app. simpl. rewrite <- app_assoc. done.
Qed.

Lemma rename_vars_ok_nodup nd vars acc w r w' :
  rename_vars nd vars acc w = (Ok r, w') ->
  NoDup acc.*1 -> NoDup (acc.*1 ++ (renamed nd <$> vars.*1)).
Proof.
  revert acc w. induction vars as [|[k l] vars IH]; intros acc w E Hacc.
  - simpl. by rewrite app_nil_r.
  - cbn [rename_vars] in E.
    apply bind_ok_inv in E as (v & w1 & _ & E).
    apply bind_ok_inv in E as (l' & w2 & _ & E).
    destruct (dict_mem (renamed nd k) acc) eqn:Hm; [discriminate|].
    apply IH in E.
    + rewrite fmap_app, <- app_assoc in E. done.
    + rewrite fmap_app. apply NoDup_app. split; [done|]. split; [|apply NoDup_singleton].
      intros x Hx Hx'. apply list_elem_of_singleton in Hx' as ->.
      apply dict_mem_elem_of in Hx. simpl in Hx. congruence.
Qed.

Lemma rename_check_run keys ds w :
  Forall (fun k => k ∈ (ds_vars ds).*1 \/ k ∈ (ds_dims ds).*1) keys ->
  rename_check keys ds w = (Ok tt, w).
Proof.
  induction 1 as [|k keys Hk _ IH]; simpl; [done|].
  assert (dict_mem k (ds_vars ds) || dict_mem k (ds_dims ds) = true) as ->; [|done].
  apply orb_true_iff. rewrite !dict_mem_elem_of. done.
Qed.

Lemma rename_check_ok_inv keys ds w u w' :
  rename_check keys ds w = (Ok u, w') ->
  w' = w /\ Forall (fun k => k ∈ (ds_vars ds).*1 \/ k ∈ (ds_dims ds).*1) keys.
Proof.
  induction keys as [|k keys IH]; simpl.
  - intros [= <- <-]. by split.
  - destruct (dict_mem k (ds_vars ds) || dict_mem k (ds_dims ds)) eqn:E; [|discriminate].
    intros E'. destruct (IH E') as [-> F]. split; [done|]. constructor; [|done].
    apply orb_true_iff in E. by rewrite !dict_mem_elem_of in E.
Qed.

Lemma rename_run nd ds w :
  valid w ds -> can_rename nd ds ->
  exists ds' w', rename nd ds w = (Ok ds', w') /\ renamed_to nd w ds w' ds'.
Proof.
  intros Hv [Hnd Hck]. destruct (valid_holds _ _ Hv) as [vals Hh].
  pose proof (Forall2_length _ _ _ Hh) as Hlen.
  eexists _, _. split.
  { unfold rename. erewrite bind_ok; [|by apply rename_check_run].
    erewrite bind_ok; [|by apply rename_vars_run]. reflexivity. }
  simpl.
  assert (length (renamed nd <$> (ds_vars ds).*1) = length (var_rename nd <$> vals)) as Hl2.
  { by rewrite !length_fmap. }
  assert (length (ds_vars ds) = length (var_rename nd <$> vals)) as Hl3.
  { by rewrite length_fmap. }
  rewrite Hl3.
  split; [|split; [|split; [|split; [done|split; [done|]]]]].
  - simpl. rewrite fst_zip; [done|]. rewrite length_seq. lia.
  - eapply holds_valid. simpl. by apply holds_zip_seq.
  - intros k v Hk.
    destruct (holds_var_of _ _ _ _ _ _ eq_refl Hh Hk) as (i & l & Hi & Hvi).
    eapply var_of_zip_seq with (i := i); cbn [ds_vars heap with_heap]; [reflexivity|done|done| |].
    + by rewrite !list_lookup_fmap, Hi.
    + rewrite lookup_app_r by lia.
      replace (length (heap w) + i - length (heap w))%nat with i by lia.
      by rewrite list_lookup_fmap, Hvi.
  - split; [by apply prefix_app_r | done].
Qed.

Lemma rename_ok_inv nd ds w ds' w' :
  valid w ds -> rename nd ds w = (Ok ds', w') ->
  can_rename nd ds /\ renamed_to nd w ds w' ds'.
Proof.
  intros Hv E.
  assert (can_rename nd ds) as Hc.
  { unfold rename in E.
    apply bind_ok_inv in E as (u & w1 & E1 & E).
    apply rename_check_ok_inv in E1 as (-> & Hck).
    apply bind_ok_inv in E as (vars & w2 & E2 & _).
    apply rename_vars_ok_nodup in E2; [|constructor]. done. }
  split; [done|].
  destruct (rename_run nd ds w Hv Hc) as (ds1 & w1 & E1 & P).
  rewrite E in E1. by injection E1 as <- <-.
Qed.

Lemma dict_get_elem_of {V} k (v : V) d : dict_get k d = Some v -> k ∈ d.*1.
Proof.
  intros E. destruct (decide (k ∈ d.*1)) as [|Hn]; [done|].
  apply dict_get_None in Hn. congruence.
Qed.

Lemma var_of_elem_of w ds k v : var_of w ds k = Some v -> k ∈ (ds_vars ds).*1.
Proof.
  unfold var_of. destruct (dict_get k (ds_vars ds)) eqn:E; [|done].
  intros _. by eapply dict_get_elem_of.
Qed.

Lemma valid_var_of w ds k : valid w ds -> k ∈ (ds_vars ds).*1 -> is_Some (var_of w ds k).
Proof.
  intros Hv Hk. unfold var_of.
  destruct (dict_get k (ds_vars ds)) as [l|] eqn:E.
  - apply (dict_get_Forall _ _ _ _ Hv E).
  - apply dict_get_None in E. done.
Qed.

(** ** [assign_coords] *)

Lemma copy_vars_run vars vals w :
  holds w vars vals ->
  copy_vars vars w =
    (Ok (zip vars.*1 (seq (length (heap w)) (length vars))), with_heap w (heap w ++ vals)).
Proof.
  revert vals w. unfold holds.
  induction vars as [|[k l] vars IH]; intros vals w Hh.
  - apply Forall2_nil_inv_l in Hh as ->. simpl. rewrite app_nil_r. by destruct w.
  - apply Forall2_cons_inv_l in Hh as (v & vals' & Hv & Hh & ->). simpl in Hv.
    cbn [copy_vars].
    erewrite bind_ok; [|unfold deref; by rewrite Hv].
    erewrite bind_ok; [|reflexivity].
    erewrite bind_ok; [|apply IH with (vals := vals')].
    + simpl. rewrite length_app. simpl. rewrite Nat.add_1_r, <- app_assoc. done.
    + eapply Forall2_impl; [exact Hh|]. intros [k' l'] v' Hl. simpl in *.
      by apply lookup_app_l_Some.
Qed.

Lemma assign_coord_run name arr ds w :
  size_ok (ds_dims ds) name arr ->
  exists ds', assign_coord name arr ds w =
                (Ok ds', with_heap w (heap w ++ [coord_var name arr ∅])) /\
    ds_vars ds' = dict_set name (length (heap w)) (ds_vars ds) /\
    ds_attrs ds' = ds_attrs ds /\
    (forall k, k <> name -> dict_get k (ds_dims ds') = dict_get k (ds_dims ds)).
Proof.
  intros Hs. unfold assign_coord.
  destruct (dict_get name (ds_dims ds)) as [n'|] eqn:E.
  - pose proof (Hs n' E) as <-. rewrite Nat.eqb_refl.
    eexists. split; [reflexivity|]. done.
  - eexists. split; [reflexivity|]. simpl. split; [done|]. split; [done|].
    intros k Hk. by apply dict_get_set_ne.
Qed.

Lemma assign_coords_run n1 a1 n2 a2 ds w :
  n1 <> n2 ->
  valid w ds -> NoDup (ds_vars ds).*1 ->
  size_ok (ds_dims ds) n1 a1 -> size_ok (ds_dims ds) n2 a2 ->
  exists ds' w', assign_coords [(n1, a1); (n2, a2)] ds w = (Ok ds', w') /\
    assigned_to n1 a1 n2 a2 w ds w' ds'.
Proof.
  intros Hne Hv Hnd Hs1 Hs2. destruct (valid_holds _ _ Hv) as [vals Hh].
  pose proof (Forall2_length _ _ _ Hh) as Hlen.
  unfold assign_coords.
  erewrite bind_ok; [|by apply copy_vars_run].
  cbn [assign_each].
  set (ds0 := {| ds_vars := zip (ds_vars ds).*1 (seq (length (heap w)) (length (ds_vars ds)));
                 ds_coord_names := ds_coord_names ds; ds_dims := ds_dims ds;
                 ds_attrs := ds_attrs ds |}).
  set (w0 := with_heap w (heap w ++ vals)).
  destruct (assign_coord_run n1 a1 ds0 w0 Hs1) as (ds1 & E1 & V1 & A1 & D1).
  erewrite bind_ok; [|exact E1].
  assert (size_ok (ds_dims ds1) n2 a2) as Hs2'.
  { intros n. rewrite D1 by done. apply Hs2. }
  set (w1 := with_heap w0 (heap w0 ++ [coord_var n1 a1 ∅])) in *.
  destruct (assign_coord_run n2 a2 ds1 w1 Hs2') as (ds2 & E2 & V2 & A2 & D2).
  erewrite bind_ok; [|exact E2].
  eexists _, _. split; [reflexivity|].
  assert (forall k, var_of w0 ds0 k = var_of w ds k) as Hcopy.
  { intros k. destruct (var_of w ds k) as [v|] eqn:E.
    - destruct (holds_var_of _ _ _ _ _ _ eq_refl Hh E) as (i & l & Hi & Hvi).
      eapply var_of_zip_seq with (i := i); cbn [ds_vars ds0]; [reflexivity| | | |].
      + by rewrite length_fmap.
      + done.
      + by rewrite list_lookup_fmap, Hi.
      + unfold w0. cbn [heap with_heap]. rewrite lookup_app_r by lia.
        by replace (length (heap w) + i - length (heap w))%nat with i by lia.
    - unfold var_of in *. cbn [ds_vars ds0].
      destruct (dict_get k (zip _ _)) as [l|] eqn:E'; [|done].
      apply dict_get_elem_of in E'. rewrite fst_zip in E'
        by (rewrite length_seq, length_fmap; lia).
      destruct (dict_get k (ds_vars ds)) as [l'|] eqn:E''.
      + destruct (dict_get_Forall _ _ _ _ Hv E'') as [v Hv']. simpl in Hv'. congruence.
      + apply dict_get_None in E''. done. }
  unfold assigned_to, unshared, var_of. rewrite V2, V1. unfold w1, w0. cbn [heap with_heap].
  assert (forall k l, k <> n1 -> k <> n2 -> dict_get k (ds_vars ds0) = Some l ->
                      l < length (heap w ++ vals))%nat as Hold.
  { intros k l _ _ E.
    pose proof (holds_zip_seq w0 (heap w) (ds_vars ds).*1 vals eq_refl) as Hz.
    rewrite length_fmap in Hz. specialize (Hz Hlen). rewrite <- Hlen in Hz.
    destruct (dict_get_Forall _ _ _ _ (holds_valid w0 ds0 vals Hz) E) as [v Hv'].
    simpl in Hv'. by apply lookup_lt_Some in Hv'. }
  split; [|split; [|split; [|split; [|split; [|split]]]]].
  - rewrite dict_get_set_ne, dict_get_set_eq by done.
    rewrite lookup_app_l by (rewrite !length_app; simpl; lia).
    by apply list_lookup_middle.
  - rewrite dict_get_set_eq. by apply list_lookup_middle.
  - intros k Hk1 Hk2. rewrite !dict_get_set_ne by done.
    specialize (Hcopy k). unfold var_of in Hcopy. rewrite <- Hcopy.
    destruct (dict_get k (ds_vars ds0)) as [l|] eqn:E; [|done].
    unfold w0. cbn [heap with_heap].
    pose proof (holds_zip_seq w0 (heap w) (ds_vars ds).*1 vals eq_refl) as Hz.
    rewrite length_fmap in Hz. specialize (Hz Hlen). rewrite <- Hlen in Hz.
    destruct (dict_get_Forall _ _ _ _ (holds_valid w0 ds0 vals Hz) E) as [v Hv'].
    simpl in Hv'. unfold w0 in Hv'. cbn [heap with_heap] in Hv'.
    rewrite Hv'. by apply lookup_app_l_Some, lookup_app_l_Some.
  - intros k l. destruct (decide (k = n1)) as [|Hk1]; [done|].
    rewrite (dict_get_set_ne n1 n2), dict_get_set_eq by done. intros E [= <-]. exfalso.
    destruct (decide (k = n2)) as [->|Hk2].
    + rewrite dict_get_set_eq in E. injection E. rewrite !length_app. simpl. lia.
    + rewrite !dict_get_set_ne in E by done. apply Hold in E; [lia|done|done].
  - intros k l. destruct (decide (k = n2)) as [|Hk2]; [done|].
    rewrite (dict_get_set_eq n2). intros E [= <-]. exfalso.
    rewrite dict_get_set_ne in E by done.
    destruct (decide (k = n1)) as [->|Hk1].
    + rewrite dict_get_set_eq in E. injection E. rewrite !length_app. simpl. lia.
    + rewrite dict_get_set_ne in E by done. apply Hold in E; [|done|done].
      rewrite !length_app in *. simpl in *. lia.
  - by rewrite A2, A1.
  - split; [|done]. cbn [heap with_heap].
    rewrite <- !app_assoc. by apply prefix_app_r.
Qed.

Lemma assign_coords_ok_inv n1 a1 n2 a2 ds w ds' w' :
  n1 <> n2 ->
  valid w ds -> NoDup (ds_vars ds).*1 ->
  assign_coords [(n1, a1); (n2, a2)] ds w = (Ok ds', w') ->
  assigned_to n1 a1 n2 a2 w ds w' ds'.
Proof.
  intros Hne Hv Hnd E.
  assert (size_ok (ds_dims ds) n1 a1 /\ size_ok (ds_dims ds) n2 a2) as [Hs1 Hs2].
  { unfold assign_coords in E.
    apply bind_ok_inv in E as (vars & w1 & _ & E). cbn [assign_each] in E.
    apply bind_ok_inv in E as (ds1 & w2 & E1 & E).
    apply bind_ok_inv in E as (ds2 & w3 & E2 & _).
    unfold assign_coord in E1, E2.
    apply bind_ok_inv in E1 as (dims1 & w4 & E1 & E1').
    apply bind_ok_inv in E2 as (dims2 & w5 & E2 & _).
    apply bind_ok_inv in E1' as (l1 & w6 & _ & E1').
    injection E1' as <- _. cbn [ds_dims] in *.
    split.
    - intros n Hn. rewrite Hn in E1.
      destruct (Nat.eqb_spec (length a1) n); [done|discriminate].
    - intros n Hn.
      assert (dict_get n2 dims1 = Some n) as Hn'.
      { destruct (dict_get n1 (ds_dims ds)) as [n'|].
        - destruct (length a1 =? n')%nat; [|discriminate]. by injection E1 as <- _.
        - injection E1 as <- _. by rewrite dict_get_set_ne. }
      rewrite Hn' in E2.
      destruct (Nat.eqb_spec (length a2) n); [done|discriminate]. }
  destruct (assign_coords_run n1 a1 n2 a2 ds w Hne Hv Hnd Hs1 Hs2) as (ds1 & w1 & E1 & P).
  rewrite E in E1. by injection E1 as <- <-.
Qed.

Lemma renamed_keep x :
  renamed keep_names x =
    if decide (x = "lon") then "orig_lon"
    else if decide (x = "lat") then "orig_lat" else x.
Proof.
  unfold renamed, keep_names. simpl.
  destruct (String.eqb_spec x "lon"), (String.eqb_spec x "lat");
    repeat case_decide; congruence.
Qed.

Lemma renamed_grid x :
  renamed grid_names x =
    if decide (x = "north_south") then "lat"
    else if decide (x = "east_west") then "lon" else x.
Proof.
  unfold renamed, grid_names. simpl.
  destruct (String.eqb_spec x "north_south"), (String.eqb_spec x "east_west");
    repeat case_decide; congruence.
Qed.

Ltac names := rewrite ?renamed_keep, ?renamed_grid in *; repeat case_decide; try congruence.

Lemma renamed_keep_not_latlon x : renamed keep_names x <> "lat" /\ renamed keep_names x <> "lon".
Proof. names; split; congruence. Qed.

Lemma copy_attrs_ok_inv (ds : Dataset) src dst arr a0 w (k : unit -> M Dataset) r w' :
  var_of w ds dst = Some (coord_var dst arr a0) ->
  unshared ds dst ->
  (let* s := getattr ds src in
   let* a := get_attrs s in
   let* d := getattr ds dst in
   let* u := set_attrs d a in
   k u) w = (Ok r, w') ->
  exists a w1,
    k tt w1 = (Ok r, w') /\
    var_of w1 ds dst = Some (coord_var dst arr a) /\
    (forall k' v, k' <> dst -> var_of w ds k' = Some v -> var_of w1 ds k' = Some v).
Proof.
  unfold var_of at 1. intros Hd Hu E.
  destruct (dict_get dst (ds_vars ds)) as [l|] eqn:El; [|done].
  eapply copy_attrs_inv in E as (a & w1 & E & Hv & Hk); [|exact El|exact Hd].
  exists a, w1. split; [done|]. unfold var_of. rewrite El. split; [done|].
  intros k' v Hne. destruct (dict_get k' (ds_vars ds)) as [l'|] eqn:El'; [|done].
  apply Hk. intros ->. apply Hne. by eapply Hu.
Qed.

Section Reconstruct.
Context `{PyText}.

(** Every variable of the input is in the result, under its name after the
    two renamings, with its data, shape and attributes; the names [lat] and
    [lon] apart, which hold the new coordinates. *)
Lemma add_latlon_coords_keeps ds w ds' w' k v :
  valid w ds ->
  add_latlon_coords ds w = (Ok ds', w') ->
  var_of w ds k = Some v ->
  renamed grid_names (renamed keep_names k) <> "lat" ->
  renamed grid_names (renamed keep_names k) <> "lon" ->
  var_of w' ds' (renamed grid_names (renamed keep_names k)) =
    Some (var_rename grid_names (var_rename keep_names v)).
Proof.
  intros Hv E Hk Hn1 Hn2. unfold add_latlon_coords in E.
  do 2 (apply bind_ok_inv in E as (? & ? & Ea & E); apply lift_ok_inv in Ea as (_ & ->)).
  do 2 (apply bind_ok_inv in E as (? & ? & Ea & E); apply lift_ok_inv in Ea as (_ & ->)).
  do 2 (apply bind_ok_inv in E as (? & ? & Ea & E); apply len_getitem_ok_inv in Ea as (_ & ->)).
  do 2 (apply bind_ok_inv in E as (? & ? & Ea & E); apply lift_ok_inv in Ea as (_ & ->)).
  do 2 (apply bind_ok_inv in E as (? & ? & Ea & E); apply lift_ok_inv in Ea as (_ & ->)).
  apply bind_ok_inv in E as (ds1 & w1 & E1 & E).
  apply (rename_ok_inv _ _ _ _ _ Hv) in E1 as (_ & (N1 & V1 & K1 & _)).
  apply bind_ok_inv in E as (ds2 & w2 & E2 & E).
  apply (rename_ok_inv _ _ _ _ _ V1) in E2 as ((C2 & _) & (N2 & V2 & K2 & _)).
  apply bind_ok_inv in E as (ds3 & w3 & E3 & E).
  apply assign_coords_ok_inv in E3 as (L1 & L2 & K3 & U1 & U2 & _); [|done|done|by rewrite N2].
  eapply copy_attrs_ok_inv in E as (a_lon & w4 & E & L2' & K4); [|exact L2|exact U2].
  apply K4 in L1; [|done].
  eapply copy_attrs_ok_inv in E as (a_lat & w5 & E & L1' & K5); [|exact L1|exact U1].
  injection E as <- <-.
  apply K5; [done|]. apply K4; [done|].
  rewrite K3 by done. by apply K2, K1.
Qed.

End Reconstruct.

Lemma dim_len_getitem w ds d n : valid w ds -> dim_len w ds d n -> len_getitem ds d w = (Ok n, w).
Proof.
  intros Hv [Hd Hvar]. unfold len_getitem, var_of in *.
  destruct (dict_get d (ds_vars ds)) as [l|] eqn:E.
  - destruct (dict_get_Forall _ _ _ _ Hv E) as [v Hl]. simpl in Hl.
    erewrite bind_ok; [|unfold deref; by rewrite Hl].
    specialize (Hvar v Hl). by destruct (v_shape v) as [|n' ?]; simplify_eq/=.
  - by rewrite Hd.
Qed.

Lemma length_linspace start stop num : length (Py.linspace start stop num) = num.
Proof. unfold Py.linspace. by rewrite length_fmap, length_seq. Qed.

Lemma length_axis corner step n : length (axis corner step n) = n.
Proof. apply length_linspace. Qed.

Lemma copy_attrs_run (ds : Dataset) src dst vs vd w {B} (k : unit -> M B) :
  var_of w ds src = Some vs ->
  var_of w ds dst = Some vd ->
  exists w1,
    (let* s := getattr ds src in
     let* a := get_attrs s in
     let* d := getattr ds dst in
     let* u := set_attrs d a in
     k u) w = k tt w1 /\
    forall k', is_Some (var_of w ds k') -> is_Some (var_of w1 ds k').
Proof.
  unfold var_of. intros Hs Hd.
  destruct (dict_get src (ds_vars ds)) as [ls|] eqn:Es; [|done].
  destruct (dict_get dst (ds_vars ds)) as [ld|] eqn:Ed; [|done].
  eexists. split.
  { erewrite bind_ok; [|by apply getattr_var].
    erewrite bind_ok; [|unfold get_attrs; erewrite bind_ok; [reflexivity|]; unfold deref; by rewrite Hs].
    erewrite bind_ok; [|by apply getattr_var].
    erewrite bind_ok; [reflexivity|]. unfold set_attrs. by rewrite Hd. }
  intros k'. cbn [heap]. destruct (dict_get k' (ds_vars ds)) as [l'|]; [|done].
  rewrite !lookup_lt_is_Some. by rewrite length_insert.
Qed.

Section Reconstruct.
Context `{PyText}.

Lemma grid_scalar_ok_inv ds key x :
  grid_scalar ds key = Ok x ->
  exists a x0, getitem (ds_attrs ds) key = Ok a /\ float_ a = Ok x0 /\ x = Py.round x0 3.
Proof.
  unfold grid_scalar. destruct (getitem (ds_attrs ds) key) as [a|] eqn:Ea; [|done].
  destruct (float_ a) as [x0|] eqn:Ex; [|done]. intros [= <-]. by exists a, x0.
Qed.

Lemma keep_names_NoDup (names : list string) :
  NoDup names -> "orig_lat" ∉ names -> "orig_lon" ∉ names ->
  NoDup (renamed keep_names <$> names).
Proof.
  intros Hnd H1 H2. apply NoDup_fmap_2_strong; [|done].
  intros x y Hx Hy. names; intros; subst; done.
Qed.

Lemma grid_names_NoDup (names : list string) :
  NoDup names -> "lat" ∉ names -> "lon" ∉ names ->
  NoDup (renamed grid_names <$> names).
Proof.
  intros Hnd H1 H2. apply NoDup_fmap_2_strong; [|done].
  intros x y Hx Hy. names; intros; subst; done.
Qed.

(** On a LIS frame whose four grid scalars read as numbers, the
    reconstruction goes through. *)
Lemma add_latlon_coords_run ds w dx dy ll_lat ll_lon :
  lis_frame w ds ->
  grid_scalar ds "DX" = Ok dx ->
  grid_scalar ds "DY" = Ok dy ->
  grid_scalar ds "SOUTH_WEST_CORNER_LAT" = Ok ll_lat ->
  grid_scalar ds "SOUTH_WEST_CORNER_LON" = Ok ll_lon ->
  exists ds' w', add_latlon_coords ds w = (Ok ds', w').
Proof.
  intros [Hv Hnd Hdims Hlat Hlon Holat Holon [ns Hns] [ew Hew]] Hdx Hdy Hllat Hllon.
  apply grid_scalar_ok_inv in Hdx as (a1 & x1 & Ha1 & Hx1 & ->).
  apply grid_scalar_ok_inv in Hdy as (a2 & x2 & Ha2 & Hx2 & ->).
  apply grid_scalar_ok_inv in Hllat as (a3 & x3 & Ha3 & Hx3 & ->).
  apply grid_scalar_ok_inv in Hllon as (a4 & x4 & Ha4 & Hx4 & ->).
  unfold add_latlon_coords.
  erewrite bind_ok; [|unfold lift; by rewrite Ha1].
  erewrite bind_ok; [|unfold lift; by rewrite Hx1].
  erewrite bind_ok; [|unfold lift; by rewrite Ha2].
  erewrite bind_ok; [|unfold lift; by rewrite Hx2].
  erewrite bind_ok; [|by apply dim_len_getitem].
  erewrite bind_ok; [|by apply dim_len_getitem].
  erewrite bind_ok; [|unfold lift; by rewrite Ha3].
  erewrite bind_ok; [|unfold lift; by rewrite Hx3].
  erewrite bind_ok; [|unfold lift; by rewrite Ha4].
  erewrite bind_ok; [|unfold lift; by rewrite Hx4].
  (* the first renaming *)
  destruct (rename_run keep_names ds w Hv) as (ds1 & w1 & E1 & N1 & V1 & K1 & D1 & _ & _).
  { split; [by apply keep_names_NoDup|].
    constructor; [by left|]. constructor; [by left|]. constructor. }
  erewrite bind_ok; [|exact E1].
  (* the second renaming *)
  assert (("lat" ∉ (ds_vars ds1).*1) /\ ("lon" ∉ (ds_vars ds1).*1)) as [Hl1 Hl2].
  { rewrite N1. split; intros Hin; apply list_elem_of_fmap in Hin as (x & Hx & _);
      revert Hx; names. }
  assert (dict_get "north_south" (ds_dims ds1) = Some ns /\
          dict_get "east_west" (ds_dims ds1) = Some ew) as [Dns Dew].
  { rewrite D1. destruct Hns as [Hns _], Hew as [Hew _].
    split; (erewrite rename_dims_get; [eassumption|done|names|intros k _; names]). }
  destruct (rename_run grid_names ds1 w1 V1) as (ds2 & w2 & E2 & N2 & V2 & K2 & D2 & _ & _).
  { split.
    - rewrite N1. apply grid_names_NoDup; [by apply keep_names_NoDup| |];
        intros Hin; apply list_elem_of_fmap in Hin as (x & Hx & _); revert Hx; names.
    - constructor; [right; by eapply dict_get_elem_of|].
      constructor; [right; by eapply dict_get_elem_of|]. constructor. }
  erewrite bind_ok; [|exact E2].
  (* the new coordinates *)
  assert (NoDup (ds_vars ds2).*1) as Hnd2.
  { rewrite N2. apply grid_names_NoDup; [|done|done]. rewrite N1. by apply keep_names_NoDup. }
  assert (forall k, k ∈ (ds_dims ds1).*1 -> k <> "lat" /\ k <> "lon") as Hk1.
  { intros k Hk. rewrite D1 in Hk. apply rename_dims_keys in Hk.
    apply list_elem_of_fmap in Hk as (x & -> & _). apply renamed_keep_not_latlon. }
  edestruct (assign_coords_run "lat" (axis (Py.round x3 3) (Py.round x2 3) ns)
               "lon" (axis (Py.round x4 3) (Py.round x1 3) ew) ds2 w2)
    as (ds3 & w3 & E3 & L1 & L2 & K3 & _); [done|done|done| | |].
  { intros n. rewrite D2. erewrite rename_dims_get with (s := "north_south"%string).
    - rewrite Dns, length_axis. by intros [= <-].
    - rewrite D1. apply rename_dims_keys.
    - names.
    - intros k Hk. destruct (Hk1 k Hk). names. }
  { intros n. rewrite D2. erewrite rename_dims_get with (s := "east_west"%string).
    - rewrite Dew, length_axis. by intros [= <-].
    - rewrite D1. apply rename_dims_keys.
    - names.
    - intros k Hk. destruct (Hk1 k Hk). names. }
  erewrite bind_ok; [|exact E3].
  (* the attributes *)
  assert (forall k, k ∈ (ds_vars ds).*1 ->
            renamed grid_names (renamed keep_names k) <> "lat" ->
            renamed grid_names (renamed keep_names k) <> "lon" ->
            is_Some (var_of w3 ds3 (renamed grid_names (renamed keep_names k)))) as Hkept.
  { intros k Hk Hn1 Hn2. destruct (valid_var_of _ _ _ Hv Hk) as [v Hvk].
    rewrite K3 by done. erewrite K2; [done|]. by apply K1. }
  destruct (Hkept "lon"%string Hlon) as [vlon Hvlon]; [names|names|].
  destruct (Hkept "lat"%string Hlat) as [vlat Hvlat]; [names|names|].
  replace (renamed grid_names (renamed keep_names "lon")) with "orig_lon"%string in Hvlon
    by (names).
  replace (renamed grid_names (renamed keep_names "lat")) with "orig_lat"%string in Hvlat
    by (names).
  edestruct (copy_attrs_run ds3 "orig_lon" "lon") as (w4 & -> & S4); [exact Hvlon|exact L2|].
  destruct (S4 "orig_lat"%string) as [vlat' Hvlat']; [by eexists|].
  destruct (S4 "lat"%string) as [vl' Hvl']; [by eexists|].
  edestruct (copy_attrs_run ds3 "orig_lat" "lat") as (w5 & -> & _); [exact Hvlat'|exact Hvl'|].
  by eexists _, _.
Qed.

End Reconstruct.

Lemma bind_raise_inv {A B} (c : M A) (k : A -> M B) w e w' :
  bind c k w = (Raise e, w') ->
  c w = (Raise e, w') \/ exists a w1, c w = (Ok a, w1) /\ k a w1 = (Raise e, w').
Proof.
  unfold bind. destruct (c w) as [[a|e1] w1]; [eauto|]. intros [= <- <-]. by left.
Qed.

Lemma lift_inv {A} (r : result A) w r' w' : lift r w = (r', w') -> r = r' /\ w' = w.
Proof. unfold lift. by intros [= <- <-]. Qed.

Section Reconstruct.
Context `{PyText}.

Lemma grid_scalar_supplied ds key :
  supplied ds key <-> exists x, grid_scalar ds key = Ok x.
Proof.
  unfold supplied, grid_scalar, getitem. split.
  - intros (a & x & -> & ->). eauto.
  - intros (x & E). destruct (ds_attrs ds !! key) as [a|]; [|done].
    destruct (float_ a) as [x0|] eqn:Ex; [|done]. eauto.
Qed.

(** [float] takes the numeric values, and raises [float_error] for the
    others. *)
Lemma float_numeric a : numeric a <-> exists x, float_ a = Ok x.
Proof.
  destruct a as [x|n|s|xs]; cbn [numeric float_].
  - split; [eauto|done].
  - destruct (of_Z n) as [| sg | sg |q] eqn:E.
    + split; [eauto|]. by intros _ s.
    + split; [intros Hn; by destruct (Hn sg)|]. by intros [x [=]].
    + split; [eauto|]. by intros _ s.
    + split; [eauto|]. by intros _ s.
  - destruct (float_of_str s) as [x|].
    + split; [eauto|]. by eexists.
    + split; [by intros []|]. by intros [x [=]].
  - destruct xs as [|x [|y xs]].
    + split; [done|]. by intros [x [=]].
    + split; [eauto|done].
    + split; [done|]. by intros [x0 [=]].
Qed.

Lemma float_refused a e : float_ a = Raise e -> ~ numeric a /\ e = float_error a.
Proof.
  intros E. split.
  - intros [x Ex]%float_numeric. congruence.
  - destruct a as [x|n|s|xs]; cbn [float_ float_error] in *.
    + done.
    + destruct (of_Z n); congruence.
    + destruct (float_of_str s); congruence.
    + destruct xs as [|x [|y xs]]; congruence.
Qed.

Lemma accepted_supplied ds key : accepted ds key <-> supplied ds key.
Proof.
  unfold accepted, supplied. split.
  - intros (a & Ea & [x Ex]%float_numeric). eauto.
  - intros (a & x & Ea & Ex). exists a. split; [done|]. apply float_numeric. eauto.
Qed.

Lemma getitem_absent (attrs : gmap string attr_value) key e :
  getitem attrs key = Raise e -> attrs !! key = None /\ e = KeyError key.
Proof. unfold getitem. destruct (attrs !! key); [done|]. by intros [= <-]. Qed.

Lemma getitem_present (attrs : gmap string attr_value) key a :
  getitem attrs key = Ok a -> attrs !! key = Some a.
Proof. unfold getitem. destruct (attrs !! key); [|done]. by intros [= <-]. Qed.

(** A key of [read_error] is a grid scalar that is not accepted. *)
Lemma read_error_not_accepted ds e :
  read_error ds e -> exists key, key ∈ grid_keys /\ ~ accepted ds key.
Proof.
  intros (before & key & after & Hk & _ & Hc). exists key. split.
  - rewrite Hk. apply elem_of_app. right. by left.
  - intros (a & Ea & Hn). destruct Hc as [[En _]|(a' & Ea' & Hn' & _)]; [congruence|].
    rewrite Ea in Ea'. injection Ea' as <-. done.
Qed.

Ltac accepted_before :=
  solve [repeat (apply List.Forall_cons; [assumption|]); apply List.Forall_nil].

Ltac read_or_fail ds E key before after Hacc :=
  let a := fresh "a" in
  let x := fresh "x" in
  let w1 := fresh "w" in
  let Ea := fresh "Ea" in
  let Ex := fresh "Ex" in
  apply bind_raise_inv in E as [E|(a & w1 & Ea & E)];
    [apply lift_inv in E as [E ->]; split; [|done];
     exists before, key, after; split; [done|]; split; [accepted_before|];
     left; by apply getitem_absent |];
  apply lift_inv in Ea as [Ea ->];
  apply getitem_present in Ea;
  apply bind_raise_inv in E as [E|(x & w1 & Ex & E)];
    [apply lift_inv in E as [E ->]; split; [|done];
     exists before, key, after; split; [done|]; split; [accepted_before|];
     right; exists a; apply float_refused in E as [? ->]; done |];
  apply lift_inv in Ex as [Ex ->];
  assert (accepted ds key) as Hacc
    by (exists a; split; [done|]; apply float_numeric; eauto).

(** On a LIS frame the reconstruction fails only on a grid scalar, the first
    that is absent or not numeric, and then before it has made anything. *)
Lemma add_latlon_coords_raise ds w e w' :
  lis_frame w ds ->
  add_latlon_coords ds w = (Raise e, w') ->
  read_error ds e /\ w' = w.
Proof.
  intros Hf E.
  pose proof E as E0. unfold add_latlon_coords in E.
  read_or_fail ds E "DX"%string (@nil string)
    ["DY"; "SOUTH_WEST_CORNER_LAT"; "SOUTH_WEST_CORNER_LON"]%string A1.
  read_or_fail ds E "DY"%string ["DX"]%string
    ["SOUTH_WEST_CORNER_LAT"; "SOUTH_WEST_CORNER_LON"]%string A2.
  destruct Hf as [Hv Hnd Hdims Hlat Hlon Holat Holon [ns Hns] [ew Hew]].
  erewrite bind_ok in E; [|by apply dim_len_getitem].
  erewrite bind_ok in E; [|by apply dim_len_getitem].
  read_or_fail ds E "SOUTH_WEST_CORNER_LAT"%string ["DX"; "DY"]%string
    ["SOUTH_WEST_CORNER_LON"]%string A3.
  read_or_fail ds E "SOUTH_WEST_CORNER_LON"%string
    ["DX"; "DY"; "SOUTH_WEST_CORNER_LAT"]%string (@nil string) A4.
  apply accepted_supplied, grid_scalar_supplied in A1 as [dx A1].
  apply accepted_supplied, grid_scalar_supplied in A2 as [dy A2].
  apply accepted_supplied, grid_scalar_supplied in A3 as [ll_lat A3].
  apply accepted_supplied, grid_scalar_supplied in A4 as [ll_lon A4].
  edestruct (add_latlon_coords_run ds w dx dy ll_lat ll_lon) as (ds' & w1 & E');
    [by constructor; eauto|done|done|done|done|congruence].
Qed.

Lemma add_latlon_coords_ok_supplied ds w ds' w' key :
  add_latlon_coords ds w = (Ok ds', w') -> key ∈ grid_keys -> supplied ds key.
Proof.
  intros E Hk. apply add_latlon_coords_ok_inv in E
    as (dx & dy & ll_lat & ll_lon & ? & ? & ? & ? & E1 & E2 & _ & _ & E3 & E4 & _).
  apply grid_scalar_supplied. unfold grid_keys in Hk.
  repeat (apply elem_of_cons in Hk as [->|Hk]; [eauto|]). by apply elem_of_nil in Hk.
Qed.

End Reconstruct.

(** ** The names and the dimensions of a result *)

Lemma rename_vars_keys nd vars acc w r w' :
  rename_vars nd vars acc w = (Ok r, w') -> r.*1 = acc.*1 ++ (renamed nd <$> vars.*1).
Proof.
  revert acc w. induction vars as [|[k l] vars IH]; intros acc w E.
  - injection E as <- _. by rewrite app_nil_r.
  - cbn [rename_vars] in E.
    apply bind_ok_inv in E as (v & w1 & _ & E).
    apply bind_ok_inv in E as (l' & w2 & _ & E).
    destruct (dict_mem (renamed nd k) acc); [discriminate|].
    apply IH in E. rewrite E, fmap_app, <- app_assoc. done.
Qed.

(** What [rename] does to the names, the dimensions and the attributes. *)
Lemma rename_ok_fields nd ds w ds' w' :
  rename nd ds w = (Ok ds', w') ->
  (ds_vars ds').*1 = renamed nd <$> (ds_vars ds).*1 /\
  ds_coord_names ds' = renamed nd <$> ds_coord_names ds /\
  ds_dims ds' = rename_dims nd (ds_dims ds) /\
  ds_attrs ds' = ds_attrs ds.
Proof.
  unfold rename. intros E.
  apply bind_ok_inv in E as (u & w1 & _ & E).
  apply bind_ok_inv in E as (vars & w2 & E2 & E).
  apply rename_vars_keys in E2. injection E as <- _. done.
Qed.

Lemma copy_vars_keys vars w r w' : copy_vars vars w = (Ok r, w') -> r.*1 = vars.*1.
Proof.
  revert w r w'. induction vars as [|[k l] vars IH]; intros w r w' E.
  - by injection E as <- _.
  - cbn [copy_vars] in E.
    apply bind_ok_inv in E as (v & w1 & _ & E).
    apply bind_ok_inv in E as (l' & w2 & _ & E).
    apply bind_ok_inv in E as (rest & w3 & E3 & E).
    injection E as <- _. apply IH in E3. by rewrite fmap_cons, E3.
Qed.

Lemma dict_set_keys_elem_of {V} k (v : V) d x :
  x ∈ (dict_set k v d).*1 <-> x = k \/ x ∈ d.*1.
Proof.
  rewrite dict_set_keys. destruct (dict_mem k d) eqn:E.
  - apply dict_mem_elem_of in E. split; [by right|]. by intros [->|?].
  - rewrite elem_of_app, list_elem_of_singleton. tauto.
Qed.

(** What one new coordinate does to the Dataset. *)
Lemma assign_coord_fields name arr ds w ds' w' :
  assign_coord name arr ds w = (Ok ds', w') ->
  (forall x, x ∈ (ds_vars ds').*1 <-> x = name \/ x ∈ (ds_vars ds).*1) /\
  (forall x, x ∈ (ds_dims ds').*1 <-> x = name \/ x ∈ (ds_dims ds).*1) /\
  dict_get name (ds_dims ds') = Some (length arr) /\
  (forall x, x <> name -> dict_get x (ds_dims ds') = dict_get x (ds_dims ds)) /\
  (forall x, x ∈ ds_coord_names ds' <-> x = name \/ x ∈ ds_coord_names ds) /\
  ds_attrs ds' = ds_attrs ds.
Proof.
  unfold assign_coord. intros E.
  apply bind_ok_inv in E as (dims & w1 & E1 & E).
  apply bind_ok_inv in E as (l & w2 & _ & E).
  injection E as <- _. cbn [ds_vars ds_dims ds_coord_names ds_attrs].
  split; [intros x; apply dict_set_keys_elem_of|].
  assert ((forall x, x ∈ dims.*1 <-> x = name \/ x ∈ (ds_dims ds).*1) /\
          dict_get name dims = Some (length arr) /\
          (forall x, x <> name -> dict_get x dims = dict_get x (ds_dims ds))) as (D1 & D2 & D3).
  { destruct (dict_get name (ds_dims ds)) as [n'|] eqn:En.
    - destruct (Nat.eqb_spec (length arr) n') as [->|]; [|discriminate].
      injection E1 as <- _. split; [|done].
      intros x. split; [by right|]. intros [->|?]; [|done]. by eapply dict_get_elem_of.
    - injection E1 as <- _. split; [intros x; apply dict_set_keys_elem_of|].
      split; [apply dict_get_set_eq|]. intros x Hx. by apply dict_get_set_ne. }
  split; [done|]. split; [done|]. split; [done|]. split; [|done].
  intros x. destruct (existsb (String.eqb name) (ds_coord_names ds)) eqn:Ex.
  - split; [by right|]. intros [->|?]; [|done].
    apply existsb_exists in Ex as (y & Hy & ->%String.eqb_eq). by apply list_elem_of_In.
  - rewrite elem_of_app, list_elem_of_singleton. tauto.
Qed.

(** What the two new coordinates do to the Dataset. *)
Lemma assign_coords_fields n1 a1 n2 a2 ds w ds' w' :
  n1 <> n2 ->
  assign_coords [(n1, a1); (n2, a2)] ds w = (Ok ds', w') ->
  (forall x, x ∈ (ds_vars ds').*1 <-> x = n1 \/ x = n2 \/ x ∈ (ds_vars ds).*1) /\
  (forall x, x ∈ (ds_dims ds').*1 <-> x = n1 \/ x = n2 \/ x ∈ (ds_dims ds).*1) /\
  dict_get n1 (ds_dims ds') = Some (length a1) /\
  dict_get n2 (ds_dims ds') = Some (length a2) /\
  (forall x, x <> n1 -> x <> n2 -> dict_get x (ds_dims ds') = dict_get x (ds_dims ds)) /\
  (forall x, x ∈ ds_coord_names ds' <-> x = n1 \/ x = n2 \/ x ∈ ds_coord_names ds) /\
  ds_attrs ds' = ds_attrs ds.
Proof.
  intros Hne E. unfold assign_coords in E.
  apply bind_ok_inv in E as (vars & w1 & E1 & E). apply copy_vars_keys in E1.
  cbn [assign_each] in E.
  apply bind_ok_inv in E as (ds1 & w2 & E2 & E).
  apply bind_ok_inv in E as (ds2 & w3 & E3 & E).
  injection E as <- _.
  apply assign_coord_fields in E2 as (V2 & D2 & G2 & K2 & C2 & A2).
  apply assign_coord_fields in E3 as (V3 & D3 & G3 & K3 & C3 & A3).
  cbn [ds_vars ds_dims ds_coord_names ds_attrs] in *. rewrite E1 in V2.
  split; [intros x; rewrite V3, V2; tauto|].
  split; [intros x; rewrite D3, D2; tauto|].
  split; [by rewrite K3, G2|]. split; [done|].
  split; [intros x H1 H2; by rewrite K3, K2|].
  split; [intros x; rewrite C3, C2; tauto|]. by rewrite A3, A2.
Qed.

(** The copy of the attributes leaves the Dataset as it is. *)
Lemma copy_attrs_dataset (ds : Dataset) src dst w (k : unit -> M Dataset) r w' :
  (let* s := getattr ds src in
   let* a := get_attrs s in
   let* d := getattr ds dst in
   let* u := set_attrs d a in
   k u) w = (Ok r, w') ->
  exists w1, k tt w1 = (Ok r, w').
Proof.
  intros E.
  apply bind_ok_inv in E as (s & w1 & _ & E).
  apply bind_ok_inv in E as (a & w2 & _ & E).
  apply bind_ok_inv in E as (d & w3 & _ & E).
  apply bind_ok_inv in E as ([] & w4 & _ & E). eauto.
Qed.

Section Reconstruct.
Context `{PyText}.

(** The Dataset a successful reconstruction returns: its global attributes
    are those of the input; [lat] and [lon] are dimensions of the lengths
    read and coordinates; every other name and dimension is one of the input,
    renamed. *)
Lemma add_latlon_coords_fields ds w ds' w' :
  add_latlon_coords ds w = (Ok ds', w') ->
  exists ns ew,
    (len_getitem ds "north_south" w).1 = Ok ns /\
    (len_getitem ds "east_west" w).1 = Ok ew /\
    ds_attrs ds' = ds_attrs ds /\
    dict_get "lat" (ds_dims ds') = Some ns /\
    dict_get "lon" (ds_dims ds') = Some ew /\
    (forall x, x <> "lat" -> x <> "lon" ->
       dict_get x (ds_dims ds') =
         dict_get x (rename_dims grid_names (rename_dims keep_names (ds_dims ds)))) /\
    (forall x, x ∈ (ds_vars ds').*1 ->
       x = "lat" \/ x = "lon" \/
       exists k, k ∈ (ds_vars ds).*1 /\ x = renamed grid_names (renamed keep_names k)) /\
    (forall x, x ∈ (ds_dims ds').*1 ->
       x = "lat" \/ x = "lon" \/
       exists k, k ∈ (ds_dims ds).*1 /\ x = renamed grid_names (renamed keep_names k)) /\
    "lat" ∈ ds_coord_names ds' /\ "lon" ∈ ds_coord_names ds'.
Proof.
  unfold add_latlon_coords. intros E.
  do 2 (apply bind_ok_inv in E as (? & ? & Ea & E); apply lift_ok_inv in Ea as (_ & ->)).
  do 2 (apply bind_ok_inv in E as (? & ? & Ea & E); apply lift_ok_inv in Ea as (_ & ->)).
  apply bind_ok_inv in E as (ew & w1 & Hew & E).
  apply len_getitem_ok_inv in Hew as (Hew & ->).
  apply bind_ok_inv in E as (ns & w1 & Hns & E).
  apply len_getitem_ok_inv in Hns as (Hns & ->).
  do 2 (apply bind_ok_inv in E as (? & ? & Ea & E); apply lift_ok_inv in Ea as (_ & ->)).
  do 2 (apply bind_ok_inv in E as (? & ? & Ea & E); apply lift_ok_inv in Ea as (_ & ->)).
  apply bind_ok_inv in E as (ds1 & w1 & E1 & E).
  apply rename_ok_fields in E1 as (V1 & _ & D1 & A1).
  apply bind_ok_inv in E as (ds2 & w2 & E2 & E).
  apply rename_ok_fields in E2 as (V2 & _ & D2 & A2).
  apply bind_ok_inv in E as (ds3 & w3 & E3 & E).
  apply assign_coords_fields in E3 as (V3 & D3 & G1 & G2 & K3 & C3 & A3); [|done].
  apply copy_attrs_dataset in E as (w4 & E).
  apply copy_attrs_dataset in E as (w5 & E).
  injection E as <- _.
  rewrite !length_linspace in *.
  exists ns, ew. split; [done|]. split; [done|].
  split; [by rewrite A3, A2, A1|]. split; [done|]. split; [done|].
  split; [intros y H1 H2; by rewrite K3, D2, D1|].
  split; [|split; [|split; apply C3; tauto]].
  - intros y [->|[->|Hx]]%V3; [tauto|tauto|]. right. right.
    rewrite V2, V1 in Hx. apply list_elem_of_fmap in Hx as (k1 & -> & Hk1).
    apply list_elem_of_fmap in Hk1 as (k & -> & Hk). eauto.
  - intros y [->|[->|Hx]]%D3; [tauto|tauto|]. right. right.
    rewrite D2 in Hx. apply rename_dims_keys in Hx.
    apply list_elem_of_fmap in Hx as (k1 & -> & Hk1).
    rewrite D1 in Hk1. apply rename_dims_keys in Hk1.
    apply list_elem_of_fmap in Hk1 as (k & -> & Hk). eauto.
Qed.

(** No name and no dimension of a result is [north_south] or [east_west]. *)
Lemma add_latlon_coords_no_grid_names ds w ds' w' d :
  add_latlon_coords ds w = (Ok ds', w') ->
  d = "north_south" \/ d = "east_west" ->
  (d ∉ (ds_vars ds').*1) /\ (d ∉ (ds_dims ds').*1).
Proof.
  intros E Hd.
  apply add_latlon_coords_fields in E as (ns & ew & _ & _ & _ & _ & _ & _ & V & D & _).
  split; intros Hin.
  - apply V in Hin as [->|[->|(k & _ & Hk)]]; [by destruct Hd|by destruct Hd|].
    revert Hk. destruct Hd as [-> | ->]; names.
  - apply D in Hin as [->|[->|(k & _ & Hk)]]; [by destruct Hd|by destruct Hd|].
    revert Hk. destruct Hd as [-> | ->]; names.
Qed.

(** With the two resolutions read, a grid dimension that the Dataset does not
    have ends the reconstruction, before anything is made. *)
Lemma add_latlon_coords_no_dim ds w d :
  supplied ds "DX" -> supplied ds "DY" ->
  d = "east_west" \/ d = "north_south" /\ is_ok (len_getitem ds "east_west" w).1 = true ->
  d ∉ (ds_vars ds).*1 -> d ∉ (ds_dims ds).*1 ->
  add_latlon_coords ds w = (Raise (KeyError d), w).
Proof.
  intros (a1 & x1 & Ha1 & Hx1) (a2 & x2 & Ha2 & Hx2) Hd Hv%dict_get_None Hdim%dict_get_None.
  unfold add_latlon_coords.
  erewrite bind_ok; [|unfold lift, getitem; by rewrite Ha1].
  erewrite bind_ok; [|unfold lift; by rewrite Hx1].
  erewrite bind_ok; [|unfold lift, getitem; by rewrite Ha2].
  erewrite bind_ok; [|unfold lift; by rewrite Hx2].
  assert (len_getitem ds d w = (Raise (KeyError d), w)) as Hraise.
  { unfold len_getitem. by rewrite Hv, Hdim. }
  destruct Hd as [->|[-> Hok]].
  - erewrite bind_raise; [done|exact Hraise].
  - destruct (len_getitem ds "east_west" w) as [[n|e] w1] eqn:El; [|done].
    apply len_getitem_ok_inv in El as (El & ->).
    erewrite bind_ok; [|rewrite (surjective_pairing (len_getitem _ _ _)), El, len_getitem_world; reflexivity].
    erewrite bind_raise; [done|exact Hraise].
Qed.

End Reconstruct.

(** ** The attributes of the new coordinates *)

(** The copy of lines 135-136 gives the coordinate the attributes of the
    variable it reads. *)
Lemma copy_attrs_ok_src (ds : Dataset) src dst vs arr a0 w (k : unit -> M Dataset) r w' :
  var_of w ds src = Some vs ->
  var_of w ds dst = Some (coord_var dst arr a0) ->
  unshared ds dst ->
  (let* s := getattr ds src in
   let* a := get_attrs s in
   let* d := getattr ds dst in
   let* u := set_attrs d a in
   k u) w = (Ok r, w') ->
  exists w1,
    k tt w1 = (Ok r, w') /\
    var_of w1 ds dst = Some (coord_var dst arr (v_attrs vs)) /\
    (forall k' v, k' <> dst -> var_of w ds k' = Some v -> var_of w1 ds k' = Some v).
Proof.
  unfold var_of at 1 2. intros Hs Hd Hu E.
  destruct (dict_get src (ds_vars ds)) as [ls|] eqn:Els; [|done].
  destruct (dict_get dst (ds_vars ds)) as [ld|] eqn:Eld; [|done].
  erewrite bind_ok in E; [|by apply getattr_var].
  erewrite bind_ok in E;
    [|unfold get_attrs; erewrite bind_ok; [reflexivity|]; unfold deref; by rewrite Hs].
  erewrite bind_ok in E; [|by apply getattr_var].
  erewrite bind_ok in E; [|unfold set_attrs; by rewrite Hd].
  eexists. split; [exact E|]. unfold var_of. cbn [heap]. rewrite Eld. split.
  - rewrite list_lookup_insert_eq; [done|]. by eapply lookup_lt_Some.
  - intros k' v Hne. destruct (dict_get k' (ds_vars ds)) as [l'|] eqn:El'; [|done].
    intros Hv. rewrite list_lookup_insert_ne; [done|].
    intros ->. apply Hne. by eapply Hu.
Qed.

Section Reconstruct.
Context `{PyText}.

(** The new coordinates of a result carry the attributes of the variables
    [lat] and [lon] of the input. *)
Lemma add_latlon_coords_attrs ds w ds' w' v_lat v_lon :
  valid w ds ->
  add_latlon_coords ds w = (Ok ds', w') ->
  var_of w ds "lat" = Some v_lat ->
  var_of w ds "lon" = Some v_lon ->
  exists a_lat a_lon,
    var_of w' ds' "lat" = Some (coord_var "lat" a_lat (v_attrs v_lat)) /\
    var_of w' ds' "lon" = Some (coord_var "lon" a_lon (v_attrs v_lon)).
Proof.
  intros Hv E Hlat Hlon. unfold add_latlon_coords in E.
  do 2 (apply bind_ok_inv in E as (? & ? & Ea & E); apply lift_ok_inv in Ea as (_ & ->)).
  do 2 (apply bind_ok_inv in E as (? & ? & Ea & E); apply lift_ok_inv in Ea as (_ & ->)).
  do 2 (apply bind_ok_inv in E as (? & ? & Ea & E); apply len_getitem_ok_inv in Ea as (_ & ->)).
  do 2 (apply bind_ok_inv in E as (? & ? & Ea & E); apply lift_ok_inv in Ea as (_ & ->)).
  do 2 (apply bind_ok_inv in E as (? & ? & Ea & E); apply lift_ok_inv in Ea as (_ & ->)).
  apply bind_ok_inv in E as (ds1 & w1 & E1 & E).
  apply (rename_ok_inv _ _ _ _ _ Hv) in E1 as (_ & (N1 & V1 & K1 & _)).
  apply bind_ok_inv in E as (ds2 & w2 & E2 & E).
  apply (rename_ok_inv _ _ _ _ _ V1) in E2 as ((C2 & _) & (N2 & V2 & K2 & _)).
  apply bind_ok_inv in E as (ds3 & w3 & E3 & E).
  apply assign_coords_ok_inv in E3 as (L1 & L2 & K3 & U1 & U2 & _); [|done|done|by rewrite N2].
  assert (var_of w3 ds3 "orig_lon" = Some (var_rename grid_names (var_rename keep_names v_lon)))
    as O2 by (rewrite K3 by done; by apply (K2 "orig_lon"%string), (K1 "lon"%string)).
  assert (var_of w3 ds3 "orig_lat" = Some (var_rename grid_names (var_rename keep_names v_lat)))
    as O1 by (rewrite K3 by done; by apply (K2 "orig_lat"%string), (K1 "lat"%string)).
  eapply copy_attrs_ok_src in E as (w4 & E & L2' & K4); [|exact O2|exact L2|exact U2].
  apply K4 in L1; [|done]. apply K4 in O1; [|done].
  eapply copy_attrs_ok_src in E as (w5 & E & L1' & K5); [|exact O1|exact L1|exact U1].
  apply K5 in L2'; [|done].
  injection E as <- <-. eauto.
Qed.

(** With the grid scalars and the two lengths read, a Dataset without a
    variable or dimension [lon], or without [lat], ends the reconstruction at
    the first renaming, before anything is made. *)
Lemma add_latlon_coords_no_var ds w k :
  Forall (supplied ds) grid_keys ->
  is_ok (len_getitem ds "east_west" w).1 = true ->
  is_ok (len_getitem ds "north_south" w).1 = true ->
  k = "lon" \/ k = "lat" ->
  k ∉ (ds_vars ds).*1 -> k ∉ (ds_dims ds).*1 ->
  add_latlon_coords ds w =
    (Raise (ValueError "cannot rename: not a variable or dimension in this dataset"), w).
Proof.
  intros Hs Hew Hns Hk Hv Hd. unfold grid_keys in Hs.
  apply Forall_cons in Hs as [(a1 & x1 & Ha1 & Hx1) Hs].
  apply Forall_cons in Hs as [(a2 & x2 & Ha2 & Hx2) Hs].
  apply Forall_cons in Hs as [(a3 & x3 & Ha3 & Hx3) Hs].
  apply Forall_cons in Hs as [(a4 & x4 & Ha4 & Hx4) _].
  assert (dict_mem k (ds_vars ds) || dict_mem k (ds_dims ds) = false) as Hm.
  { apply orb_false_iff. split; apply not_true_is_false; by rewrite dict_mem_elem_of. }
  destruct (len_getitem ds "east_west" w) as [[ew|?] ?] eqn:Eew; [|done].
  apply len_getitem_ok_inv in Eew as Hw. destruct Hw as [_ ->].
  destruct (len_getitem ds "north_south" w) as [[ns|?] ?] eqn:Ens; [|done].
  apply len_getitem_ok_inv in Ens as Hw. destruct Hw as [_ ->].
  unfold add_latlon_coords.
  erewrite bind_ok; [|unfold lift, getitem; by rewrite Ha1].
  erewrite bind_ok; [|unfold lift; by rewrite Hx1].
  erewrite bind_ok; [|unfold lift, getitem; by rewrite Ha2].
  erewrite bind_ok; [|unfold lift; by rewrite Hx2].
  erewrite bind_ok; [|exact Eew].
  erewrite bind_ok; [|exact Ens].
  erewrite bind_ok; [|unfold lift, getitem; by rewrite Ha3].
  erewrite bind_ok; [|unfold lift; by rewrite Hx3].
  erewrite bind_ok; [|unfold lift, getitem; by rewrite Ha4].
  erewrite bind_ok; [|unfold lift; by rewrite Hx4].
  erewrite bind_raise; [done|].
  unfold rename. erewrite bind_raise; [done|].
  cbn [fmap list_fmap fst rename_check].
  destruct Hk as [-> | ->].
  - by rewrite Hm.
  - rewrite Hm. by destruct (dict_mem "lon" (ds_vars ds) || dict_mem "lon" (ds_dims ds)).
Qed.

End Reconstruct.

(** ** A name that is taken *)

(** [rename] stops at the first variable whose new name is taken. *)
Lemma rename_vars_conflict nd vars vals acc w :
  holds w vars vals ->
  NoDup acc.*1 ->
  ~ NoDup (acc.*1 ++ (renamed nd <$> vars.*1)) ->
  (rename_vars nd vars acc w).1 = Raise (ValueError "the new name conflicts").
Proof.
  revert vals acc w. unfold holds.
  induction vars as [|[k l] vars IH]; intros vals acc w Hh Hacc Hnd.
  - destruct Hnd. by rewrite app_nil_r.
  - apply Forall2_cons_inv_l in Hh as (v & vals' & Hv & Hh & ->). simpl in Hv.
    cbn [rename_vars].
    erewrite bind_ok; [|unfold deref; by rewrite Hv].
    erewrite bind_ok; [|reflexivity].
    destruct (dict_mem (renamed nd k) acc) eqn:Hm; [done|].
    apply IH with (vals := vals').
    + eapply Forall2_impl; [exact Hh|]. intros [k' l'] v' Hl. simpl in *.
      by apply lookup_app_l_Some.
    + rewrite fmap_app. apply NoDup_app. split; [done|]. split; [|apply NoDup_singleton].
      intros x Hx Hx'. apply list_elem_of_singleton in Hx' as ->.
      apply dict_mem_elem_of in Hx. simpl in Hx. congruence.
    + rewrite fmap_app, <- app_assoc. done.
Qed.

Section Reconstruct.
Context `{PyText}.

(** With the grid scalars and the two lengths read, a Dataset that has the
    variables [lon] and [lat] and already a variable [orig_lon] or [orig_lat]
    ends the reconstruction in the first renaming. *)
Lemma add_latlon_coords_conflict ds w k :
  valid w ds ->
  NoDup (ds_vars ds).*1 ->
  Forall (supplied ds) grid_keys ->
  is_ok (len_getitem ds "east_west" w).1 = true ->
  is_ok (len_getitem ds "north_south" w).1 = true ->
  "lon" ∈ (ds_vars ds).*1 -> "lat" ∈ (ds_vars ds).*1 ->
  k = "orig_lon" \/ k = "orig_lat" ->
  k ∈ (ds_vars ds).*1 ->
  (add_latlon_coords ds w).1 = Raise (ValueError "the new name conflicts").
Proof.
  intros Hv Hnd Hs Hew Hns Hlon Hlat Hk Hin. unfold grid_keys in Hs.
  apply Forall_cons in Hs as [(a1 & x1 & Ha1 & Hx1) Hs].
  apply Forall_cons in Hs as [(a2 & x2 & Ha2 & Hx2) Hs].
  apply Forall_cons in Hs as [(a3 & x3 & Ha3 & Hx3) Hs].
  apply Forall_cons in Hs as [(a4 & x4 & Ha4 & Hx4) _].
  destruct (len_getitem ds "east_west" w) as [[ew|?] ?] eqn:Eew; [|done].
  apply len_getitem_ok_inv in Eew as Hw. destruct Hw as [_ ->].
  destruct (len_getitem ds "north_south" w) as [[ns|?] ?] eqn:Ens; [|done].
  apply len_getitem_ok_inv in Ens as Hw. destruct Hw as [_ ->].
  destruct (valid_holds _ _ Hv) as [vals Hh].
  unfold add_latlon_coords.
  erewrite bind_ok; [|unfold lift, getitem; by rewrite Ha1].
  erewrite bind_ok; [|unfold lift; by rewrite Hx1].
  erewrite bind_ok; [|unfold lift, getitem; by rewrite Ha2].
  erewrite bind_ok; [|unfold lift; by rewrite Hx2].
  erewrite bind_ok; [|exact Eew].
  erewrite bind_ok; [|exact Ens].
  erewrite bind_ok; [|unfold lift, getitem; by rewrite Ha3].
  erewrite bind_ok; [|unfold lift; by rewrite Hx3].
  erewrite bind_ok; [|unfold lift, getitem; by rewrite Ha4].
  erewrite bind_ok; [|unfold lift; by rewrite Hx4].
  assert (forall {A B} (c : M A) (k : A -> M B) w e,
            (c w).1 = Raise e -> (bind c k w).1 = Raise e) as bind_fails.
  { intros A B c k0 w0 e E. unfold bind. by destruct (c w0) as [[a|e'] w1]; simplify_eq/=. }
  apply bind_fails. unfold rename.
  erewrite bind_ok; [|apply rename_check_run].
  2:{ cbn [fmap list_fmap fst keep_names].
      constructor; [by left|]. constructor; [by left|]. constructor. }
  apply bind_fails.
  apply (rename_vars_conflict _ _ vals); [done|constructor|].
  cbn [fmap list_fmap app]. intros Hn.
  assert (exists k0, k0 ∈ (ds_vars ds).*1 /\ k0 <> k /\ renamed keep_names k0 = k)
    as (k0 & Hk0 & Hne & Hr).
  { destruct Hk as [-> | ->]; [exists "lon"%string | exists "lat"%string]; by names. }
  assert (renamed keep_names k = k) as Hr' by (destruct Hk as [-> | ->]; by names).
  apply list_elem_of_lookup_1 in Hk0 as [i Hi]. apply list_elem_of_lookup_1 in Hin as [j Hj].
  assert (i = j); [|congruence].
  apply (NoDup_lookup _ i j k Hn).
  - by rewrite list_lookup_fmap, Hi, <- Hr.
  - rewrite list_lookup_fmap, Hj. cbn [fmap option_fmap option_map]. f_equal. exact Hr'.
Qed.

End Reconstruct.

End Frames.
Export Frames.

(** * The chunk planner and the driver *)

Module Plans.

Section Groups.
Context {A : Type}.
Implicit Types (l : list A) (k : nat).

Lemma groups_nil k : groups k (@nil A) = [].
Proof. destruct k; by simp groups. Qed.

(** Concatenating the groups gives the sequence back. *)
Lemma concat_groups k l : (0 < k)%nat -> concat (groups k l) = l.
Proof.
  intros Hk. funelim (groups k l); simp groups; [lia|done|].
  cbn [concat]. rewrite H by lia. simpl. by rewrite take_drop.
Qed.

(** Every group is non-empty and holds at most [k] inputs. *)
Lemma groups_bounds k l g :
  g ∈ groups k l -> (0 < length g <= k)%nat.
Proof.
  funelim (groups k l); simp groups.
  - by intros ?%elem_of_nil.
  - by intros ?%elem_of_nil.
  - intros [->|Hg]%elem_of_cons; [|by apply H].
    simpl. rewrite length_take. lia.
Qed.

(** The number of groups is the ceiling of [length l / k]. *)
Lemma length_groups k l :
  (0 < k)%nat -> length (groups k l) = ((length l + k - 1) / k)%nat.
Proof.
  intros Hk. funelim (groups k l); simp groups; [lia| |].
  - cbn [length]. symmetry. apply Nat.div_small. lia.
  - cbn [length]. rewrite H by lia. rewrite length_drop.
    destruct (decide (k <= length l)%nat) as [Hle|Hgt].
    + replace (S (length l) + S k - 1)%nat with ((length l - k + S k - 1) + 1 * S k)%nat by lia.
      rewrite Nat.div_add by lia. lia.
    + replace (length l - k)%nat with 0%nat by lia.
      rewrite (Nat.div_small (0 + S k - 1)) by lia.
      symmetry. replace (S (length l) + S k - 1)%nat with ((length l) + 1 * S k)%nat by lia.
      rewrite Nat.div_add by lia. rewrite Nat.div_small; lia.
Qed.

(** Every group but the last holds exactly [k] inputs. *)
Lemma groups_full k l i g :
  groups k l !! i = Some g -> (S i < length (groups k l))%nat -> length g = k.
Proof.
  revert i. funelim (groups k l); intros i; simp groups; try done.
  destruct i as [|i]; simpl.
  - intros [= <-] Hlen. simpl. rewrite length_take.
    destruct (drop k l) as [|y l'] eqn:Ed.
    + rewrite groups_nil in Hlen. simpl in Hlen. lia.
    + assert (length (drop k l) > 0)%nat by (rewrite Ed; simpl; lia).
      rewrite length_drop in *. lia.
  - intros Hi Hlen. eapply H; [exact Hi|lia].
Qed.

End Groups.

Lemma chunk_plan_length k urls : length (chunk_plan k urls) = length (groups k urls).
Proof. unfold chunk_plan. by rewrite length_imap. Qed.

Lemma chunk_plan_lookup k urls i c :
  chunk_plan k urls !! i = Some c <->
  chunk_index c = i /\ groups k urls !! i = Some (chunk_inputs c).
Proof.
  unfold chunk_plan. rewrite list_lookup_imap.
  destruct (groups k urls !! i) as [g|]; simpl.
  - split.
    + by intros [= <-].
    + intros [<- [= ->]]. by destruct c.
  - split; [done | by intros [_ ?]].
Qed.

Lemma chunk_plan_inputs k urls :
  chunk_inputs <$> chunk_plan k urls = groups k urls.
Proof.
  unfold chunk_plan. apply list_eq. intros i.
  rewrite list_lookup_fmap, list_lookup_imap.
  by destruct (groups k urls !! i).
Qed.

Lemma groups_sizes_23 {A} (l : list A) :
  length l = 23%nat -> length <$> groups 10 l = [10; 10; 3]%nat.
Proof.
  intros Hl. do 23 (destruct l as [|? l]; [done|]). destruct l; [|done].
  repeat (simp groups; cbn [take drop]). reflexivity.
Qed.

Lemma chunk_plan_nil k : chunk_plan k [] = [].
Proof. unfold chunk_plan. by rewrite groups_nil. Qed.

Section Run.
Variable s3_glob : string -> list string.
Variable engine : list call -> call -> option exn.

Lemma main_zero_inputs cfg w :
  s3_glob (build_url cfg (input_path cfg)) = [] ->
  exists cs,
    calls (main s3_glob engine cfg w).2 = calls w ++ cs /\
    cs `prefix_of` zero_input_calls cfg /\
    ((main s3_glob engine cfg w).1 = Ok tt -> cs = zero_input_calls cfg) /\
    (forall e, (main s3_glob engine cfg w).1 = Raise e ->
               exists done c, engine done c = Some e).
Proof.
  intros Hg. unfold main, iter_chunks. rewrite Hg. cbn [fmap list_fmap].
  rewrite chunk_plan_nil. unfold bind, invoke, print, ret, zero_input_calls. cbn [for_each].
  destruct w as [h out cs0]. cbn [heap stdout calls].
  repeat (match goal with
          | |- context [engine ?d ?c] => destruct (engine d c) eqn:?
          end; cbn [fst snd calls heap stdout for_each ret]).
  all: repeat rewrite <- app_assoc; cbn [app].
  all: eexists; (split; [reflexivity|]); (split; [by eexists|]).
  all: split; [first [by intros [=] | done] | intros e0 E0; first [discriminate E0 | injection E0 as <-; eauto]].
Qed.

End Run.

Lemma calls_of_app ss1 ss2 : calls_of (ss1 ++ ss2) = calls_of ss1 ++ calls_of ss2.
Proof. unfold calls_of. apply omap_app. Qed.


Section Run.
Variable s3_glob : string -> list string.
Variable engine : list call -> call -> option exn.

Lemma exec_app ss1 ss2 w :
  exec engine (ss1 ++ ss2) w =
    (let* _ := exec engine ss1 in exec engine ss2) w.
Proof.
  revert w. induction ss1 as [|[c|l] ss1 IH]; intros w; cbn [app exec]; [done| |].
  - unfold bind at 1 2 3. destruct (invoke engine c w) as [[[]|e] w1]; [|done].
    rewrite IH. done.
  - unfold bind at 1 2 3. destruct (print l w) as [[[]|e] w1]; [|done].
    rewrite IH. done.
Qed.

Lemma for_each_exec (cs : list chunk) w :
  for_each cs (fun c => invoke engine (StoreChunk c)) w =
    exec engine ((fun c => Call (StoreChunk c)) <$> cs) w.
Proof.
  revert w. induction cs as [|c cs IH]; intros w; [done|].
  cbn [for_each fmap list_fmap exec]. unfold bind.
  destruct (invoke engine (StoreChunk c) w) as [[[]|e] w1]; [apply IH|done].
Qed.

(** The script is the run of its steps. *)
Lemma main_exec cfg w :
  main s3_glob engine cfg w =
    exec engine (script cfg (s3_glob (build_url cfg (input_path cfg)))) w.
Proof.
  unfold main, script, iter_chunks. cbv zeta.
  set (urls := (fun s => protocol +:+ s) <$> s3_glob (build_url cfg (input_path cfg))).
  set (plan := chunk_plan (inputs_per_chunk cfg) urls).
  cbn [app exec]. unfold bind, ret.
  repeat match goal with
  | |- context [invoke engine ?c ?w] =>
      destruct (invoke engine c w) as [[[]|?] ?]; [|done]
  | |- context [print ?l ?w] =>
      destruct (print l w) as [[[]|?] ?] eqn:?; [|done]
  end.
  rewrite for_each_exec, exec_app. unfold bind.
  destruct (exec engine _ _) as [[[]|?] ?]; [|done].
  cbn [exec]. unfold bind, ret.
  repeat match goal with
  | |- context [invoke engine ?c ?w] =>
      destruct (invoke engine c w) as [[[]|?] ?]; [|done]
  | |- context [print ?l ?w] =>
      destruct (print l w) as [[[]|?] ?] eqn:?; [|done]
  end.
  done.
Qed.

Lemma snoc_app {A} (l k : list A) x : l ++ x :: k = (l ++ [x]) ++ k.
Proof. by rewrite <- app_assoc. Qed.

Lemma returns_nil made : returns engine made [].
Proof. intros before c after E. by destruct before. Qed.

Lemma returns_cons made c cs :
  engine made c = None -> returns engine (made ++ [c]) cs -> returns engine made (c :: cs).
Proof.
  intros Ec R before c0 after E. destruct before as [|b before]; cbn [app] in E.
  - injection E as <- _. by rewrite app_nil_r.
  - injection E as <- E. rewrite snoc_app. by eapply R.
Qed.

Lemma returns_app_l made cs1 cs2 : returns engine made (cs1 ++ cs2) -> returns engine made cs1.
Proof.
  intros R before c after E. apply (R before c (after ++ cs2)).
  by rewrite E, <- app_assoc.
Qed.

(** A run of steps does a prefix of them, and stops at the first call that
    raises. *)
Lemma exec_ran ss w :
  exists done, ran engine ss w (exec engine ss w).1 (exec engine ss w).2 done.
Proof.
  unfold ran. revert w. induction ss as [|[c|l] ss IH]; intros w.
  - exists []. cbn. rewrite !app_nil_r. repeat split; try done. apply returns_nil.
  - cbn [exec]. unfold bind, invoke.
    destruct (engine (calls w) c) as [e|] eqn:Ec; cbn [fst snd].
    + exists [Call c]. split; [by apply prefix_cons, prefix_nil|].
      cbn. rewrite app_nil_r. repeat split; try done.
      exists [], c. cbn. rewrite app_nil_r. split; [done|]. split; [done|].
      apply returns_nil.
    + set (w1 := {| heap := heap w; stdout := stdout w; calls := calls w ++ [c] |}).
      destruct (IH w1) as (done & P & C & S & H & R).
      exists (Call c :: done). split; [by apply prefix_cons|].
      rewrite C, S, H. change (calls_of (Call c :: done)) with (c :: calls_of done).
      change (lines_of (Call c :: done)) with (lines_of done).
      cbn [calls stdout heap w1]. rewrite <- snoc_app. repeat split; try done.
      change (calls_of (Call c :: ss)) with (c :: calls_of ss).
      destruct (exec engine ss w1).1 as [[]|e].
      * destruct R as [-> R]. split; [done|]. by apply returns_cons.
      * destruct R as (before & c0 & -> & Ee & R).
        exists (Call c :: before), c0. split; [done|].
        change (calls_of (Call c :: before)) with (c :: calls_of before).
        rewrite snoc_app. split; [done|]. by apply returns_cons.
  - cbn [exec]. unfold bind, print. cbn [fst snd].
    set (w1 := {| heap := heap w; stdout := stdout w ++ [l]; calls := calls w |}).
    destruct (IH w1) as (done & P & C & S & H & R).
    exists (Say l :: done). split; [by apply prefix_cons|].
    rewrite C, S, H. change (calls_of (Say l :: done)) with (calls_of done).
    change (lines_of (Say l :: done)) with (l :: lines_of done).
    cbn [calls stdout heap w1]. rewrite <- snoc_app. repeat split; try done.
    change (calls_of (Say l :: ss)) with (calls_of ss).
    destruct (exec engine ss w1).1 as [[]|e].
    + destruct R as [-> R]. by split.
    + destruct R as (before & c0 & -> & Ee & R).
      by exists (Say l :: before), c0.
Qed.

(** What the script has done when it ends. *)
Lemma main_ran cfg w :
  exists done,
    ran engine (script cfg (s3_glob (build_url cfg (input_path cfg)))) w
      (main s3_glob engine cfg w).1 (main s3_glob engine cfg w).2 done.
Proof. rewrite main_exec. apply exec_ran. Qed.

End Run.

Lemma calls_of_fmap_Call (f : chunk -> call) (cs : list chunk) :
  calls_of ((fun c => Call (f c)) <$> cs) = f <$> cs.
Proof. induction cs as [|c cs IH]; [done|]. cbn. f_equal. exact IH. Qed.


(** The calls and the lines of the script. *)
Lemma calls_of_script cfg paths :
  calls_of (script cfg paths) = script_calls cfg ((fun s => protocol +:+ s) <$> paths).
Proof.
  unfold script, script_calls. cbv zeta.
  rewrite !calls_of_app, calls_of_fmap_Call. reflexivity.
Qed.


Lemma calls_of_prefix ss1 ss2 : ss1 `prefix_of` ss2 -> calls_of ss1 `prefix_of` calls_of ss2.
Proof. intros [k ->]. rewrite calls_of_app. by eexists. Qed.


(** A prefix of a list with one more element is the whole, or a prefix of
    the list. *)
Lemma prefix_snoc_inv {A} (l k : list A) x :
  l `prefix_of` k ++ [x] -> l = k ++ [x] \/ l `prefix_of` k.
Proof.
  intros [r E]. destruct r as [|y r _] using rev_ind.
  - left. by rewrite app_nil_r in E.
  - right. rewrite app_assoc in E. apply app_inj_tail in E as [-> _]. by eexists.
Qed.


(** [finalize_target] is the last call of a complete run, and only that. *)
Lemma script_calls_last cfg urls :
  exists init, script_calls cfg urls = init ++ [FinalizeTarget] /\ FinalizeTarget ∉ init.
Proof.
  unfold script_calls. eexists. split; [by rewrite app_assoc|].
  intros [Hin|Hin]%elem_of_app.
  - repeat (apply elem_of_cons in Hin as [Hin|Hin]; [discriminate Hin|]).
    by apply elem_of_nil in Hin.
  - apply list_elem_of_fmap in Hin as (c & [=] & _).
Qed.

Section Run.
Variable s3_glob : string -> list string.
Variable engine : list call -> call -> option exn.

(** The calls the script has made when it ends are the first calls of a
    complete run, and every one but the last has returned normally. *)
Lemma main_calls cfg w :
  exists cs,
    calls (main s3_glob engine cfg w).2 = calls w ++ cs /\
    cs `prefix_of` script_calls cfg (input_urls s3_glob cfg) /\
    forall before c after, cs = before ++ c :: after -> after <> [] ->
      engine (calls w ++ before) c = None.
Proof.
  destruct (main_ran s3_glob engine cfg w) as (done & P & C & _ & _ & R).
  exists (calls_of done). split; [done|].
  unfold input_urls. rewrite <- calls_of_script. split; [by apply calls_of_prefix|].
  intros before c after E Hne.
  destruct (main s3_glob engine cfg w).1 as [[]|e].
  - destruct R as [-> R]. by eapply R.
  - destruct R as (sb & c0 & -> & _ & R). rewrite calls_of_app in E. cbn in E.
    destruct after as [|a after _] using rev_ind; [done|].
    change (before ++ c :: after ++ [a]) with (before ++ (c :: after) ++ [a]) in E.
    rewrite app_assoc in E. apply app_inj_tail in E as [E _]. by eapply R.
Qed.

End Run.

Section Run.
Variable s3_glob : string -> list string.
Variable engine : list call -> call -> option exn.







End Run.

End Plans.
Export Plans.

(** * Rounding: the arithmetic of the axes *)

Module Floats.
Local Open Scope Q_scope.

(** ** Powers of two *)

Lemma pow2_Qpower e : pow2 e == 2 ^ e.
Proof.
  destruct e as [|p|p]; unfold pow2.
  - reflexivity.
  - change (Z.pow_pos 2 p) with (2 ^ Zpos p)%Z. by rewrite Zpower_Qpower.
  - change (2 ^ Zneg p) with (/ (2 ^ Zpos p)).
    rewrite <- (Zpower_Qpower 2 (Zpos p)) by done.
    rewrite <- Pos2Z.inj_pow. unfold Qeq, Qinv. simpl. lia.
Qed.

Lemma pow2_pos e : 0 < pow2 e.
Proof. rewrite pow2_Qpower. by apply Qpower_0_lt. Qed.

Lemma pow2_add a b : pow2 (a + b) == pow2 a * pow2 b.
Proof. rewrite !pow2_Qpower. by apply Qpower_plus. Qed.

Lemma pow2_le a b : (a <= b)%Z -> pow2 a <= pow2 b.
Proof. intros. rewrite !pow2_Qpower. by apply Qpower_le_compat_l. Qed.

Lemma pow2_lt a b : (a < b)%Z -> pow2 a < pow2 b.
Proof. intros. rewrite !pow2_Qpower. by apply Qpower_lt_compat_l. Qed.

Lemma pow2_lt_inv a b : pow2 a < pow2 b -> (a < b)%Z.
Proof.
  intros Hlt. destruct (Z_lt_le_dec a b) as [|Hle]; [done|].
  apply pow2_le in Hle. lra.
Qed.

Lemma pow2_nonneg_Z a : (0 <= a)%Z -> pow2 a = inject_Z (2 ^ a).
Proof. destruct a; [done|done|lia]. Qed.

Lemma pow2_half a : pow2 (a - 1) == pow2 a * (1 # 2).
Proof. replace (a - 1)%Z with (a + -1)%Z by lia. by rewrite pow2_add. Qed.

(** ** Rounding to an integer *)

Lemma rne_error x : Qabs (inject_Z (rne x) - x) <= 1 # 2.
Proof.
  unfold rne. pose proof (Qfloor_le x) as Hlo. pose proof (Qlt_floor x) as Hhi.
  rewrite inject_Z_plus in Hhi. change (inject_Z 1) with 1 in Hhi.
  apply Qabs_Qle_condition.
  destruct (Qcompare_spec (x - inject_Z (Qfloor x)) (1 # 2)) as [He|Hl|Hg].
  - destruct (Z.even (Qfloor x)); rewrite ?inject_Z_plus; change (inject_Z 1) with 1;
      split; lra.
  - split; lra.
  - rewrite inject_Z_plus. change (inject_Z 1) with 1. split; lra.
Qed.

Lemma rne_bound x n : Qabs x <= inject_Z n -> (Z.abs (rne x) <= n)%Z.
Proof.
  intros Hx. apply Qabs_Qle_condition in Hx as [Hlo Hhi].
  pose proof (Qfloor_le x) as Hf. pose proof (Qlt_floor x) as Hf'.
  assert (- n <= Qfloor x)%Z as H1.
  { rewrite <- (Qfloor_Z (- n)). apply Qfloor_resp_le. by rewrite inject_Z_opp. }
  assert (Qfloor x <= n)%Z as H2.
  { rewrite <- (Qfloor_Z n). by apply Qfloor_resp_le. }
  unfold rne.
  destruct (Qcompare_spec (x - inject_Z (Qfloor x)) (1 # 2)) as [He|Hl|Hg].
  - destruct (Z.even (Qfloor x)); [lia|].
    assert (Qfloor x <> n).
    { intros E. rewrite E in He. lra. }
    lia.
  - lia.
  - assert (Qfloor x <> n).
    { intros E. rewrite E in Hg. lra. }
    lia.
Qed.

#[export] Instance rne_proper : Proper (Qeq ==> eq) rne.
Proof.
  intros x y E. unfold rne. rewrite (Qfloor_comp _ _ E).
  assert ((x - inject_Z (Qfloor y) ?= 1 # 2) = (y - inject_Z (Qfloor y) ?= 1 # 2)) as ->
    by (by rewrite E).
  done.
Qed.

Lemma rne_Z n : rne (inject_Z n) = n.
Proof.
  unfold rne. rewrite Qfloor_Z.
  destruct (Qcompare_spec (inject_Z n - inject_Z n) (1 # 2)); [lra|done|lra].
Qed.

(** ** The binary logarithm *)

Lemma ilog2_le a : 0 < a -> pow2 (ilog2 a) <= a.
Proof.
  intros Ha. unfold ilog2.
  destruct (Qle_bool _ a) eqn:E; [by apply Qle_bool_iff|].
  destruct a as [n d]. cbn [Qnum Qden].
  assert (0 < n)%Z as Hn by (unfold Qlt in Ha; simpl in Ha; lia).
  destruct (Z.log2_spec n Hn) as [Hn1 _].
  destruct (Z.log2_spec (Zpos d) eq_refl) as [_ Hd2].
  pose proof (Z.log2_nonneg n). pose proof (Z.log2_nonneg (Zpos d)).
  set (ln := Z.log2 n) in *. set (ld := Z.log2 (Zpos d)) in *.
  replace (ln - ld - 1)%Z with (ln + - (ld + 1))%Z by lia.
  rewrite pow2_add. rewrite (pow2_nonneg_Z ln) by lia.
  assert (pow2 (- (ld + 1)) == / inject_Z (2 ^ (ld + 1))) as ->.
  { rewrite pow2_Qpower, Qpower_opp, <- pow2_Qpower, pow2_nonneg_Z by lia. reflexivity. }
  rewrite (Qmake_Qdiv n d).
  assert (0 < inject_Z (2 ^ (ld + 1))) as Hp.
  { rewrite <- pow2_nonneg_Z by lia. apply pow2_pos. }
  assert (0 < inject_Z (Zpos d)) as Hd by done.
  assert (inject_Z (Z.succ ld) = inject_Z (ld + 1)) as _ by done.
  unfold Qdiv.
  apply Qle_trans with (inject_Z n * / inject_Z (2 ^ (ld + 1))).
  - apply Qmult_le_compat_r; [unfold Qle; simpl; lia|]. apply Qinv_le_0_compat. lra.
  - apply Qmult_le_l; [unfold Qlt; simpl; lia|].
    apply Qle_shift_inv_l; [done|].
    rewrite Qmult_comm. apply Qle_shift_div_r; [done|].
    rewrite Qmult_1_l. unfold Qle; simpl.
    replace (ld + 1)%Z with (Z.succ ld) by lia. lia.
Qed.

Lemma ilog2_lt a k : 0 < a -> a < pow2 k -> (ilog2 a < k)%Z.
Proof.
  intros Ha Hk. apply pow2_lt_inv. pose proof (ilog2_le a Ha). lra.
Qed.

Lemma inject_Z_le a b : (a <= b)%Z -> inject_Z a <= inject_Z b.
Proof. intros. unfold Qle. simpl. lia. Qed.

Lemma inject_Z_lt a b : (a < b)%Z -> inject_Z a < inject_Z b.
Proof. intros. unfold Qlt. simpl. lia. Qed.

(** Rounding a rational of magnitude below [2^k]: the result is finite, off by
    at most half a unit in the last place, and of magnitude at most [2^k]. *)
Lemma round_to_spec f q k :
  (0 <= prec f)%Z -> (emin f <= k - prec f)%Z -> (k < emax f)%Z ->
  Qabs q < pow2 k ->
  finite (round_to f q) /\
  Qabs (fval (round_to f q) - q) <= pow2 (k - prec f - 1) /\
  Qabs (fval (round_to f q)) <= pow2 k.
Proof.
  intros Hp Hmin Hmax Hq. unfold round_to.
  set (e := Z.max (emin f) (ilog2 (Qabs q) - prec f + 1)).
  set (x := q / pow2 e). set (m := rne x). set (r := inject_Z m * pow2 e).
  pose proof (pow2_pos e) as He. pose proof (pow2_pos k) as Hk.
  pose proof (pow2_pos (k - prec f - 1)) as Hk'.
  assert (x * pow2 e == q) as Hx by (unfold x; field; lra).
  destruct (Qeq_dec q 0) as [Hz|Hnz].
  { assert (m = 0%Z) as ->.
    { unfold m. rewrite <- (rne_Z 0). apply rne_proper. unfold x.
      setoid_rewrite Hz. field. lra. }
    rewrite Z.eqb_refl. cbn [fval finite]. split; [done|].
    setoid_rewrite Hz. split; apply Qabs_Qle_condition; split; lra. }
  assert (0 < Qabs q) as Hpos.
  { pose proof (Qabs_nonneg q) as Hn. apply Qle_lt_or_eq in Hn as [?|Hn0]; [done|].
    exfalso. apply Hnz. revert Hn0. apply Qabs_case; intros; lra. }
  assert (e <= k - prec f)%Z as Hek.
  { pose proof (ilog2_lt _ _ Hpos Hq). unfold e. lia. }
  assert (Qabs (r - q) <= pow2 (k - prec f - 1)) as Herr.
  { assert (r - q == (inject_Z m - x) * pow2 e) as -> by (unfold r; rewrite <- Hx; ring).
    rewrite Qabs_Qmult, (Qabs_pos (pow2 e)) by lra.
    apply Qle_trans with ((1 # 2) * pow2 e).
    - apply Qmult_le_compat_r; [apply rne_error | lra].
    - rewrite Qmult_comm, <- pow2_half. apply pow2_le. lia. }
  assert (Qabs r <= pow2 k) as Hr.
  { assert (pow2 k == inject_Z (2 ^ (k - e)) * pow2 e) as Hke.
    { rewrite <- pow2_nonneg_Z by lia. rewrite <- pow2_add. by replace (k - e + e)%Z with k by lia. }
    unfold r. rewrite Qabs_Qmult, (Qabs_pos (pow2 e)), Hke by lra.
    apply Qmult_le_compat_r; [|lra].
    change (Qabs (inject_Z m)) with (inject_Z (Z.abs m)). apply inject_Z_le, rne_bound.
    apply Qmult_le_r with (z := pow2 e); [done|]. rewrite <- Hke.
    rewrite <- (Qabs_pos (pow2 e)) at 1 by lra. rewrite <- Qabs_Qmult, Hx. lra. }
  destruct (Z.eqb_spec m 0) as [Hm|Hm].
  { assert (r == 0) as Hr0 by (unfold r; rewrite Hm; ring).
    cbn [fval finite]. split; [done|]. split.
    - by rewrite <- Hr0.
    - apply Qabs_Qle_condition. split; lra. }
  destruct (Qle_bool (pow2 (emax f)) (Qabs r)) eqn:Ho.
  { apply Qle_bool_iff in Ho. pose proof (pow2_le (k + 1) (emax f) ltac:(lia)).
    pose proof (pow2_lt k (k + 1) ltac:(lia)). lra. }
  cbn [fval finite]. split; [done|]. by rewrite Qred_correct.
Qed.

Lemma finite_Ffin x : finite x -> ~ fval x == 0 -> exists q, x = Ffin q.
Proof.
  destruct x as [| |s|q]; simpl; try done. eauto.
Qed.

(** An integer of fewer than [prec] bits is a number of the format. *)
Lemma round_to_Z f n :
  (0 < prec f)%Z -> (emin f <= 0)%Z -> (prec f < emax f)%Z ->
  (Z.abs n < 2 ^ prec f)%Z ->
  finite (round_to f (inject_Z n)) /\ fval (round_to f (inject_Z n)) == inject_Z n.
Proof.
  intros Hp Hmin Hmax Hn. unfold round_to.
  set (q := inject_Z n).
  set (e := Z.max (emin f) (ilog2 (Qabs q) - prec f + 1)).
  set (x := q / pow2 e). set (m := rne x). set (r := inject_Z m * pow2 e).
  pose proof (pow2_pos e) as He.
  destruct (Z.eq_dec n 0%Z) as [->|Hnz].
  { assert (m = 0%Z) as ->.
    { unfold m. rewrite <- (rne_Z 0). apply rne_proper. unfold x, q. field. lra. }
    rewrite Z.eqb_refl. cbn [fval finite]. split; [done|]. reflexivity. }
  assert (Qabs q < pow2 (prec f)) as Hq.
  { unfold q. change (Qabs (inject_Z n)) with (inject_Z (Z.abs n)).
    rewrite pow2_nonneg_Z by lia. by apply inject_Z_lt. }
  assert (0 < Qabs q) as Hpos.
  { unfold q. change (Qabs (inject_Z n)) with (inject_Z (Z.abs n)).
    change 0 with (inject_Z 0). apply inject_Z_lt. lia. }
  assert (e <= 0)%Z as He0.
  { pose proof (ilog2_lt _ _ Hpos Hq). unfold e. lia. }
  assert (pow2 e * inject_Z (2 ^ (- e)) == 1) as Hinv.
  { rewrite <- pow2_nonneg_Z by lia. rewrite <- pow2_add.
    by replace (e + - e)%Z with 0%Z by lia. }
  assert (x == inject_Z (n * 2 ^ (- e))) as Hx.
  { unfold x, q. rewrite inject_Z_mult.
    assert (/ pow2 e == inject_Z (2 ^ (- e))) as Hi.
    { rewrite <- (Qmult_1_l (/ pow2 e)), <- Hinv. field. lra. }
    unfold Qdiv. by rewrite Hi. }
  assert (m = (n * 2 ^ (- e))%Z) as Hm.
  { unfold m. rewrite <- rne_Z. by apply rne_proper. }
  assert (r == q) as Hr.
  { unfold r, q. rewrite Hm, inject_Z_mult.
    rewrite <- Qmult_assoc, (Qmult_comm (inject_Z (2 ^ (- e)))), Hinv. ring. }
  destruct (Z.eqb_spec m 0) as [Hm0|Hm0].
  { exfalso. rewrite Hm in Hm0. apply Z.mul_eq_0 in Hm0 as [?|Hm0]; [done|].
    pose proof (Z.pow_pos_nonneg 2 (- e)). lia. }
  destruct (Qle_bool (pow2 (emax f)) (Qabs r)) eqn:Ho.
  { apply Qle_bool_iff in Ho. rewrite Hr in Ho.
    pose proof (pow2_lt (prec f) (emax f) Hmax). lra. }
  cbn [fval finite]. split; [done|]. by rewrite Qred_correct.
Qed.

Lemma of_nat_spec n :
  (Z.of_nat n < 2 ^ 53)%Z -> finite (of_nat n) /\ fval (of_nat n) == inject_Z (Z.of_nat n).
Proof.
  intros Hn. unfold of_nat, of_Z, round64. apply round_to_Z; simpl; lia.
Qed.

Lemma of_nat_pos n :
  (0 < n)%nat -> (Z.of_nat n < 2 ^ 53)%Z -> exists q, of_nat n = Ffin q /\ q == inject_Z (Z.of_nat n).
Proof.
  intros Hpos Hn. destruct (of_nat_spec n Hn) as [Hf Hv].
  destruct (finite_Ffin _ Hf) as [q Hq].
  - rewrite Hv. intros E. unfold Qeq in E. simpl in E. lia.
  - exists q. split; [done|]. by rewrite Hq in Hv.
Qed.

(** ** The binary64 operations on finite data *)

Section Ops.
Variable k : Z.
Hypothesis Hlo : (-1021 <= k)%Z.
Hypothesis Hhi : (k < 1024)%Z.

Lemma round64_spec q :
  Qabs q < pow2 k ->
  finite (round64 q) /\
  Qabs (fval (round64 q) - q) <= pow2 (k - 54) /\
  Qabs (fval (round64 q)) <= pow2 k.
Proof.
  intros Hq. replace (k - 54)%Z with (k - prec binary64 - 1)%Z by (simpl; lia).
  apply round_to_spec; simpl; [lia|lia|lia|done].
Qed.

Lemma fadd_spec x y :
  finite x -> finite y -> Qabs (fval x + fval y) < pow2 k ->
  finite (fadd x y) /\
  Qabs (fval (fadd x y) - (fval x + fval y)) <= pow2 (k - 54) /\
  Qabs (fval (fadd x y)) <= pow2 k.
Proof.
  pose proof (pow2_pos (k - 54)). pose proof (pow2_pos k).
  destruct x as [| |a|a], y as [| |b|b]; cbn [fadd fval finite]; try done; intros _ _ Hq.
  - split; [done|]. split; apply Qabs_Qle_condition; split; lra.
  - split; [done|]. rewrite Qplus_0_l in Hq. split; [|lra].
    apply Qabs_Qle_condition; split; lra.
  - split; [done|]. rewrite Qplus_0_r in Hq. split; [|lra].
    apply Qabs_Qle_condition; split; lra.
  - by apply round64_spec.
Qed.

Lemma fval_fopp x : fval (fopp x) == - fval x.
Proof. destruct x; cbn [fopp fval]; lra. Qed.

Lemma finite_fopp x : finite x -> finite (fopp x).
Proof. by destruct x. Qed.

Lemma fsub_spec x y :
  finite x -> finite y -> Qabs (fval x - fval y) < pow2 k ->
  finite (fsub x y) /\
  Qabs (fval (fsub x y) - (fval x - fval y)) <= pow2 (k - 54) /\
  Qabs (fval (fsub x y)) <= pow2 k.
Proof.
  intros Hx Hy Hq. unfold fsub.
  destruct (fadd_spec x (fopp y) Hx (finite_fopp _ Hy)) as (F & E & B).
  - by rewrite fval_fopp.
  - split; [done|]. split; [|done]. rewrite fval_fopp in E. exact E.
Qed.

Lemma fmul_spec x y :
  finite x -> finite y -> Qabs (fval x * fval y) < pow2 k ->
  finite (fmul x y) /\
  Qabs (fval (fmul x y) - fval x * fval y) <= pow2 (k - 54) /\
  Qabs (fval (fmul x y)) <= pow2 k.
Proof.
  pose proof (pow2_pos (k - 54)). pose proof (pow2_pos k).
  destruct x as [| |a|a], y as [| |b|b]; cbn [fmul fval finite]; try done; intros _ _ Hq;
    try (split; [done|]; split; apply Qabs_Qle_condition; split; lra).
  by apply round64_spec.
Qed.

Lemma fdiv_spec x b :
  finite x -> ~ b == 0 -> Qabs (fval x / b) < pow2 k ->
  finite (fdiv x (Ffin b)) /\
  Qabs (fval (fdiv x (Ffin b)) - fval x / b) <= pow2 (k - 54) /\
  Qabs (fval (fdiv x (Ffin b))) <= pow2 k.
Proof.
  pose proof (pow2_pos (k - 54)). pose proof (pow2_pos k).
  destruct x as [| |a|a]; cbn [fdiv fval finite]; try done; intros _ Hb Hq.
  - split; [done|]. split; apply Qabs_Qle_condition; split; try lra.
    + unfold Qdiv. lra.
    + unfold Qdiv. lra.
  - by apply round64_spec.
Qed.

End Ops.

Lemma to_f32_spec x k :
  (-125 <= k)%Z -> (k < 128)%Z ->
  finite x -> Qabs (fval x) < pow2 k ->
  finite (to_f32 x) /\
  Qabs (fval (to_f32 x) - fval x) <= pow2 (k - 25) /\
  Qabs (fval (to_f32 x)) <= pow2 k.
Proof.
  intros Hlo Hhi Hx Hq. pose proof (pow2_pos (k - 25)). pose proof (pow2_pos k).
  destruct x as [| |s|q]; cbn [to_f32 fval finite] in *; try done.
  - split; [done|]. split; apply Qabs_Qle_condition; split; lra.
  - replace (k - 25)%Z with (k - prec binary32 - 1)%Z by (simpl; lia).
    apply round_to_spec; simpl; [lia|lia|lia|done].
Qed.

Lemma Qabs_bound a b : Qabs a <= b <-> - b <= a /\ a <= b.
Proof. apply Qabs_Qle_condition. Qed.

Ltac unabs :=
  repeat match goal with
  | H : Qabs _ <= _ |- _ => apply Qabs_Qle_condition in H; destruct H
  | H : _ /\ _ |- _ => destruct H
  end.

Ltac pow2_consts :=
  repeat match goal with
  | |- context [pow2 ?e] =>
      let c := eval cbv in (pow2 e) in change (pow2 e) with c
  | H : context [pow2 ?e] |- _ =>
      let c := eval cbv in (pow2 e) in change (pow2 e) with c in H
  end.

Section Axis.
Variables (c s : float) (n : nat) (qs : Q).
Hypothesis Hc : finite c.
Hypothesis Hcb : Qabs (fval c) <= 256.
Hypothesis Hs : s = Ffin qs.
Hypothesis Hslo : 1 # 2048 <= qs.
Hypothesis Hn : (0 < n)%nat.
Hypothesis Hext : qs * inject_Z (Z.of_nat n) <= 512.

Abbreviation N := (inject_Z (Z.of_nat n)).

Lemma axis_len_bound : N <= 1048576 /\ 1 <= N.
Proof.
  split.
  - nra.
  - change 1 with (inject_Z 1). apply inject_Z_le. lia.
Qed.

Lemma axis_len_small : (Z.of_nat n < 2 ^ 53)%Z.
Proof.
  destruct axis_len_bound as [Hb _].
  assert (Z.of_nat n <= 1048576)%Z; [|lia].
  unfold Qle in Hb. simpl in Hb. lia.
Qed.

(** The step numpy derives from the end points is the rounded step, up to
    [2^-40]. *)
Lemma axis_step :
  exists qstep,
    fdiv (fsub (fadd c (fmul s (of_nat n))) c) (of_nat n) = Ffin qstep /\
    Qabs (qstep - qs) <= pow2 (-40).
Proof.
  destruct axis_len_bound as [HN1 HN2].
  destruct (of_nat_pos n Hn axis_len_small) as (qn & En & Hqn).
  rewrite En, Hs.
  (* t1 = s * n *)
  destruct (fmul_spec 10 ltac:(lia) ltac:(lia) (Ffin qs) (Ffin qn)) as (F1 & E1 & B1);
    [done|done| |].
  { cbn [fval]. rewrite Hqn. apply Qabs_Qlt_condition. pow2_consts. split; nra. }
  set (t1 := fmul (Ffin qs) (Ffin qn)) in *.
  cbn [fval] in E1. rewrite Hqn in E1.
  (* ur = c + t1 *)
  destruct (fadd_spec 11 ltac:(lia) ltac:(lia) c t1) as (F2 & E2 & B2); [done|done| |].
  { apply Qabs_Qlt_condition. pow2_consts. unabs. split; lra. }
  set (ur := fadd c t1) in *.
  (* delta = ur - c *)
  destruct (fsub_spec 11 ltac:(lia) ltac:(lia) ur c) as (F3 & E3 & B3); [done|done| |].
  { apply Qabs_Qlt_condition. pow2_consts. unabs. split; lra. }
  set (delta := fsub ur c) in *.
  (* step = delta / n *)
  assert (~ qn == 0) as Hqn0 by (rewrite Hqn; lra).
  assert (Qabs (fval delta - qs * N) <= pow2 (-41)) as Ed.
  { apply Qabs_Qle_condition. pow2_consts. unabs. split; lra. }
  assert (Qabs (fval delta / qn - qs) <= pow2 (-41)) as Eq.
  { rewrite Hqn. apply Qabs_Qle_condition. pow2_consts. unabs.
    assert (fval delta / N - qs == (fval delta - qs * N) / N) as -> by (field; lra).
    split.
    - apply Qle_shift_div_l; [lra|]. nra.
    - apply Qle_shift_div_r; [lra|]. nra. }
  destruct (fdiv_spec 10 ltac:(lia) ltac:(lia) delta qn) as (F4 & E4 & B4); [done|done| |].
  { apply Qabs_Qlt_condition. pow2_consts. unabs. split; nra. }
  destruct (finite_Ffin _ F4) as [qstep Hq].
  { pow2_consts. unabs. intros E0. rewrite E0 in *. lra. }
  exists qstep. split; [done|]. rewrite Hq in E4. cbn [fval] in E4.
  apply Qabs_Qle_condition. pow2_consts. unabs. split; lra.
Qed.

(** Every element of the axis is within [2^-14] of [corner + step * i]. *)
Lemma axis_value i :
  (i < n)%nat ->
  exists z, axis c s n !! i = Some z /\ finite z /\
    Qabs (fval z - (fval c + qs * inject_Z (Z.of_nat i))) <= pow2 (-14).
Proof.
  intros Hi. destruct axis_len_bound as [HN1 HN2].
  destruct axis_step as (qstep & Estep & Hstep).
  unfold axis, Py.linspace. rewrite list_lookup_fmap, lookup_seq_lt by done.
  cbn [fmap option_fmap option_map Nat.add]. rewrite Estep. cbn [is_zero]. eexists. split; [reflexivity|].
  set (I := inject_Z (Z.of_nat i)).
  assert (0 <= I /\ I <= N) as [HI0 HI1].
  { unfold I. split; [change 0 with (inject_Z 0)|]; apply inject_Z_le; lia. }
  destruct (of_nat_spec i) as [Fi Vi]; [pose proof axis_len_small; lia|]. fold I in Vi.
  assert (0 <= qs * I /\ qs * I <= 512) as [HqI0 HqI1].
  { split; [nra|]. apply Qle_trans with (qs * N); [|done].
    apply Qmult_le_l; [lra|done]. }
  (* p = i * step *)
  assert (Qabs (I * qstep - I * qs) <= pow2 (-20)) as Ew.
  { apply Qabs_Qle_condition. pow2_consts. unabs. split; nra. }
  destruct (fmul_spec 10 ltac:(lia) ltac:(lia) (of_nat i) (Ffin qstep)) as (F5 & E5 & B5);
    [done|done| |].
  { cbn [fval]. rewrite Vi. apply Qabs_Qlt_condition. pow2_consts. unabs. split; lra. }
  set (p := fmul (of_nat i) (Ffin qstep)) in *.
  cbn [fval] in E5. rewrite Vi in E5.
  (* y = p + c *)
  destruct (fadd_spec 11 ltac:(lia) ltac:(lia) p c) as (F6 & E6 & B6); [done|done| |].
  { apply Qabs_Qlt_condition. pow2_consts. unabs. split; lra. }
  set (y := fadd p c) in *.
  assert (Qabs (fval y - (fval c + qs * I)) <= pow2 (-19)) as Ey.
  { apply Qabs_Qle_condition. pow2_consts. unabs. split; lra. }
  (* z = float32(y) *)
  destruct (to_f32_spec y 10 ltac:(lia) ltac:(lia) F6) as (F7 & E7 & B7).
  { apply Qabs_Qlt_condition. pow2_consts. unabs. split; lra. }
  split; [done|].
  apply Qabs_Qle_condition. pow2_consts. unabs. split; lra.
Qed.

End Axis.

Lemma rne_near x : inject_Z (rne x) - x <= 1 # 2 /\ x - inject_Z (rne x) <= 1 # 2.
Proof. pose proof (rne_error x) as H. apply Qabs_Qle_condition in H. split; lra. Qed.

(** [round(x, 3)] of a number of magnitude up to 255: finite, within 0.0005
    (and one binary64 rounding) of [x], of magnitude at most 256. *)
Lemma round3_spec x :
  finite x -> Qabs (fval x) <= 255 ->
  finite (Py.round x 3) /\
  Qabs (fval (Py.round x 3) - fval x) <= (1 # 2000) + pow2 (-46) /\
  Qabs (fval (Py.round x 3)) <= 256.
Proof.
  intros Hx Hb. destruct x as [|sx|sg|q]; cbn [finite fval] in Hx, Hb; [done|done| |].
  - unfold Py.round. cbn [fval finite]. split; [done|]. pow2_consts.
    split; apply Qabs_Qle_condition; split; lra.
  - unfold Py.round. change (323 <? Z.of_nat 3)%Z with false. cbv iota.
    change (inject_Z (10 ^ Z.of_nat 3)) with 1000.
    set (n := rne (q * 1000)).
    destruct (rne_near (q * 1000)) as [Hn1 Hn2]. fold n in Hn1, Hn2.
    apply Qabs_Qle_condition in Hb as [Hb1 Hb2].
    destruct (Z.eqb_spec n 0) as [Hz|Hz].
    + rewrite Hz in Hn1, Hn2. change (inject_Z 0) with 0 in *.
      cbn [fval finite]. split; [done|]. pow2_consts.
      split; apply Qabs_Qle_condition; split; lra.
    + destruct (round64_spec 8 ltac:(lia) ltac:(lia) (inject_Z n / 1000)) as (F & E & B).
      { apply Qabs_Qlt_condition. pow2_consts.
        split; [apply Qlt_shift_div_l | apply Qlt_shift_div_r]; lra. }
      split; [done|]. pow2_consts. unabs.
      assert (inject_Z n / 1000 - q <= 1 # 2000 /\ q - inject_Z n / 1000 <= 1 # 2000) as [? ?].
      { split; (apply Qmult_le_r with (z := 1000); [lra|]); field_simplify; lra. }
      change (fval (Ffin q)) with q. split; apply Qabs_Qle_condition; split; lra.
Qed.

(** [round(x, 3)] of a resolution above 0.0005: a positive number, at least
    [2^-11] and at most [x + 0.001]. *)
Lemma round3_step q :
  1 # 2000 < q -> q <= 511999 # 1000 ->
  exists qs, Py.round (Ffin q) 3 = Ffin qs /\ 1 # 2048 <= qs /\ qs <= q + (1 # 1000).
Proof.
  intros Hlo Hhi. unfold Py.round. change (323 <? Z.of_nat 3)%Z with false. cbv iota.
  change (inject_Z (10 ^ Z.of_nat 3)) with 1000.
  set (n := rne (q * 1000)).
  destruct (rne_near (q * 1000)) as [Hn1 Hn2]. fold n in Hn1, Hn2.
  assert (1 <= n)%Z as Hn.
  { assert (0 < inject_Z n) as Hp by lra. unfold Qlt in Hp. simpl in Hp. lia. }
  assert (1 <= inject_Z n) as Hn' by (change 1 with (inject_Z 1); by apply inject_Z_le).
  destruct (Z.eqb_spec n 0) as [Hz|Hz]; [lia|].
  assert (inject_Z n / 1000 - q <= 1 # 2000 /\ 1 # 1000 <= inject_Z n / 1000) as [? ?].
  { split; (apply Qmult_le_r with (z := 1000); [lra|]); field_simplify; lra. }
  destruct (round64_spec 9 ltac:(lia) ltac:(lia) (inject_Z n / 1000)) as (F & E & B).
  { apply Qabs_Qlt_condition. pow2_consts. split; lra. }
  pow2_consts. unabs.
  destruct (finite_Ffin _ F) as [qs Hq].
  { intros E0. rewrite E0 in *. lra. }
  exists qs. rewrite Hq in *. cbn [fval] in *. split; [done|]. split; lra.
Qed.

Lemma in_range_step c s n : in_range c s n -> s = Ffin (fval s).
Proof.
  intros (_ & _ & Fs & Hs & _).
  destruct (finite_Ffin s Fs) as [q ->]; [intros E; rewrite E in Hs; lra|done].
Qed.

Lemma axis_near c s n i :
  in_range c s n -> (i < n)%nat ->
  exists z, axis c s n !! i = Some z /\ finite z /\
    Qabs (fval z - (fval c + fval s * inject_Z (Z.of_nat i))) <= pow2 (-14).
Proof.
  intros R Hi. pose proof (in_range_step _ _ _ R) as Es.
  destruct R as (Fc & Hc & _ & Hs & Hn & He).
  by apply (axis_value c s n (fval s)).
Qed.

Lemma Qnat_succ_le i j : (i < j)%nat -> inject_Z (Z.of_nat i) + 1 <= inject_Z (Z.of_nat j).
Proof.
  intros Hij. change 1 with (inject_Z 1). rewrite <- inject_Z_plus. apply inject_Z_le. lia.
Qed.

Lemma Qnat_nonneg i : 0 <= inject_Z (Z.of_nat i).
Proof. change 0 with (inject_Z 0). apply inject_Z_le. lia. Qed.

(** Later elements are greater. *)
Lemma axis_increasing c s n i j zi zj :
  in_range c s n -> (i < j)%nat ->
  axis c s n !! i = Some zi -> axis c s n !! j = Some zj ->
  fval zi < fval zj.
Proof.
  intros R Hij Ei Ej.
  assert (j < n)%nat as Hj by (apply lookup_lt_Some in Ej; by rewrite length_axis in Ej).
  destruct (axis_near c s n i R ltac:(lia)) as (z1 & E1 & _ & B1).
  destruct (axis_near c s n j R Hj) as (z2 & E2 & _ & B2).
  rewrite Ei in E1. rewrite Ej in E2. injection E1 as <-. injection E2 as <-.
  destruct R as (_ & _ & _ & Hs & _).
  pose proof (Qnat_succ_le i j Hij) as HIJ.
  set (I := inject_Z (Z.of_nat i)) in *. set (J := inject_Z (Z.of_nat j)) in *.
  assert (0 <= fval s * (J - (I + 1))) as Hp by (apply Qmult_le_0_compat; lra).
  pow2_consts. unabs. lra.
Qed.

(** Neighbours differ by the step, within [2^-13]. *)
Lemma axis_spacing c s n i zi zj :
  in_range c s n ->
  axis c s n !! i = Some zi -> axis c s n !! (S i) = Some zj ->
  Qabs (fval zj - fval zi - fval s) <= pow2 (-13).
Proof.
  intros R Ei Ej.
  assert (S i < n)%nat as Hj by (apply lookup_lt_Some in Ej; by rewrite length_axis in Ej).
  destruct (axis_near c s n i R ltac:(lia)) as (z1 & E1 & _ & B1).
  destruct (axis_near c s n (S i) R Hj) as (z2 & E2 & _ & B2).
  rewrite Ei in E1. rewrite Ej in E2. injection E1 as <-. injection E2 as <-.
  assert (inject_Z (Z.of_nat (S i)) == inject_Z (Z.of_nat i) + 1) as HS.
  { change 1 with (inject_Z 1). rewrite <- inject_Z_plus. f_equiv. lia. }
  set (I := inject_Z (Z.of_nat i)) in *. set (J := inject_Z (Z.of_nat (S i))) in *.
  assert (fval s * J == fval s * I + fval s) as HJ by (rewrite HS; ring).
  apply Qabs_Qle_condition. pow2_consts. unabs. split; lra.
Qed.

(** Every element is below [corner + step * n]: the upper bound is left out. *)
Lemma axis_below c s n i z :
  in_range c s n -> axis c s n !! i = Some z ->
  fval z < fval c + fval s * inject_Z (Z.of_nat n).
Proof.
  intros R Ei.
  assert (i < n)%nat as Hi by (apply lookup_lt_Some in Ei; by rewrite length_axis in Ei).
  destruct (axis_near c s n i R Hi) as (z1 & E1 & _ & B1).
  rewrite Ei in E1. injection E1 as <-.
  destruct R as (_ & _ & _ & Hs & _).
  pose proof (Qnat_succ_le i n Hi) as HIJ.
  set (I := inject_Z (Z.of_nat i)) in *. set (J := inject_Z (Z.of_nat n)) in *.
  assert (0 <= fval s * (J - (I + 1))) as Hp by (apply Qmult_le_0_compat; lra).
  pow2_consts. unabs. lra.
Qed.

(** The first element is the corner, narrowed to binary32. *)
Lemma axis_first c s n :
  in_range c s n ->
  exists z, axis c s n !! 0%nat = Some z /\ finite z /\ fval z == fval (to_f32 c).
Proof.
  intros R. pose proof (in_range_step _ _ _ R) as Es.
  destruct R as (Fc & Hc & _ & Hs & Hn & He).
  destruct (axis_step c s n (fval s) Fc Hc Es Hs Hn He) as (qstep & Estep & _).
  unfold axis, Py.linspace. rewrite list_lookup_fmap, lookup_seq_lt by done.
  cbn [fmap option_fmap option_map Nat.add]. rewrite Estep. cbn [is_zero].
  eexists. split; [reflexivity|].
  change (of_nat 0) with (Fzero false). cbn [fmul].
  destruct c as [| |sc|qc]; cbn [finite] in Fc; try done.
  cbn [fadd to_f32]. split; [|reflexivity].
  destruct (to_f32_spec (Ffin qc) 9 ltac:(lia) ltac:(lia) I) as (F & _); [|done].
  cbn [fval] in *. eapply Qle_lt_trans; [exact Hc|]. pow2_consts. lra.
Qed.

(** The grid scalars of a grid description are in range when, before they are
    rounded, the corner is within 255 of zero, the resolution is above 0.0005
    and the cells, each taken 0.001 wider, span at most 512. *)
Lemma in_range_round3 c q n :
  finite c -> Qabs (fval c) <= 255 ->
  1 # 2000 < q -> (0 < n)%nat -> (q + (1 # 1000)) * inject_Z (Z.of_nat n) <= 512 ->
  in_range (Py.round c 3) (Py.round (Ffin q) 3) n.
Proof.
  intros Fc Hc Hq Hn He.
  pose proof (Qnat_succ_le 0 n Hn) as HN. change (inject_Z (Z.of_nat 0)) with 0 in HN.
  set (N := inject_Z (Z.of_nat n)) in *.
  assert (0 <= (q + (1 # 1000)) * (N - 1)) as Hp by (apply Qmult_le_0_compat; lra).
  destruct (round3_spec c Fc Hc) as (F1 & _ & B1).
  destruct (round3_step q Hq) as (qs & -> & Hlo & Hhi); [lra|].
  unfold in_range. cbn [finite fval]. repeat split; try done.
  apply Qle_trans with ((q + (1 # 1000)) * N); [|done].
  apply Qmult_le_compat_r; lra.
Qed.

(** ** A resolution that rounds to zero *)

Lemma rne_small x : Qabs x <= 1 # 2 -> rne x = 0%Z.
Proof.
  intros Hx. apply Qabs_Qle_condition in Hx as [Hlo Hhi].
  pose proof (Qfloor_le x) as Hf. pose proof (Qlt_floor x) as Hf'.
  rewrite inject_Z_plus in Hf'. change (inject_Z 1) with 1 in Hf'.
  assert (-1 <= Qfloor x)%Z as H1.
  { rewrite <- (Qfloor_Z (-1)). apply Qfloor_resp_le. change (inject_Z (-1)) with (-1). lra. }
  assert (Qfloor x <= 0)%Z as H2.
  { change 0%Z with (Qfloor (1 # 2)). by apply Qfloor_resp_le. }
  assert (Qfloor x = -1 \/ Qfloor x = 0)%Z as [E|E] by lia; unfold rne; rewrite E.
  - change (inject_Z (-1)) with (-1).
    destruct (Qcompare_spec (x - -1) (1 # 2)) as [He|Hl|Hg]; [done|lra|done].
  - change (inject_Z 0) with 0.
    destruct (Qcompare_spec (x - 0) (1 # 2)) as [He|Hl|Hg]; [done|done|lra].
Qed.

(** [round(x, 3)] of a number of magnitude at most 0.0005 is a zero. *)
Lemma round3_flat q : Qabs q <= 1 # 2000 -> Py.round (Ffin q) 3 = Fzero (Qneg q).
Proof.
  intros Hq. unfold Py.round. change (323 <? Z.of_nat 3)%Z with false. cbv iota.
  change (inject_Z (10 ^ Z.of_nat 3)) with 1000.
  rewrite rne_small; [done|].
  apply Qabs_Qle_condition in Hq as [Hlo Hhi]. apply Qabs_Qle_condition. split; lra.
Qed.

Lemma round_to_zero f q : q == 0 -> round_to f q = Fzero false.
Proof.
  intros E. unfold round_to.
  set (e := Z.max (emin f) (ilog2 (Qabs q) - prec f + 1)).
  pose proof (pow2_pos e) as He.
  assert (rne (q / pow2 e) = 0%Z) as ->.
  { rewrite <- (rne_Z 0). apply rne_proper. rewrite E. change (inject_Z 0) with 0.
    field. lra. }
  cbn [Z.eqb]. f_equal. unfold Qneg.
  assert (Qle_bool 0 q = true) as ->; [|done].
  apply Qle_bool_iff. rewrite E. lra.
Qed.

(** With a zero step every element of the axis is the corner, narrowed to
    binary32. *)
Lemma axis_flat qc sg n :
  (Z.of_nat n < 2 ^ 53)%Z ->
  axis (Ffin qc) (Fzero sg) n = replicate n (round32 qc).
Proof.
  intros Hn. symmetry. apply replicate_as_Forall. split; [apply length_axis|].
  destruct n as [|n']; [constructor|]. set (n := S n') in *.
  destruct (of_nat_pos n) as (qn & En & Hqn); [lia|done|].
  assert (0 < qn) as Hpos.
  { rewrite Hqn. change 0 with (inject_Z 0). apply inject_Z_lt. lia. }
  unfold axis, Py.linspace. rewrite En.
  cbn [fmul fsign xorb fadd].
  assert (fsub (Ffin qc) (Ffin qc) = Fzero false) as ->.
  { unfold fsub, fopp, fadd, round64. apply round_to_zero. ring. }
  cbn [fdiv fsign is_zero].
  apply Forall_fmap, Forall_forall. intros i Hi. cbn beta.
  apply elem_of_seq in Hi as [_ Hi]. cbn in Hi.
  unfold compose.
  assert (exists y, fdiv (of_nat i) (Ffin qn) = y /\ finite y) as (y & -> & Fy).
  { destruct i as [|i'].
    - assert (of_nat 0 = Fzero false) as -> by (vm_compute; reflexivity).
      eexists. split; [reflexivity|done].
    - destruct (of_nat_pos (S i')) as (qi & Ei & Hqi); [lia|lia|].
      rewrite Ei. cbn [fdiv]. eexists. split; [reflexivity|].
      apply (round64_spec 1); [lia|lia|].
      assert (0 < qi) as Hip.
      { rewrite Hqi. change 0 with (inject_Z 0). apply inject_Z_lt. lia. }
      assert (qi < qn) as Hlt.
      { rewrite Hqi, Hqn. apply inject_Z_lt. lia. }
      change (pow2 1) with 2. apply Qabs_Qlt_condition. split.
      + apply Qlt_trans with 0; [lra|]. apply Qlt_shift_div_l; lra.
      + apply Qlt_shift_div_r; lra. }
  destruct y as [| |sy|qy]; [done|done| |]; reflexivity.
Qed.

(** ** The axis against the unrounded grid description *)

(** [round(x, 3)] of a resolution between 0.0005 and 255. *)
Lemma round3_step_near q :
  1 # 2000 < q -> q <= 255 ->
  exists qs, Py.round (Ffin q) 3 = Ffin qs /\ 1 # 2048 <= qs /\ qs <= q + (1 # 1000) /\
    Qabs (qs - q) <= (1 # 2000) + pow2 (-46).
Proof.
  intros Hlo Hhi.
  destruct (round3_step q Hlo) as (qs & E & H1 & H2); [lra|].
  exists qs. split; [done|]. split; [done|]. split; [done|].
  destruct (round3_spec (Ffin q)) as (_ & B & _); [done| |].
  - cbn [fval]. apply Qabs_Qle_condition. split; lra.
  - by rewrite E in B.
Qed.

(** On the samples, the four binary64 operations are those of the Standard
    Library's IEEE 754 specification. *)
Example binary64_agrees :
  agree2 (SpecFloat.SFadd 53 1024) fadd = true /\
  agree2 (SpecFloat.SFsub 53 1024) fsub = true /\
  agree2 (SpecFloat.SFmul 53 1024) fmul = true /\
  agree2 (SpecFloat.SFdiv 53 1024) fdiv = true.
Proof. repeat apply conj; vm_compute; reflexivity. Qed.

End Floats.
Export Floats.

(** * The claims on the grid reconstruction *)

Module Reconstruction.
Local Open Scope Q_scope.

Section Reconstruct.
Context `{PyText}.

(** On a frame of LIS output whose four grid scalars read as numbers, the
    reconstruction succeeds and attaches the two axes of the grid. *)
Lemma add_latlon_coords_spec ds w dx dy ll_lat ll_lon ns_len ew_len :
  lis_frame w ds ->
  grid_scalar ds "DX" = Ok dx ->
  grid_scalar ds "DY" = Ok dy ->
  grid_scalar ds "SOUTH_WEST_CORNER_LAT" = Ok ll_lat ->
  grid_scalar ds "SOUTH_WEST_CORNER_LON" = Ok ll_lon ->
  dim_len w ds "north_south" ns_len ->
  dim_len w ds "east_west" ew_len ->
  exists ds' w',
    add_latlon_coords ds w = (Ok ds', w') /\
    attaches w' ds' "lat" ll_lat dy ns_len /\
    attaches w' ds' "lon" ll_lon dx ew_len.
Proof.
  intros Hf Hdx Hdy Hlat Hlon Hns Hew.
  destruct (add_latlon_coords_run ds w dx dy ll_lat ll_lon) as (ds' & w' & E); try done.
  exists ds', w'. split; [done|].
  apply add_latlon_coords_ok_inv in E
    as (dx' & dy' & lat' & lon' & ew' & ns' & a_lat & a_lon &
        E1 & E2 & L1 & L2 & E3 & E4 & V1 & V2).
  rewrite Hdx in E1. rewrite Hdy in E2. rewrite Hlat in E3. rewrite Hlon in E4.
  rewrite (dim_len_getitem _ _ _ _ (lf_valid _ _ Hf) Hew) in L1.
  rewrite (dim_len_getitem _ _ _ _ (lf_valid _ _ Hf) Hns) in L2.
  simplify_eq/=.
  split; eexists; (split; [eassumption|]); cbn [coord_var v_dims v_shape v_data];
    by rewrite length_axis.
Qed.

(** A grid scalar depends on its attribute only. *)
Lemma grid_scalar_agree ds1 ds2 key :
  ds_attrs ds1 !! key = ds_attrs ds2 !! key -> grid_scalar ds1 key = grid_scalar ds2 key.
Proof. unfold grid_scalar, getitem. by intros ->. Qed.

(** The coordinates of two successful invocations on frames of the same grid
    hold the same dimensions, shape and data. *)
Lemma axes_determined ds1 w1 ds2 w2 ds1' w1' ds2' w2' name :
  same_grid ds1 w1 ds2 w2 ->
  add_latlon_coords ds1 w1 = (Ok ds1', w1') ->
  add_latlon_coords ds2 w2 = (Ok ds2', w2') ->
  name = "lat" \/ name = "lon" ->
  exists v1 v2,
    var_of w1' ds1' name = Some v1 /\ var_of w2' ds2' name = Some v2 /\
    v_dims v1 = v_dims v2 /\ v_shape v1 = v_shape v2 /\ v_data v1 = v_data v2.
Proof.
  intros (Ha & Hns & Hew) E1 E2 Hname.
  apply add_latlon_coords_ok_inv in E1
    as (dx & dy & lat & lon & ew & ns & a_lat & a_lon & A1 & A2 & L1 & L2 & A3 & A4 & V1 & V2).
  apply add_latlon_coords_ok_inv in E2
    as (dx' & dy' & lat' & lon' & ew' & ns' & b_lat & b_lon & B1 & B2 & M1 & M2 & B3 & B4 & U1 & U2).
  unfold grid_keys in Ha.
  apply Forall_cons in Ha as [K1 Ha]. apply Forall_cons in Ha as [K2 Ha].
  apply Forall_cons in Ha as [K3 Ha]. apply Forall_cons in Ha as [K4 _].
  rewrite (grid_scalar_agree _ _ _ K1), B1 in A1.
  rewrite (grid_scalar_agree _ _ _ K2), B2 in A2.
  rewrite (grid_scalar_agree _ _ _ K3), B3 in A3.
  rewrite (grid_scalar_agree _ _ _ K4), B4 in A4.
  rewrite Hew, M1 in L1. rewrite Hns, M2 in L2.
  injection A1 as ->. injection A2 as ->. injection A3 as ->. injection A4 as ->.
  injection L1 as ->. injection L2 as ->.
  destruct Hname as [-> | ->]; eauto 10.
Qed.

End Reconstruct.

(** The example frames are frames of LIS output. *)
Lemma lis_dataset_frame ns ew fill attrs :
  lis_frame (lis_world ns ew fill) (lis_dataset ns ew attrs).
Proof.
  split; cbn [lis_dataset ds_vars ds_dims fmap list_fmap fst].
  - repeat constructor; by eexists.
  - compute_done.
  - compute_done.
  - compute_done.
  - compute_done.
  - compute_done.
  - compute_done.
  - exists ns. split; [done|]. by intros v [=].
  - exists ew. split; [done|]. by intros v [=].
Qed.

Lemma lis_dataset_ns ns ew fill attrs :
  dim_len (lis_world ns ew fill) (lis_dataset ns ew attrs) "north_south" ns.
Proof. split; [done|]. by intros v [=]. Qed.

Lemma lis_dataset_ew ns ew fill attrs :
  dim_len (lis_world ns ew fill) (lis_dataset ns ew attrs) "east_west" ew.
Proof. split; [done|]. by intros v [=]. Qed.

(** The quarter-degree grid is of geographic size. *)
Lemma in_range_quarter_2 : in_range (Ffin (-479 # 8)) (Ffin (1 # 4)) 2.
Proof. unfold in_range. cbn [finite fval]. repeat split; try lia; by vm_compute. Qed.

Lemma in_range_quarter_3 : in_range (Ffin (-1439 # 8)) (Ffin (1 # 4)) 3.
Proof. unfold in_range. cbn [finite fval]. repeat split; try lia; by vm_compute. Qed.

Section Claims.
Context `{PyText}.

(** C1 (amended): the new [lat] and [lon] coordinates have the lengths of the
    [north_south] and [east_west] dimensions and hold the binary32 axis
    [linspace(corner, corner + step * n, n, endpoint=False)] of the rounded
    corner and step; on a grid of geographic size every element is
    [corner + step * i] within [2^-14] and below [corner + step * n]. *)
Theorem axes_follow_grid ds w dx dy ll_lat ll_lon ns_len ew_len :
  lis_frame w ds ->
  grid_scalar ds "DX" = Ok dx ->
  grid_scalar ds "DY" = Ok dy ->
  grid_scalar ds "SOUTH_WEST_CORNER_LAT" = Ok ll_lat ->
  grid_scalar ds "SOUTH_WEST_CORNER_LON" = Ok ll_lon ->
  dim_len w ds "north_south" ns_len ->
  dim_len w ds "east_west" ew_len ->
  exists ds' w',
    add_latlon_coords ds w = (Ok ds', w') /\
    attaches w' ds' "lat" ll_lat dy ns_len /\
    attaches w' ds' "lon" ll_lon dx ew_len /\
    length (axis ll_lat dy ns_len) = ns_len /\
    length (axis ll_lon dx ew_len) = ew_len /\
    (in_range ll_lat dy ns_len -> follows (axis ll_lat dy ns_len) ll_lat dy ns_len) /\
    (in_range ll_lon dx ew_len -> follows (axis ll_lon dx ew_len) ll_lon dx ew_len).
Proof.
  intros Hf Hdx Hdy Hlat Hlon Hns Hew.
  destruct (add_latlon_coords_spec ds w dx dy ll_lat ll_lon ns_len ew_len)
    as (ds' & w' & E & A1 & A2); try done.
  exists ds', w'. rewrite !length_axis.
  repeat split; try done.
  - intros R i Hi. destruct (axis_near _ _ _ i R Hi) as (z & Ez & Fz & Bz).
    exists z. repeat split; try done. by apply (axis_below _ _ _ i).
  - intros R i Hi. destruct (axis_near _ _ _ i R Hi) as (z & Ez & Fz & Bz).
    exists z. repeat split; try done. by apply (axis_below _ _ _ i).
Qed.

(** The axis of a grid of geographic size is regular. *)
Lemma regular_axis c s n : in_range c s n -> regular (axis c s n) c s n.
Proof.
  intros R. split; [apply length_axis|]. split; [|split; [|split]].
  - intros i j zi zj. by apply axis_increasing.
  - intros i zi zj. by apply axis_spacing.
  - by apply axis_first.
  - apply axis_near; [done|]. destruct R as (_ & _ & _ & _ & Hn & _). lia.
Qed.

(** C3 (amended): on a grid of geographic size (rounded corner within 256 of
    zero, rounded step at least [2^-11], at least one cell, extent at most
    512) both axes are strictly increasing, neighbours are one step apart
    within [2^-13], the first element is the rounded corner narrowed to
    binary32, and the last is [corner + step * (n - 1)] within [2^-14]. *)
Theorem axes_regular ds w dx dy ll_lat ll_lon ns_len ew_len :
  lis_frame w ds ->
  grid_scalar ds "DX" = Ok dx ->
  grid_scalar ds "DY" = Ok dy ->
  grid_scalar ds "SOUTH_WEST_CORNER_LAT" = Ok ll_lat ->
  grid_scalar ds "SOUTH_WEST_CORNER_LON" = Ok ll_lon ->
  dim_len w ds "north_south" ns_len ->
  dim_len w ds "east_west" ew_len ->
  in_range ll_lat dy ns_len ->
  in_range ll_lon dx ew_len ->
  exists ds' w' lat lon,
    add_latlon_coords ds w = (Ok ds', w') /\
    axis_data "lat" (Ok ds', w') = Some lat /\
    axis_data "lon" (Ok ds', w') = Some lon /\
    regular lat ll_lat dy ns_len /\
    regular lon ll_lon dx ew_len.
Proof.
  intros Hf Hdx Hdy Hlat Hlon Hns Hew R1 R2.
  destruct (add_latlon_coords_spec ds w dx dy ll_lat ll_lon ns_len ew_len)
    as (ds' & w' & E & (v1 & V1 & _ & _ & D1) & (v2 & V2 & _ & _ & D2)); try done.
  exists ds', w', (v_data v1), (v_data v2). cbn [axis_data]. rewrite V1, V2.
  repeat split; try done; rewrite ?D1, ?D2; by apply regular_axis.
Qed.

(** A grid scalar whose attribute is a floating-point number. *)
Lemma grid_scalar_float ds key x :
  ds_attrs ds !! key = Some (AFloat x) -> grid_scalar ds key = Ok (Py.round x 3).
Proof. intros E. unfold grid_scalar, getitem. by rewrite E. Qed.

(** C2 (amended): the quarter-degree scenario.  [lon] runs from -179.875 to
    179.875 and [lat] from -59.875 to 89.875; 179.625 and 89.625 are the
    elements before the last. *)
Theorem scenario_axes ds w :
  lis_frame w ds ->
  ds_attrs ds !! "DX" = Some (AFloat (Ffin (1 # 4))) ->
  ds_attrs ds !! "DY" = Some (AFloat (Ffin (1 # 4))) ->
  ds_attrs ds !! "SOUTH_WEST_CORNER_LAT" = Some (AFloat (Ffin (-479 # 8))) ->
  ds_attrs ds !! "SOUTH_WEST_CORNER_LON" = Some (AFloat (Ffin (-1439 # 8))) ->
  dim_len w ds "north_south" 600 ->
  dim_len w ds "east_west" 1440 ->
  exists ds' w' lat lon,
    add_latlon_coords ds w = (Ok ds', w') /\
    axis_data "lat" (Ok ds', w') = Some lat /\
    axis_data "lon" (Ok ds', w') = Some lon /\
    length lat = 600%nat /\ length lon = 1440%nat /\
    lon !! 0%nat = Some (Ffin (-1439 # 8)) /\
    lon !! 1438%nat = Some (Ffin (1437 # 8)) /\
    lon !! 1439%nat = Some (Ffin (1439 # 8)) /\
    lat !! 0%nat = Some (Ffin (-479 # 8)) /\
    lat !! 598%nat = Some (Ffin (717 # 8)) /\
    lat !! 599%nat = Some (Ffin (719 # 8)).
Proof.
  intros Hf Hdx Hdy Hlat Hlon Hns Hew.
  apply grid_scalar_float in Hdx, Hdy, Hlat, Hlon.
  destruct (add_latlon_coords_spec ds w _ _ _ _ 600 1440 Hf Hdx Hdy Hlat Hlon Hns Hew)
    as (ds' & w' & E & (v1 & V1 & _ & _ & D1) & (v2 & V2 & _ & _ & D2)).
  exists ds', w', (v_data v1), (v_data v2). cbn [axis_data]. rewrite V1, V2.
  split; [done|]. split; [done|]. split; [done|].
  rewrite D1, D2, !length_axis. repeat apply conj; vm_compute; reflexivity.
Qed.

(** C4: the original [lat] and [lon] variables are kept under [orig_lat] and
    [orig_lon] with their data, shape and attributes, and the frame handed in
    still holds them as they were. *)
Theorem originals_retained ds w v_lat v_lon :
  lis_frame w ds ->
  Forall (supplied ds) grid_keys ->
  var_of w ds "lat" = Some v_lat ->
  var_of w ds "lon" = Some v_lon ->
  exists ds' w' o_lat o_lon,
    add_latlon_coords ds w = (Ok ds', w') /\
    var_of w' ds' "orig_lat" = Some o_lat /\
    var_of w' ds' "orig_lon" = Some o_lon /\
    v_data o_lat = v_data v_lat /\ v_shape o_lat = v_shape v_lat /\
    v_attrs o_lat = v_attrs v_lat /\
    v_data o_lon = v_data v_lon /\ v_shape o_lon = v_shape v_lon /\
    v_attrs o_lon = v_attrs v_lon /\
    var_of w' ds "lat" = Some v_lat /\ var_of w' ds "lon" = Some v_lon.
Proof.
  intros Hf Hs Vlat Vlon. unfold grid_keys in Hs.
  apply Forall_cons in Hs as [(dx & S1)%grid_scalar_supplied Hs].
  apply Forall_cons in Hs as [(dy & S2)%grid_scalar_supplied Hs].
  apply Forall_cons in Hs as [(ll_lat & S3)%grid_scalar_supplied Hs].
  apply Forall_cons in Hs as [(ll_lon & S4)%grid_scalar_supplied _].
  destruct (add_latlon_coords_run ds w dx dy ll_lat ll_lon) as (ds' & w' & E); try done.
  pose proof (add_latlon_coords_keeps ds w ds' w' "lat" v_lat (lf_valid _ _ Hf) E Vlat) as K1.
  pose proof (add_latlon_coords_keeps ds w ds' w' "lon" v_lon (lf_valid _ _ Hf) E Vlon) as K2.
  change (renamed grid_names (renamed keep_names "lat")) with "orig_lat"%string in K1.
  change (renamed grid_names (renamed keep_names "lon")) with "orig_lon"%string in K2.
  specialize (K1 ltac:(done) ltac:(done)). specialize (K2 ltac:(done) ltac:(done)).
  pose proof (add_latlon_coords_grows ds w) as G. rewrite E in G. cbn [snd] in G.
  eexists ds', w', _, _. split; [done|]. split; [exact K1|]. split; [exact K2|].
  cbn [var_rename v_data v_shape v_attrs]. repeat split; try done.
  - unfold var_of in *. destruct (dict_get "lat" (ds_vars ds)); [|done].
    by eapply grows_lookup.
  - unfold var_of in *. destruct (dict_get "lon" (ds_vars ds)); [|done].
    by eapply grows_lookup.
Qed.

(** C5 (amended): on a frame of LIS output the reconstruction fails exactly
    when one of the four grid scalars is absent or is a value [float] does
    not take.  It raises no error of its own: the exception is Python's
    [KeyError] for the absent key, or the [ValueError], [TypeError] or
    [OverflowError] of [float], for the first such scalar in the order [DX],
    [DY], [SOUTH_WEST_CORNER_LAT], [SOUTH_WEST_CORNER_LON], and nothing has
    been changed.  With all four there and numeric (a text that reads as a
    number is) it succeeds. *)
Theorem missing_attribute_iff ds w :
  lis_frame w ds ->
  ((exists e, (add_latlon_coords ds w).1 = Raise e) <->
   (exists key, key ∈ grid_keys /\ ~ accepted ds key)) /\
  (forall e, (add_latlon_coords ds w).1 = Raise e ->
     read_error ds e /\ (add_latlon_coords ds w).2 = w) /\
  (Forall (accepted ds) grid_keys -> exists ds', (add_latlon_coords ds w).1 = Ok ds').
Proof.
  intros Hf.
  assert (forall e, (add_latlon_coords ds w).1 = Raise e ->
            read_error ds e /\ (add_latlon_coords ds w).2 = w) as Hraise.
  { intros e E. destruct (add_latlon_coords ds w) as [r w'] eqn:Er. cbn [fst snd] in *.
    subst r. by apply add_latlon_coords_raise in Er. }
  split; [split|split; [done|]].
  - intros (e & E). apply read_error_not_accepted with e. by apply Hraise.
  - intros (key & Hk & Hn).
    destruct (add_latlon_coords ds w) as [[ds'|e] w'] eqn:E; cbn [fst]; [|eauto].
    destruct Hn. apply accepted_supplied. by eapply add_latlon_coords_ok_supplied.
  - intros Hs. unfold grid_keys in Hs.
    apply Forall_cons in Hs as [(dx & S1)%accepted_supplied%grid_scalar_supplied Hs].
    apply Forall_cons in Hs as [(dy & S2)%accepted_supplied%grid_scalar_supplied Hs].
    apply Forall_cons in Hs as [(ll_lat & S3)%accepted_supplied%grid_scalar_supplied Hs].
    apply Forall_cons in Hs as [(ll_lon & S4)%accepted_supplied%grid_scalar_supplied _].
    destruct (add_latlon_coords_run ds w dx dy ll_lat ll_lon) as (ds' & w' & E); try done.
    exists ds'. by rewrite E.
Qed.

(** Two successful invocations on frames of the same grid end with the same
    axis data. *)
Lemma axis_data_determined ds1 w1 ds2 w2 name :
  same_grid ds1 w1 ds2 w2 ->
  is_ok (add_latlon_coords ds1 w1).1 = true ->
  is_ok (add_latlon_coords ds2 w2).1 = true ->
  name = "lat" \/ name = "lon" ->
  exists a, axis_data name (add_latlon_coords ds1 w1) = Some a /\
            axis_data name (add_latlon_coords ds2 w2) = Some a.
Proof.
  intros Hg O1 O2 Hn.
  destruct (add_latlon_coords ds1 w1) as [[ds1'|?] w1'] eqn:E1; [|done].
  destruct (add_latlon_coords ds2 w2) as [[ds2'|?] w2'] eqn:E2; [|done].
  destruct (axes_determined _ _ _ _ _ _ _ _ name Hg E1 E2 Hn)
    as (v1 & v2 & V1 & V2 & _ & _ & D).
  exists (v_data v1). cbn [axis_data]. rewrite V1, V2. cbn. by rewrite D.
Qed.

(** C7: two invocations on frames with the same grid description and
    dimension lengths produce the same [lat] and [lon] values, and an
    invocation only creates new objects: every object there was is unchanged,
    nothing is printed and no collaborator is called. *)
Theorem reconstruction_pure ds1 w1 ds2 w2 :
  same_grid ds1 w1 ds2 w2 ->
  (is_ok (add_latlon_coords ds1 w1).1 = true ->
   is_ok (add_latlon_coords ds2 w2).1 = true ->
   exists lat lon,
     axis_data "lat" (add_latlon_coords ds1 w1) = Some lat /\
     axis_data "lat" (add_latlon_coords ds2 w2) = Some lat /\
     axis_data "lon" (add_latlon_coords ds1 w1) = Some lon /\
     axis_data "lon" (add_latlon_coords ds2 w2) = Some lon) /\
  grows w1 (add_latlon_coords ds1 w1).2 /\
  (forall l v, heap w1 !! l = Some v -> heap (add_latlon_coords ds1 w1).2 !! l = Some v) /\
  stdout (add_latlon_coords ds1 w1).2 = stdout w1 /\
  calls (add_latlon_coords ds1 w1).2 = calls w1.
Proof.
  intros Hg. pose proof (add_latlon_coords_grows ds1 w1) as G.
  split; [|split; [done|split]].
  - intros O1 O2.
    destruct (axis_data_determined _ _ _ _ "lat" Hg O1 O2) as (lat & ? & ?); [by left|].
    destruct (axis_data_determined _ _ _ _ "lon" Hg O1 O2) as (lon & ? & ?); [by right|].
    by exists lat, lon.
  - intros l v. by apply grows_lookup.
  - by destruct G as (_ & ? & ?).
Qed.

(** C10: the coordinates depend on the four grid attributes and the two
    dimension lengths only: two frames that agree on them, whatever their
    variables hold, get [lat] and [lon] coordinates of the same dimensions,
    shape and data. *)
Theorem axes_depend_on_grid_only ds1 w1 ds2 w2 :
  same_grid ds1 w1 ds2 w2 ->
  is_ok (add_latlon_coords ds1 w1).1 = true ->
  is_ok (add_latlon_coords ds2 w2).1 = true ->
  Forall (fun name =>
            is_Some (coordinate name (add_latlon_coords ds1 w1)) /\
            coordinate name (add_latlon_coords ds1 w1) =
              coordinate name (add_latlon_coords ds2 w2))
         ["lat"; "lon"]%string.
Proof.
  intros Hg O1 O2.
  destruct (add_latlon_coords ds1 w1) as [[ds1'|?] w1'] eqn:E1; [|done].
  destruct (add_latlon_coords ds2 w2) as [[ds2'|?] w2'] eqn:E2; [|done].
  assert (forall n, n = "lat"%string \/ n = "lon"%string ->
            is_Some (coordinate n (Ok ds1', w1')) /\
            coordinate n (Ok ds1', w1') = coordinate n (Ok ds2', w2')) as K.
  { intros n Hn.
    destruct (axes_determined _ _ _ _ _ _ _ _ n Hg E1 E2 Hn)
      as (v1 & v2 & V1 & V2 & D1 & D2 & D3).
    cbn [coordinate]. rewrite V1, V2. cbn. rewrite D1, D2, D3. split; [by eexists|done]. }
  constructor; [apply K; by left|]. constructor; [apply K; by right|]. constructor.
Qed.

End Claims.

Lemma small_supplied : Forall (@supplied plain_numbers small) grid_keys.
Proof. repeat constructor; do 2 eexists; split; reflexivity. Qed.

Lemma small_same_grid : same_grid small (lis_world 2 3 nodata) small (lis_world 2 3 Fnan).
Proof. split; [by repeat constructor|]. split; reflexivity. Qed.

Lemma axes_follow_grid_witness :
  exists ds' w',
    @add_latlon_coords plain_numbers small (lis_world 2 3 nodata) = (Ok ds', w') /\
    attaches w' ds' "lat" (Ffin (-479 # 8)) (Ffin (1 # 4)) 2 /\
    attaches w' ds' "lon" (Ffin (-1439 # 8)) (Ffin (1 # 4)) 3 /\
    follows (axis (Ffin (-479 # 8)) (Ffin (1 # 4)) 2) (Ffin (-479 # 8)) (Ffin (1 # 4)) 2 /\
    follows (axis (Ffin (-1439 # 8)) (Ffin (1 # 4)) 3) (Ffin (-1439 # 8)) (Ffin (1 # 4)) 3.
Proof.
  destruct (@axes_follow_grid plain_numbers small (lis_world 2 3 nodata)
              (Ffin (1 # 4)) (Ffin (1 # 4)) (Ffin (-479 # 8)) (Ffin (-1439 # 8)) 2 3)
    as (ds' & w' & E & A1 & A2 & _ & _ & F1 & F2).
  - apply lis_dataset_frame.
  - vm_compute; reflexivity.
  - vm_compute; reflexivity.
  - vm_compute; reflexivity.
  - vm_compute; reflexivity.
  - apply lis_dataset_ns.
  - apply lis_dataset_ew.
  - exists ds', w'. split; [exact E|]. split; [exact A1|]. split; [exact A2|].
    split; [apply F1, in_range_quarter_2 | apply F2, in_range_quarter_3].
Defined.

(** C1, as the claim has it, fails: from the corner [2^24] with step 1 the
    second element is the corner again, not [corner + 1]. *)
Lemma axes_follow_grid_far :
  axis_data "lon" (@add_latlon_coords plain_numbers far (lis_world 2 3 nodata))
  = Some [Ffin 16777216; Ffin 16777216; Ffin 16777218] /\
  grid_scalar (H := plain_numbers) far "SOUTH_WEST_CORNER_LON" = Ok (Ffin 16777216) /\
  grid_scalar (H := plain_numbers) far "DX" = Ok (Ffin 1) /\
  fadd (Ffin 16777216) (fmul (Ffin 1) (of_nat 1)) = Ffin 16777217.
Proof. repeat apply conj; vm_compute; reflexivity. Qed.

Lemma scenario_axes_witness :
  exists ds' w' lat lon,
    @add_latlon_coords plain_numbers scenario (lis_world 600 1440 nodata) = (Ok ds', w') /\
    axis_data "lat" (Ok ds', w') = Some lat /\
    axis_data "lon" (Ok ds', w') = Some lon /\
    length lat = 600%nat /\ length lon = 1440%nat /\
    lon !! 0%nat = Some (Ffin (-1439 # 8)) /\
    lon !! 1438%nat = Some (Ffin (1437 # 8)) /\
    lon !! 1439%nat = Some (Ffin (1439 # 8)) /\
    lat !! 0%nat = Some (Ffin (-479 # 8)) /\
    lat !! 598%nat = Some (Ffin (717 # 8)) /\
    lat !! 599%nat = Some (Ffin (719 # 8)).
Proof.
  apply (@scenario_axes plain_numbers scenario (lis_world 600 1440 nodata)).
  - apply lis_dataset_frame.
  - reflexivity.
  - reflexivity.
  - reflexivity.
  - reflexivity.
  - apply lis_dataset_ns.
  - apply lis_dataset_ew.
Defined.

(** C2, as the claim has it, fails: in the scenario [lon[1439]] is 179.875
    and [lat[599]] is 89.875, not 179.625 and 89.625. *)
Lemma scenario_last_elements :
  (axis_data "lon" (@add_latlon_coords plain_numbers scenario (lis_world 600 1440 nodata))
     ≫= fun lon => lon !! 1439%nat) = Some (Ffin (1439 # 8)) /\
  (axis_data "lat" (@add_latlon_coords plain_numbers scenario (lis_world 600 1440 nodata))
     ≫= fun lat => lat !! 599%nat) = Some (Ffin (719 # 8)) /\
  Ffin (1439 # 8) <> Ffin (1437 # 8) /\
  Ffin (719 # 8) <> Ffin (717 # 8).
Proof. repeat apply conj; try (vm_compute; reflexivity); discriminate. Qed.

Lemma axes_regular_witness :
  exists ds' w' lat lon,
    @add_latlon_coords plain_numbers small (lis_world 2 3 nodata) = (Ok ds', w') /\
    axis_data "lat" (Ok ds', w') = Some lat /\
    axis_data "lon" (Ok ds', w') = Some lon /\
    regular lat (Ffin (-479 # 8)) (Ffin (1 # 4)) 2 /\
    regular lon (Ffin (-1439 # 8)) (Ffin (1 # 4)) 3.
Proof.
  apply (@axes_regular plain_numbers small (lis_world 2 3 nodata)).
  - apply lis_dataset_frame.
  - vm_compute; reflexivity.
  - vm_compute; reflexivity.
  - vm_compute; reflexivity.
  - vm_compute; reflexivity.
  - apply lis_dataset_ns.
  - apply lis_dataset_ew.
  - apply in_range_quarter_2.
  - apply in_range_quarter_3.
Defined.

(** C3, as the claim has it, fails: the positive resolution 0.0004 rounds to
    0.0, and every element of the axis is the corner. *)
Lemma axes_regular_fine :
  axis_data "lon" (@add_latlon_coords plain_numbers fine (lis_world 2 3 nodata))
  = Some [Ffin (-1439 # 8); Ffin (-1439 # 8); Ffin (-1439 # 8)] /\
  (0 < fval (round64 (1 # 2500)))%Q /\
  grid_scalar (H := plain_numbers) fine "DX" = Ok (Fzero false).
Proof. repeat apply conj; vm_compute; reflexivity. Qed.

Lemma originals_retained_witness :
  exists ds' w' o_lat o_lon,
    @add_latlon_coords plain_numbers small (lis_world 2 3 nodata) = (Ok ds', w') /\
    var_of w' ds' "orig_lat" = Some o_lat /\
    var_of w' ds' "orig_lon" = Some o_lon /\
    v_data o_lat = replicate 6 nodata /\
    v_data o_lon = replicate 6 nodata.
Proof.
  destruct (@originals_retained plain_numbers small (lis_world 2 3 nodata)
              (masked 2 3 "degrees_north" nodata) (masked 2 3 "degrees_east" nodata))
    as (ds' & w' & o_lat & o_lon & E & V1 & V2 & D1 & _ & _ & D2 & _).
  - apply lis_dataset_frame.
  - apply small_supplied.
  - reflexivity.
  - reflexivity.
  - by exists ds', w', o_lat, o_lon.
Defined.

Lemma small_accepted : Forall (@accepted plain_numbers small) grid_keys.
Proof. repeat constructor; eexists; split; reflexivity. Qed.

Lemma missing_attribute_iff_witness :
  (exists ds', (@add_latlon_coords plain_numbers small (lis_world 2 3 nodata)).1 = Ok ds') /\
  @read_error plain_numbers no_dx (KeyError "DX") /\
  (@add_latlon_coords plain_numbers no_dx (lis_world 2 3 nodata)).2 = lis_world 2 3 nodata.
Proof.
  split.
  - apply (@missing_attribute_iff plain_numbers small (lis_world 2 3 nodata)).
    + apply lis_dataset_frame.
    + apply small_accepted.
  - apply (@missing_attribute_iff plain_numbers no_dx (lis_world 2 3 nodata)).
    + apply lis_dataset_frame.
    + vm_compute; reflexivity.
Defined.

(** C5, as the claim has it, fails: without [DX] the reconstruction raises
    Python's [KeyError], which is no MissingAttributeError, and a [DX] that is
    a text, not a number, is taken when it reads as one. *)
Lemma missing_attribute_not_raised :
  (@add_latlon_coords plain_numbers no_dx (lis_world 2 3 nodata)).1 = Raise (KeyError "DX") /\
  ds_attrs text_dx !! "DX" = Some (AText "0.25") /\
  is_ok (@add_latlon_coords reads_decimal text_dx (lis_world 2 3 nodata)).1 = true.
Proof. repeat apply conj; vm_compute; reflexivity. Qed.

Lemma reconstruction_pure_witness :
  (exists lat lon,
     axis_data "lat" (@add_latlon_coords plain_numbers small (lis_world 2 3 nodata)) = Some lat /\
     axis_data "lat" (@add_latlon_coords plain_numbers small (lis_world 2 3 Fnan)) = Some lat /\
     axis_data "lon" (@add_latlon_coords plain_numbers small (lis_world 2 3 nodata)) = Some lon /\
     axis_data "lon" (@add_latlon_coords plain_numbers small (lis_world 2 3 Fnan)) = Some lon) /\
  grows (lis_world 2 3 nodata)
        (@add_latlon_coords plain_numbers small (lis_world 2 3 nodata)).2.
Proof.
  destruct (@reconstruction_pure plain_numbers small (lis_world 2 3 nodata)
              small (lis_world 2 3 Fnan) small_same_grid) as (D & G & _).
  split; [|exact G]. apply D; vm_compute; reflexivity.
Defined.

Lemma axes_depend_on_grid_only_witness :
  Forall (fun name =>
            is_Some (coordinate name (@add_latlon_coords plain_numbers small (lis_world 2 3 nodata))) /\
            coordinate name (@add_latlon_coords plain_numbers small (lis_world 2 3 nodata)) =
              coordinate name (@add_latlon_coords plain_numbers small (lis_world 2 3 Fnan)))
         ["lat"; "lon"]%string.
Proof.
  apply (@axes_depend_on_grid_only plain_numbers small (lis_world 2 3 nodata)
           small (lis_world 2 3 Fnan) small_same_grid); vm_compute; reflexivity.
Defined.

End Reconstruction.

(** * The claims on the chunk planner and the driver *)

Module Conversion.

(** C8: for a positive [inputs_per_chunk = k] the planner makes
    [ceil(L / k)] groups (as the integer quotient [(L + k - 1) / k]), every
    group but the last holds exactly [k] inputs, and the groups, in ordinal
    order, concatenate to the input sequence; 23 inputs with [k = 10] make
    groups of 10, 10 and 3. *)
Theorem planner_partition (k : nat) (file_list : list string) :
  (0 < k)%nat ->
  length (chunk_plan k file_list) = ((length file_list + k - 1) / k)%nat /\
  (forall i c, chunk_plan k file_list !! i = Some c ->
     chunk_index c = i /\
     ((S i < length (chunk_plan k file_list))%nat -> length (chunk_inputs c) = k)) /\
  concat (chunk_inputs <$> chunk_plan k file_list) = file_list /\
  (k = 10%nat -> length file_list = 23%nat ->
   length <$> (chunk_inputs <$> chunk_plan k file_list) = [10; 10; 3]%nat).
Proof.
  intros Hk. rewrite chunk_plan_inputs, chunk_plan_length.
  split; [by apply length_groups|]. split; [|split].
  - intros i c [Hi Hg]%chunk_plan_lookup. split; [done|]. intros Hlt.
    by apply (groups_full k file_list i).
  - by apply concat_groups.
  - intros -> Hl. by apply groups_sizes_23.
Qed.

(** C9: the record offset of the group of ordinal [i] is
    [i * inputs_per_chunk * items_per_file]; offsets grow strictly with the
    ordinal, and the records of a group end where a later group begins, or
    before. *)
Theorem planner_offsets (m k : nat) (file_list : list string) :
  (0 < m)%nat -> (0 < k)%nat ->
  (forall i c, chunk_plan k file_list !! i = Some c ->
     chunk_offset m k c = (i * k * m)%nat) /\
  (forall i j ci cj, (i < j)%nat ->
     chunk_plan k file_list !! i = Some ci ->
     chunk_plan k file_list !! j = Some cj ->
     (chunk_offset m k ci < chunk_offset m k cj)%nat /\
     (chunk_offset m k ci + chunk_records m ci <= chunk_offset m k cj)%nat).
Proof.
  intros Hm Hk. split.
  - intros i c [Hi _]%chunk_plan_lookup. unfold chunk_offset. by rewrite Hi.
  - intros i j ci cj Hij [Hi Hgi]%chunk_plan_lookup [Hj _]%chunk_plan_lookup.
    unfold chunk_offset, chunk_records. rewrite Hi, Hj.
    assert (0 < length (chunk_inputs ci) <= k)%nat as [_ Hlen].
    { apply (groups_bounds k file_list). by eapply list_elem_of_lookup_2. }
    assert ((i + 1) * k * m <= j * k * m)%nat as H1
      by (do 2 apply Nat.mul_le_mono_r; lia).
    assert (length (chunk_inputs ci) * m <= k * m)%nat as H2
      by (apply Nat.mul_le_mono_r; lia).
    assert (0 < k * m)%nat as H3 by (apply Nat.mul_pos_pos; lia).
    split; lia.
Qed.

Section Run.
Variable s3_glob : string -> list string.
Variable engine : list call -> call -> option exn.

(** C6 (amended): when the glob matches no file the script makes no check of
    its own.  It calls its collaborators in the fixed order of a run with no
    chunk, which has no [store_chunk]; only an error of a collaborator ends
    it early, and otherwise it completes, having prepared and finalized the
    target. *)
Theorem zero_inputs_run cfg w :
  s3_glob (build_url cfg (input_path cfg)) = [] ->
  exists cs,
    calls (main s3_glob engine cfg w).2 = calls w ++ cs /\
    cs `prefix_of` zero_input_calls cfg /\
    filter (fun c => is_store_chunk c = true) cs = [] /\
    ((main s3_glob engine cfg w).1 = Ok tt ->
       filter (fun c => writes_target c = true) cs = [PrepareTarget; FinalizeTarget]) /\
    (forall e, (main s3_glob engine cfg w).1 = Raise e ->
               exists done c, engine done c = Some e) /\
    ((forall done c, engine done c = None) -> (main s3_glob engine cfg w).1 = Ok tt).
Proof.
  intros Hg. destruct (main_zero_inputs s3_glob engine cfg w Hg) as (cs & E & P & O & R).
  exists cs. split; [done|]. split; [done|]. split; [|split; [|split; [done|]]].
  - destruct P as [rest P]. apply (f_equal (filter (fun c => is_store_chunk c = true))) in P.
    rewrite filter_app in P. change (filter _ (zero_input_calls cfg)) with (@nil call) in P.
    symmetry in P. by apply app_eq_nil in P as [? _].
  - intros Hok. by rewrite (O Hok).
  - intros Hnone. destruct (main s3_glob engine cfg w).1 as [[]|e] eqn:Er; [done|].
    destruct (R e eq_refl) as (d & c & Hc). by rewrite Hnone in Hc.
Qed.

End Run.

(** C6, as the claim has it, fails: with no matching file and collaborators
    that do not fail, the run ends normally and has prepared and finalized
    the target. *)
Lemma zero_inputs_run_completes :
  (main (fun _ => []) (fun _ _ => None) sample_config empty_world).1 = Ok tt /\
  filter (fun c => writes_target c = true)
    (calls (main (fun _ => []) (fun _ _ => None) sample_config empty_world).2)
  = [PrepareTarget; FinalizeTarget].
Proof. split; by vm_compute. Qed.

Lemma planner_partition_witness :
  length (chunk_plan 10 (replicate 23 "f"%string)) = ((23 + 10 - 1) / 10)%nat /\
  concat (chunk_inputs <$> chunk_plan 10 (replicate 23 "f"%string)) = replicate 23 "f"%string /\
  length <$> (chunk_inputs <$> chunk_plan 10 (replicate 23 "f"%string)) = [10; 10; 3]%nat.
Proof.
  destruct (planner_partition 10 (replicate 23 "f"%string) ltac:(lia)) as (A & _ & C & D).
  split; [exact A|]. split; [exact C|]. by apply D.
Defined.

Lemma planner_offsets_witness :
  chunk_offset 1 10 {| chunk_index := 2; chunk_inputs := replicate 3 "f"%string |}
  = (2 * 10 * 1)%nat /\
  (chunk_offset 1 10 {| chunk_index := 1; chunk_inputs := replicate 10 "f"%string |}
   + chunk_records 1 {| chunk_index := 1; chunk_inputs := replicate 10 "f"%string |}
   <= chunk_offset 1 10 {| chunk_index := 2; chunk_inputs := replicate 3 "f"%string |})%nat.
Proof.
  destruct (planner_offsets 1 10 (replicate 23 "f"%string) ltac:(lia) ltac:(lia)) as [A B].
  split.
  - apply (A 2%nat). vm_compute; reflexivity.
  - apply (B 1%nat 2%nat); [lia | vm_compute; reflexivity | vm_compute; reflexivity].
Defined.

Lemma zero_inputs_run_witness :
  exists cs,
    calls (main (fun _ => []) (fun _ _ => None) sample_config empty_world).2 = [] ++ cs /\
    cs `prefix_of` zero_input_calls sample_config.
Proof.
  destruct (zero_inputs_run (fun _ => []) (fun _ _ => None) sample_config empty_world eq_refl)
    as (cs & E & P & _).
  exists cs. by split.
Defined.

End Conversion.

(** * Further properties of the grid reconstruction *)

Module Results.
Import Reconstruction.
Local Open Scope Q_scope.

Lemma soil_frame : lis_frame soil_world soil.
Proof.
  split; cbn [soil ds_vars ds_dims fmap list_fmap fst].
  - repeat constructor; by eexists.
  - compute_done.
  - compute_done.
  - compute_done.
  - compute_done.
  - compute_done.
  - compute_done.
  - exists 2%nat. split; [done|]. by intros v [=].
  - exists 3%nat. split; [done|]. by intros v [=].
Qed.

Lemma soil_supplied : Forall (@supplied plain_numbers soil) grid_keys.
Proof. repeat constructor; do 2 eexists; split; reflexivity. Qed.

Section Properties.
Context `{PyText}.

(** On a frame of LIS output whose grid scalars are supplied the
    reconstruction succeeds. *)
Lemma add_latlon_coords_succeeds ds w :
  lis_frame w ds -> Forall (supplied ds) grid_keys ->
  exists ds' w', add_latlon_coords ds w = (Ok ds', w').
Proof.
  intros Hf Hs. unfold grid_keys in Hs.
  apply Forall_cons in Hs as [(dx & S1)%grid_scalar_supplied Hs].
  apply Forall_cons in Hs as [(dy & S2)%grid_scalar_supplied Hs].
  apply Forall_cons in Hs as [(ll_lat & S3)%grid_scalar_supplied Hs].
  apply Forall_cons in Hs as [(ll_lon & S4)%grid_scalar_supplied _].
  by apply (add_latlon_coords_run ds w dx dy ll_lat ll_lon).
Qed.

(** X5: the new [lat] and [lon] coordinates carry the attributes of the
    original [lat] and [lon] variables (lines 135-136), and each lies on the
    dimension of its own name. *)
Theorem attributes_carried_over ds w v_lat v_lon :
  lis_frame w ds ->
  Forall (supplied ds) grid_keys ->
  var_of w ds "lat" = Some v_lat ->
  var_of w ds "lon" = Some v_lon ->
  exists ds' w' c_lat c_lon,
    add_latlon_coords ds w = (Ok ds', w') /\
    var_of w' ds' "lat" = Some c_lat /\
    var_of w' ds' "lon" = Some c_lon /\
    v_attrs c_lat = v_attrs v_lat /\
    v_attrs c_lon = v_attrs v_lon /\
    v_dims c_lat = ["lat"] /\
    v_dims c_lon = ["lon"].
Proof.
  intros Hf Hs Vlat Vlon.
  destruct (add_latlon_coords_succeeds ds w Hf Hs) as (ds' & w' & E).
  destruct (add_latlon_coords_attrs ds w ds' w' v_lat v_lon (lf_valid _ _ Hf) E Vlat Vlon)
    as (a_lat & a_lon & C1 & C2).
  by eexists ds', w', _, _.
Qed.

(** X6: every variable of the frame other than [lat] and [lon] (and than an
    index variable of a grid dimension) is in the result under its own name,
    with its data, shape and attributes; its dimensions [north_south] and
    [east_west] have become [lat] and [lon]. *)
Theorem data_variables_kept ds w k v :
  lis_frame w ds ->
  Forall (supplied ds) grid_keys ->
  var_of w ds k = Some v ->
  k ∉ ["lat"; "lon"; "north_south"; "east_west"] ->
  exists ds' w' v',
    add_latlon_coords ds w = (Ok ds', w') /\
    var_of w' ds' k = Some v' /\
    v_data v' = v_data v /\ v_shape v' = v_shape v /\ v_attrs v' = v_attrs v /\
    v_dims v' = renamed grid_names <$> (renamed keep_names <$> v_dims v).
Proof.
  intros Hf Hs Hk Hn.
  assert (k <> "lat" /\ k <> "lon" /\ k <> "north_south" /\ k <> "east_west")
    as (N1 & N2 & N3 & N4).
  { repeat split; intros ->; apply Hn; set_solver. }
  destruct (add_latlon_coords_succeeds ds w Hf Hs) as (ds' & w' & E).
  pose proof (add_latlon_coords_keeps ds w ds' w' k v (lf_valid _ _ Hf) E Hk) as K.
  assert (renamed grid_names (renamed keep_names k) = k) as Hr by names.
  rewrite Hr in K. specialize (K N1 N2).
  by eexists ds', w', _.
Qed.

(** X7: the Dataset returned has the dimensions [lat] and [lon], of the
    lengths of [north_south] and [east_west], which are no longer dimensions
    or variables of it; [lat] and [lon] are coordinates; every other
    dimension keeps its size, and the global attributes are those of the
    frame. *)
Theorem result_dimensions ds w ns ew :
  lis_frame w ds ->
  Forall (supplied ds) grid_keys ->
  dim_len w ds "north_south" ns ->
  dim_len w ds "east_west" ew ->
  exists ds' w',
    add_latlon_coords ds w = (Ok ds', w') /\
    dict_get "lat" (ds_dims ds') = Some ns /\
    dict_get "lon" (ds_dims ds') = Some ew /\
    Forall (fun d => (d ∉ (ds_dims ds').*1) /\ (d ∉ (ds_vars ds').*1))
           ["north_south"; "east_west"] /\
    (forall d, d ∉ ["lat"; "lon"; "orig_lat"; "orig_lon"; "north_south"; "east_west"] ->
       dict_get d (ds_dims ds') = dict_get d (ds_dims ds)) /\
    Forall (fun c => c ∈ ds_coord_names ds') ["lat"; "lon"] /\
    ds_attrs ds' = ds_attrs ds.
Proof.
  intros Hf Hs Hns Hew.
  destruct (add_latlon_coords_succeeds ds w Hf Hs) as (ds' & w' & E).
  exists ds', w'. split; [done|].
  destruct (add_latlon_coords_no_grid_names ds w ds' w' "north_south" E) as [V1 D1]; [by left|].
  destruct (add_latlon_coords_no_grid_names ds w ds' w' "east_west" E) as [V2 D2]; [by right|].
  apply add_latlon_coords_fields in E
    as (ns' & ew' & L1 & L2 & A & G1 & G2 & K & _ & _ & C1 & C2).
  rewrite (dim_len_getitem _ _ _ _ (lf_valid _ _ Hf) Hns) in L1.
  rewrite (dim_len_getitem _ _ _ _ (lf_valid _ _ Hf) Hew) in L2.
  injection L1 as <-. injection L2 as <-.
  split; [done|]. split; [done|].
  split; [by repeat constructor|].
  split; [|split; [by repeat constructor|done]].
  intros d Hd.
  assert (d <> "lat" /\ d <> "lon" /\ d <> "orig_lat" /\ d <> "orig_lon" /\
          d <> "north_south" /\ d <> "east_west") as (N1 & N2 & N3 & N4 & N5 & N6).
  { repeat split; intros ->; apply Hd; set_solver. }
  rewrite K by done.
  rewrite (rename_dims_get grid_names _ d d).
  - apply rename_dims_get; [apply (lf_dims _ _ Hf)|names|intros k _; names].
  - apply rename_dims_keys.
  - names.
  - intros k _. names.
Qed.

(** X8: the reconstruction cannot be applied to its own result: the result
    has no [east_west], so a second application raises [KeyError] for it and
    changes nothing. *)
Theorem not_reapplicable ds w :
  lis_frame w ds ->
  Forall (supplied ds) grid_keys ->
  exists ds' w',
    add_latlon_coords ds w = (Ok ds', w') /\
    add_latlon_coords ds' w' = (Raise (KeyError "east_west"), w').
Proof.
  intros Hf Hs.
  destruct (add_latlon_coords_succeeds ds w Hf Hs) as (ds' & w' & E).
  exists ds', w'. split; [done|].
  destruct (add_latlon_coords_no_grid_names ds w ds' w' "east_west" E) as [V D]; [by right|].
  apply add_latlon_coords_fields in E as (_ & _ & _ & _ & A & _).
  unfold grid_keys in Hs.
  apply Forall_cons in Hs as [S1 Hs]. apply Forall_cons in Hs as [S2 _].
  apply add_latlon_coords_no_dim; [| |by left|done|done].
  - unfold supplied in *. by rewrite A.
  - unfold supplied in *. by rewrite A.
Qed.

(** X9: a Dataset without the dimension [east_west] (as a variable or as a
    dimension) makes the reconstruction raise [KeyError] for it as soon as
    [DX] and [DY] are read, before the corner attributes are looked at and
    with nothing changed; likewise for [north_south] when [east_west] is
    there. *)
Theorem missing_dimension_raises ds w d :
  supplied ds "DX" -> supplied ds "DY" ->
  d = "east_west" \/ d = "north_south" /\ is_ok (len_getitem ds "east_west" w).1 = true ->
  d ∉ (ds_vars ds).*1 -> d ∉ (ds_dims ds).*1 ->
  add_latlon_coords ds w = (Raise (KeyError d), w).
Proof. apply add_latlon_coords_no_dim. Qed.

(** X10: a Dataset that has neither a variable nor a dimension [lon], or
    neither [lat], makes the reconstruction raise the [ValueError] of
    [rename] (line 128), with nothing changed. *)
Theorem missing_variable_raises ds w k :
  Forall (supplied ds) grid_keys ->
  is_ok (len_getitem ds "east_west" w).1 = true ->
  is_ok (len_getitem ds "north_south" w).1 = true ->
  k = "lon" \/ k = "lat" ->
  k ∉ (ds_vars ds).*1 -> k ∉ (ds_dims ds).*1 ->
  add_latlon_coords ds w =
    (Raise (ValueError "cannot rename: not a variable or dimension in this dataset"), w).
Proof. apply add_latlon_coords_no_var. Qed.

End Properties.

Lemma attributes_carried_over_witness :
  exists ds' w' c_lat c_lon,
    @add_latlon_coords plain_numbers small (lis_world 2 3 nodata) = (Ok ds', w') /\
    var_of w' ds' "lat" = Some c_lat /\
    var_of w' ds' "lon" = Some c_lon /\
    v_attrs c_lat = {[ "units" := AText "degrees_north" ]} /\
    v_attrs c_lon = {[ "units" := AText "degrees_east" ]}.
Proof.
  destruct (@attributes_carried_over plain_numbers small (lis_world 2 3 nodata)
              (masked 2 3 "degrees_north" nodata) (masked 2 3 "degrees_east" nodata))
    as (ds' & w' & c_lat & c_lon & E & V1 & V2 & A1 & A2 & _).
  - apply lis_dataset_frame.
  - apply small_supplied.
  - reflexivity.
  - reflexivity.
  - exists ds', w', c_lat, c_lon.
    split; [exact E|]. split; [exact V1|]. split; [exact V2|].
    split; [exact A1|exact A2].
Defined.

Lemma data_variables_kept_witness :
  exists ds' w' v',
    @add_latlon_coords plain_numbers soil soil_world = (Ok ds', w') /\
    var_of w' ds' "SoilMoist_tavg" = Some v' /\
    v_data v' = v_data soil_moisture /\
    v_dims v' = ["time"; "lat"; "lon"].
Proof.
  destruct (@data_variables_kept plain_numbers soil soil_world "SoilMoist_tavg" soil_moisture)
    as (ds' & w' & v' & E & V & D & _ & _ & N).
  - apply soil_frame.
  - apply soil_supplied.
  - reflexivity.
  - compute_done.
  - exists ds', w', v'.
    split; [exact E|]. split; [exact V|]. split; [exact D|].
    rewrite N. vm_compute; reflexivity.
Defined.

Lemma result_dimensions_witness :
  exists ds' w',
    @add_latlon_coords plain_numbers soil soil_world = (Ok ds', w') /\
    dict_get "lat" (ds_dims ds') = Some 2%nat /\
    dict_get "lon" (ds_dims ds') = Some 3%nat /\
    dict_get "time" (ds_dims ds') = Some 1%nat.
Proof.
  destruct (@result_dimensions plain_numbers soil soil_world 2 3)
    as (ds' & w' & E & G1 & G2 & _ & K & _).
  - apply soil_frame.
  - apply soil_supplied.
  - split; [done|]. by intros v [=].
  - split; [done|]. by intros v [=].
  - exists ds', w'. split; [exact E|]. split; [exact G1|]. split; [exact G2|].
    rewrite K; [reflexivity|compute_done].
Defined.

Lemma not_reapplicable_witness :
  exists ds' w',
    @add_latlon_coords plain_numbers small (lis_world 2 3 nodata) = (Ok ds', w') /\
    @add_latlon_coords plain_numbers ds' w' = (Raise (KeyError "east_west"), w').
Proof.
  apply (@not_reapplicable plain_numbers small (lis_world 2 3 nodata)).
  - apply lis_dataset_frame.
  - apply small_supplied.
Defined.

Lemma missing_dimension_raises_witness :
  @add_latlon_coords plain_numbers no_east_west (lis_world 2 3 nodata)
  = (Raise (KeyError "east_west"), lis_world 2 3 nodata).
Proof.
  apply (@missing_dimension_raises plain_numbers no_east_west (lis_world 2 3 nodata) "east_west").
  - do 2 eexists; split; reflexivity.
  - do 2 eexists; split; reflexivity.
  - by left.
  - compute_done.
  - compute_done.
Defined.

Lemma missing_variable_raises_witness :
  @add_latlon_coords plain_numbers no_lon (lis_world 2 3 nodata)
  = (Raise (ValueError "cannot rename: not a variable or dimension in this dataset"),
     lis_world 2 3 nodata).
Proof.
  apply (@missing_variable_raises plain_numbers no_lon (lis_world 2 3 nodata) "lon").
  - repeat constructor; do 2 eexists; split; reflexivity.
  - reflexivity.
  - reflexivity.
  - by left.
  - compute_done.
  - compute_done.
Defined.

(** The axis of a described grid tracks the description. *)
Lemma axis_tracks c q n :
  described c q n ->
  tracks (axis (Py.round c 3) (Py.round (Ffin q) 3) n) (fval c) q n.
Proof.
  intros (Fc & Hc & Hlo & Hhi & Hn & He) i Hi.
  pose proof (in_range_round3 c q n Fc Hc Hlo Hn He) as R.
  destruct (round3_step_near q Hlo Hhi) as (qs & Es & _ & _ & Bs).
  destruct (round3_spec c Fc Hc) as (_ & Bc & _).
  destruct (axis_near _ _ _ i R Hi) as (z & Ez & Fz & Bz).
  exists z. split; [done|]. split; [done|].
  rewrite Es in Bz. cbn [fval] in Bz.
  pose proof (Qnat_nonneg i) as Hi0.
  set (I := inject_Z (Z.of_nat i)) in *.
  set (c' := fval (Py.round c 3)) in *.
  pose proof (pow2_pos (-14)) as P14. pose proof (pow2_pos (-46)) as P46.
  set (e14 := pow2 (-14)) in *. set (e46 := pow2 (-46)) in *.
  apply Qabs_Qle_condition in Bz as [Bz1 Bz2].
  apply Qabs_Qle_condition in Bc as [Bc1 Bc2].
  apply Qabs_Qle_condition in Bs as [Bs1 Bs2].
  assert ((qs - q) * I <= ((1 # 2000) + e46) * I) as M1
    by (apply Qmult_le_compat_r; lra).
  assert (- (((1 # 2000) + e46) * I) <= (qs - q) * I) as M2.
  { assert ((q - qs) * I <= ((1 # 2000) + e46) * I) by (apply Qmult_le_compat_r; lra). lra. }
  apply Qabs_Qle_condition. split; lra.
Qed.

Section Properties.
Context `{PyText}.

(** X11: a resolution of magnitude at most 0.0005 is rounded to zero (line
    105), and the reconstruction then succeeds with a constant axis: every
    longitude is the rounded corner, narrowed to binary32. *)
Theorem resolution_rounds_to_zero ds w q qc dy ll_lat ew :
  lis_frame w ds ->
  ds_attrs ds !! "DX" = Some (AFloat (Ffin q)) ->
  (Qabs q <= 1 # 2000)%Q ->
  grid_scalar ds "DY" = Ok dy ->
  grid_scalar ds "SOUTH_WEST_CORNER_LAT" = Ok ll_lat ->
  grid_scalar ds "SOUTH_WEST_CORNER_LON" = Ok (Ffin qc) ->
  dim_len w ds "east_west" ew ->
  (Z.of_nat ew < 2 ^ 53)%Z ->
  exists ds' w' lon,
    add_latlon_coords ds w = (Ok ds', w') /\
    axis_data "lon" (Ok ds', w') = Some lon /\
    lon = replicate ew (round32 qc).
Proof.
  intros Hf Hdx Hq Hdy Hlat Hlon Hew Hn.
  destruct (lf_ns _ _ Hf) as [ns Hns].
  assert (grid_scalar ds "DX" = Ok (Fzero (Qneg q))) as Hx.
  { unfold grid_scalar, getitem. rewrite Hdx. cbn [float_]. by rewrite round3_flat. }
  destruct (add_latlon_coords_spec ds w _ _ _ _ ns ew Hf Hx Hdy Hlat Hlon Hns Hew)
    as (ds' & w' & E & _ & (v & V & _ & _ & D)).
  exists ds', w', (v_data v). split; [done|]. cbn [axis_data]. rewrite V.
  split; [done|]. rewrite D. by apply axis_flat.
Qed.

(** X12: on a described grid every element [i] of an axis is within
    [2^-14 + (0.0005 + 2^-46) * (1 + i)] of [corner + resolution * i], with
    the corner and the resolution as the attributes give them, before the
    script rounds them to three decimals. *)
Theorem axes_track_attributes ds w c_lat c_lon qx qy ns ew :
  lis_frame w ds ->
  ds_attrs ds !! "DX" = Some (AFloat (Ffin qx)) ->
  ds_attrs ds !! "DY" = Some (AFloat (Ffin qy)) ->
  ds_attrs ds !! "SOUTH_WEST_CORNER_LAT" = Some (AFloat c_lat) ->
  ds_attrs ds !! "SOUTH_WEST_CORNER_LON" = Some (AFloat c_lon) ->
  dim_len w ds "north_south" ns ->
  dim_len w ds "east_west" ew ->
  described c_lat qy ns ->
  described c_lon qx ew ->
  exists ds' w' lat lon,
    add_latlon_coords ds w = (Ok ds', w') /\
    axis_data "lat" (Ok ds', w') = Some lat /\
    axis_data "lon" (Ok ds', w') = Some lon /\
    tracks lat (fval c_lat) qy ns /\
    tracks lon (fval c_lon) qx ew.
Proof.
  intros Hf Hdx Hdy Hlat Hlon Hns Hew R1 R2.
  apply grid_scalar_float in Hdx, Hdy, Hlat, Hlon.
  destruct (add_latlon_coords_spec ds w _ _ _ _ ns ew Hf Hdx Hdy Hlat Hlon Hns Hew)
    as (ds' & w' & E & (v1 & V1 & _ & _ & D1) & (v2 & V2 & _ & _ & D2)).
  exists ds', w', (v_data v1), (v_data v2). cbn [axis_data]. rewrite V1, V2.
  split; [done|]. split; [done|]. split; [done|].
  rewrite D1, D2. split; by apply axis_tracks.
Qed.

End Properties.

Lemma resolution_rounds_to_zero_witness :
  exists ds' w',
    @add_latlon_coords plain_numbers fine (lis_world 2 3 nodata) = (Ok ds', w') /\
    axis_data "lon" (Ok ds', w') = Some (replicate 3 (round32 (-1439 # 8))).
Proof.
  destruct (@resolution_rounds_to_zero plain_numbers fine (lis_world 2 3 nodata)
              (fval (round64 (1 # 2500))) (-1439 # 8) (Fzero false) (Ffin (-479 # 8)) 3)
    as (ds' & w' & lon & E & A & ->).
  - apply lis_dataset_frame.
  - vm_compute; reflexivity.
  - by vm_compute.
  - vm_compute; reflexivity.
  - vm_compute; reflexivity.
  - vm_compute; reflexivity.
  - apply lis_dataset_ew.
  - by vm_compute.
  - exists ds', w'. split; [exact E|exact A].
Defined.

Lemma described_quarter_2 : described (Ffin (-479 # 8)) (1 # 4) 2.
Proof. unfold described. cbn [finite fval]. repeat split; try lia; by vm_compute. Qed.

Lemma described_quarter_3 : described (Ffin (-1439 # 8)) (1 # 4) 3.
Proof. unfold described. cbn [finite fval]. repeat split; try lia; by vm_compute. Qed.

Lemma axes_track_attributes_witness :
  exists ds' w' lat lon,
    @add_latlon_coords plain_numbers small (lis_world 2 3 nodata) = (Ok ds', w') /\
    axis_data "lat" (Ok ds', w') = Some lat /\
    axis_data "lon" (Ok ds', w') = Some lon /\
    tracks lat (-479 # 8) (1 # 4) 2 /\
    tracks lon (-1439 # 8) (1 # 4) 3.
Proof.
  apply (@axes_track_attributes plain_numbers small (lis_world 2 3 nodata)
           (Ffin (-479 # 8)) (Ffin (-1439 # 8)) (1 # 4) (1 # 4) 2 3).
  - apply lis_dataset_frame.
  - reflexivity.
  - reflexivity.
  - reflexivity.
  - reflexivity.
  - apply lis_dataset_ns.
  - apply lis_dataset_ew.
  - apply described_quarter_2.
  - apply described_quarter_3.
Defined.

Section Properties.
Context `{PyText}.

(** X13: a Dataset that has the variables [lon] and [lat] and already a
    variable [orig_lon] or [orig_lat] makes the reconstruction raise the
    [ValueError] of [rename] (line 128); the objects that were there are
    unchanged. *)
Theorem name_conflict_raises ds w k :
  valid w ds ->
  NoDup (ds_vars ds).*1 ->
  Forall (supplied ds) grid_keys ->
  is_ok (len_getitem ds "east_west" w).1 = true ->
  is_ok (len_getitem ds "north_south" w).1 = true ->
  "lon" ∈ (ds_vars ds).*1 -> "lat" ∈ (ds_vars ds).*1 ->
  k = "orig_lon" \/ k = "orig_lat" ->
  k ∈ (ds_vars ds).*1 ->
  (add_latlon_coords ds w).1 = Raise (ValueError "the new name conflicts") /\
  grows w (add_latlon_coords ds w).2.
Proof.
  intros. split; [by eapply add_latlon_coords_conflict|apply add_latlon_coords_grows].
Qed.

End Properties.

Lemma name_conflict_raises_witness :
  (@add_latlon_coords plain_numbers kept_before (lis_world 2 3 nodata)).1
  = Raise (ValueError "the new name conflicts").
Proof.
  apply (@name_conflict_raises plain_numbers kept_before (lis_world 2 3 nodata) "orig_lon").
  - repeat constructor; by eexists.
  - compute_done.
  - repeat constructor; do 2 eexists; split; reflexivity.
  - reflexivity.
  - reflexivity.
  - compute_done.
  - compute_done.
  - by left.
  - compute_done.
Defined.

End Results.

(** * Further properties of the conversion driver *)

Module Runs.

Section Run.
Variable s3_glob : string -> list string.
Variable engine : list call -> call -> option exn.



(** X3: [finalize_target] is called only at the end of a complete run: when
    it has been called, the calls made are all the calls of the script, one
    [store_chunk] for every chunk among them, and every call before it has
    returned normally. *)
Theorem finalize_after_every_store cfg w cs :
  calls (main s3_glob engine cfg w).2 = calls w ++ cs ->
  FinalizeTarget ∈ cs ->
  cs = script_calls cfg (input_urls s3_glob cfg) /\
  forall before c after, cs = before ++ c :: after -> c <> FinalizeTarget ->
    engine (calls w ++ before) c = None.
Proof.
  intros E Hin. destruct (main_calls s3_glob engine cfg w) as (cs' & E' & P & R).
  rewrite E in E'. apply app_inv_head in E' as <-.
  destruct (script_calls_last cfg (input_urls s3_glob cfg)) as (init & Ei & Hni).
  rewrite Ei in P |- *. apply prefix_snoc_inv in P as [->|[k ->]].
  - split; [done|]. intros before c after Ec Hc. apply (R before c after Ec).
    intros ->. by apply app_inj_tail in Ec as [_ <-].
  - destruct Hni. apply elem_of_app. by left.
Qed.

(** X4: a [store_chunk] is called only after [prepare_target] has been
    called and has returned normally, and only for a chunk the recipe
    yields. *)
Theorem store_after_prepare cfg w cs1 ch cs2 :
  calls (main s3_glob engine cfg w).2 = calls w ++ cs1 ++ StoreChunk ch :: cs2 ->
  ch ∈ chunk_plan (inputs_per_chunk cfg) (input_urls s3_glob cfg) /\
  exists pre post, cs1 = pre ++ PrepareTarget :: post /\
    engine (calls w ++ pre) PrepareTarget = None.
Proof.
  intros E. destruct (main_calls s3_glob engine cfg w) as (cs' & E' & P & R).
  rewrite E in E'. apply app_inv_head in E' as <-.
  destruct P as [k P]. unfold script_calls in P. rewrite <- app_assoc in P.
  cbn [app] in P.
  do 7 (destruct cs1 as [|? cs1]; [discriminate P|]; injection P as <- P).
  split.
  - assert (StoreChunk ch ∈ (StoreChunk <$> chunk_plan (inputs_per_chunk cfg)
                                (input_urls s3_glob cfg)) ++ [FinalizeTarget]) as Hin.
    { rewrite P. apply elem_of_app. right. by left. }
    apply elem_of_app in Hin as [Hin|Hin].
    + by apply list_elem_of_fmap in Hin as (c' & [= ->] & Hc).
    + by apply list_elem_of_singleton in Hin.
  - eexists [_; _; _; _; _], (_ :: cs1). split; [reflexivity|].
    eapply R; [reflexivity|]. done.
Qed.

End Run.


Lemma finalize_after_every_store_witness :
  calls (main three_files (fun _ _ => None) sample_config empty_world).2 =
    script_calls sample_config (input_urls three_files sample_config) /\
  length (script_calls sample_config (input_urls three_files sample_config)) = 9%nat.
Proof.
  destruct (finalize_after_every_store three_files (fun _ _ => None) sample_config empty_world
              (calls (main three_files (fun _ _ => None) sample_config empty_world).2))
    as [E _].
  - reflexivity.
  - vm_compute. do 8 apply list_elem_of_further. apply list_elem_of_here.
  - split; [exact E|]. vm_compute; reflexivity.
Defined.

Lemma store_after_prepare_witness :
  exists pre post,
    [ S3Glob (build_url sample_config (input_path sample_config));
      PatternFromFileSequence (input_urls three_files sample_config) "time" 1;
      CreateStorageConfig "/tmp/lis" (build_url sample_config (target_path sample_config));
      XarrayZarrRecipe 10 false [("time", 10%nat)];
      IterChunks; PrepareTarget; IterChunks ] = pre ++ PrepareTarget :: post /\
    failing_store pre PrepareTarget = None.
Proof.
  destruct (store_after_prepare three_files failing_store sample_config empty_world
              [ S3Glob (build_url sample_config (input_path sample_config));
                PatternFromFileSequence (input_urls three_files sample_config) "time" 1;
                CreateStorageConfig "/tmp/lis" (build_url sample_config (target_path sample_config));
                XarrayZarrRecipe 10 false [("time", 10%nat)];
                IterChunks; PrepareTarget; IterChunks ]
              {| chunk_index := 0; chunk_inputs := input_urls three_files sample_config |} [])
    as (_ & pre & post & E & F).
  - vm_compute; reflexivity.
  - exists pre, post. split; [exact E|exact F].
Defined.

End Runs.
